(** * Bills-handling: the categorisation and parsing engine of [app.py]

    A shallow embedding of the functions of [app.py] (and of the batch
    script [update_categories.py]) that carry the algorithmic content of the
    application: the amount extractor, the date gate of the bulk import, the
    category store, the keyword matcher and the bulk re-categoriser.

    Conventions of the embedding.
    - Python [str] values are [string]s; a character is read as a code point
      below 256.
    - A Python [dict] is an association list in insertion order (Python
      dictionaries iterate in insertion order).
    - The SQLite tables are lists of rows, in [rowid] order; a database that
      cannot be opened is not modelled.
    - [None] / [NaN] inputs are [option] values.
    - The libraries the code calls (fuzzywuzzy, [datetime], pandas' date
      parser) are parameters of the functions that call them.
    - A Python [float] is an IEEE 754 binary64 number: the kernel's
      primitive [float], with its primitive operations.  [float(text)] and
      [round(x, 2)] are modelled with correct rounding (ties to even), as
      CPython computes them.  The columns of the [expenses] table that the
      modelled operations only carry from one place to another are kept as
      rationals.

    The file has two parts: the embedding with the vocabulary of the
    statements, then the proofs. *)

From Stdlib Require Import List String Ascii ZArith QArith Bool Lia.
From Stdlib Require Import Floats Uint63.
Import ListNotations.

Set Warnings "-inexact-float".

Local Open Scope string_scope.
Local Open Scope list_scope.
Local Open Scope Z_scope.

(** ** Python string primitives *)

Module Py.

(** [str.isspace] on one character: TAB..CR, FS..US, SPACE, NEL, NBSP. *)
Definition isspace (c : ascii) : bool :=
  let n := N_of_ascii c in
  (((9 <=? n) && (n <=? 13)) || ((28 <=? n) && (n <=? 32))
   || (n =? 133) || (n =? 160))%N.

(** the regular expression class [\d]. *)
Definition isdigit (c : ascii) : bool :=
  let n := N_of_ascii c in ((48 <=? n) && (n <=? 57))%N.

(** the regular expression class [[a-z]]. *)
Definition islower_az (c : ascii) : bool :=
  let n := N_of_ascii c in ((97 <=? n) && (n <=? 122))%N.

Definition lower_char (c : ascii) : ascii :=
  let n := N_of_ascii c in
  if (((65 <=? n) && (n <=? 90))
      || ((192 <=? n) && (n <=? 222) && negb (n =? 215)))%N
  then ascii_of_N (n + 32) else c.

(** [s.lower()] *)
Fixpoint lower (s : string) : string :=
  match s with
  | EmptyString => EmptyString
  | String c r => String (lower_char c) (lower r)
  end.

Definition nonempty (s : string) : bool :=
  match s with EmptyString => false | String _ _ => true end.

Fixpoint lstrip (s : string) : string :=
  match s with
  | EmptyString => EmptyString
  | String c r => if isspace c then lstrip r else s
  end.

Fixpoint rstrip (s : string) : string :=
  match s with
  | EmptyString => EmptyString
  | String c r =>
      let r' := rstrip r in
      if isspace c && negb (nonempty r') then EmptyString else String c r'
  end.

(** [s.strip()] *)
Definition strip (s : string) : string := rstrip (lstrip s).

(** [sub in s] *)
Fixpoint contains (sub s : string) : bool :=
  prefix sub s
  || match s with
     | EmptyString => false
     | String _ r => contains sub r
     end.

(** [s.split(sep)] for a one-character separator; [''.split(',') = ['']]. *)
Fixpoint split (sep : ascii) (s : string) : list string :=
  match s with
  | EmptyString => [EmptyString]
  | String c r =>
      if Ascii.eqb c sep then EmptyString :: split sep r
      else match split sep r with
           | h :: t => String c h :: t
           | [] => [String c EmptyString]
           end
  end.

(** [sep.join(l)] *)
Definition join (sep : string) (l : list string) : string :=
  String.concat sep l.

(** the pieces between maximal runs of separator characters, empty
    leading and trailing pieces included: [re.split(r'[...]+', s)]. *)
Fixpoint split_runs (sep : ascii -> bool) (cur : string) (in_sep : bool)
         (s : string) : list string :=
  match s with
  | EmptyString => [cur]
  | String c r =>
      if sep c then
        if in_sep then split_runs sep EmptyString true r
        else cur :: split_runs sep EmptyString true r
      else split_runs sep (cur ++ String c EmptyString)%string false r
  end.

(** [s.split()]: the whitespace-separated words, none of them empty. *)
Definition split_ws (s : string) : list string :=
  filter nonempty (split_runs isspace EmptyString false s).

(** the longest prefix of decimal digits, and the rest. *)
Fixpoint span_digits (s : string) : string * string :=
  match s with
  | EmptyString => (EmptyString, EmptyString)
  | String c r =>
      if isdigit c then
        let '(ds, rest) := span_digits r in (String c ds, rest)
      else (EmptyString, s)
  end.

Definition digit_value (c : ascii) : Z := Z.of_N (N_of_ascii c) - 48.

(** [int(ds)] for a string of decimal digits, most significant first. *)
Fixpoint int_of_digits (acc : Z) (ds : string) : Z :=
  match ds with
  | EmptyString => acc
  | String c r => int_of_digits (10 * acc + digit_value c) r
  end.

(** *** Floats *)

(** The double nearest to [n / d], ties to even, for [0 <= n] and [0 < d].
    When [n] and [d] are below 2^53 both are doubles, and IEEE division
    rounds their quotient correctly; beyond, the division of [SpecFloat]
    does so on mantissas of any size, and gives infinity above the range of
    the doubles. *)
Definition nearest_double (n d : Z) : float :=
  match n with
  | Zpos p =>
      if (n <? 9007199254740992) && (d <? 9007199254740992)
      then (of_uint63 (Uint63.of_Z n) / of_uint63 (Uint63.of_Z d))%float
      else SF2Prim (SFdiv prec emax (S754_finite false p 0)
                      (S754_finite false (Z.to_pos d) 0))
  | _ => 0%float
  end.

(** [float(g)] for [g] of the shape [digits] or [digits.digits]: the double
    nearest to the decimal that [g] denotes. *)
Definition float_of_decimal (g : string) : float :=
  let '(ip, rest) := span_digits g in
  match rest with
  | String "." fs =>
      let scale := 10 ^ Z.of_nat (String.length fs) in
      nearest_double (int_of_digits 0 ip * scale + int_of_digits 0 fs) scale
  | _ => nearest_double (int_of_digits 0 ip) 1
  end.

(** [M / 2^s] rounded to the nearest integer, ties to even, for
    [1 <= s <= 61] and [M < 2^60]. *)
Definition half_even (M s : int) : int :=
  let q := (M >> s)%uint63 in
  let r := (M - (q << s))%uint63 in
  let h := (1 << (s - 1))%uint63 in
  if (r <? h)%uint63 then q
  else if (h <? r)%uint63 then (q + 1)%uint63
  else if Uint63.is_even q then q else (q + 1)%uint63.

(** the whole number of hundredths nearest to [|x|], ties to even, for a
    finite [x] below 2^52.  [frshiftexp] and [normfr_mantissa] give
    [|x| = m / 2^s] exactly, with [m < 2^53] and [s = 2154 - ex]; from
    [s = 62] on, [100 * |x|] is below a half. *)
Definition hundredths (x : float) : int :=
  let (f, ex) := frshiftexp x in
  let s := (2154 - ex)%uint63 in
  if (62 <=? s)%uint63 then 0%uint63
  else half_even (normfr_mantissa f * 100)%uint63 s.

(** [round(x, 2)]: the double nearest to the two-decimal number nearest to
    [x] (ties to even, on the exact value of [x]), with the sign of [x].
    A NaN, an infinity and a double from 2^52 on (an integer) are returned
    as they are; so is a double whose hundredths reach 2^53: the doubles
    are then more than 0.01 apart, and [x] is the nearest one. *)
Definition round2 (x : float) : float :=
  if PrimFloat.is_nan x || PrimFloat.is_infinity x then x
  else if (2154 <=? snd (frshiftexp x))%uint63 then x
  else
    let k := hundredths x in
    if (k <? 9007199254740992)%uint63 then
      let r := (of_uint63 k / 100)%float in
      if PrimFloat.get_sign x then (- r)%float else r
    else x.

End Py.

(** ** AmountExtractor: [extract_amount] *)

Module Amount.

(** The regular expression [[Ss]\$(\d+(?:\.\d{2})?)] matched at the very
    start of [s]; the result is group 1.  [\d+] is greedy, and giving
    digits back never lets the optional fraction match, so the capture is
    the longest digit run, extended by [.dd] when that follows. *)
Definition match_amount_at (s : string) : option string :=
  match s with
  | String c0 (String c1 r) =>
      if (Ascii.eqb c0 "S" || Ascii.eqb c0 "s") && Ascii.eqb c1 "$" then
        let '(ds, rest) := Py.span_digits r in
        if Py.nonempty ds then
          match rest with
          | String "." (String d1 (String d2 _)) =>
              if Py.isdigit d1 && Py.isdigit d2
              then Some (ds ++ String "." (String d1 (String d2 EmptyString)))%string
              else Some ds
          | _ => Some ds
          end
        else None
      else None
  | _ => None
  end.

(** [re.search]: the leftmost position at which the pattern matches. *)
Fixpoint re_search_amount (s : string) : option string :=
  match match_amount_at s with
  | Some g => Some g
  | None =>
      match s with
      | EmptyString => None
      | String _ r => re_search_amount r
      end
  end.

(** [extract_amount(text)]; [None] stands for a missing value
    ([pd.isna(text)]). *)
Definition extract_amount (text : option string) : float :=
  match text with
  | None => 0%float
  | Some t =>
      let original_text := Py.strip t in
      let text := Py.lower original_text in
      if negb (Py.nonempty text) || Py.contains "n/a" text then 0%float
      else
        match re_search_amount original_text with
        | Some g =>
            let amount := Py.float_of_decimal g in
            if Py.contains "cr" text then (- amount)%float else amount
        | None => 0%float
        end
  end.

End Amount.


(** ** SplitCalculator: [calculate_split_amounts] *)

Module Split.

(** [calculate_split_amounts(amount, self_percentage)] *)
Definition calculate_split_amounts (amount self_percentage : float)
    : float * float :=
  let self_amount := Py.round2 (amount * (self_percentage / 100))%float in
  let wife_amount := Py.round2 (amount - self_amount)%float in
  (self_amount, wife_amount).

End Split.


(** ** Categorizer: [categorize_expense] *)

Module Categorizer.

(** The result of [get_all_categories()]: category name to keyword list, in
    the order the rows are fetched. *)
Definition snapshot := list (string * list string).

Fixpoint drop (n : nat) (s : string) : string :=
  match n, s with
  | S k, String _ r => drop k r
  | _, _ => s
  end.

(** length of the longest whitespace prefix. *)
Fixpoint space_run (s : string) : nat :=
  match s with
  | EmptyString => O
  | String c r => if Py.isspace c then S (space_run r) else O
  end.

(** [\s+-\s+] matched at the start of [s]: the length of the match.  Both
    [\s+] are greedy and whitespace never matches the hyphen, so each takes
    a whole whitespace run. *)
Definition match_spaced_hyphen (s : string) : option nat :=
  match space_run s with
  | O => None
  | S _ as n1 =>
      match drop n1 s with
      | String "-" r =>
          match space_run r with
          | O => None
          | S _ as n2 => Some (n1 + 1 + n2)%nat
          end
      | _ => None
      end
  end.

(** [re.sub(r'\s+-\s+', ' ', s)]: leftmost matches, not overlapping; [skip]
    counts the characters of the current match still to be consumed. *)
Fixpoint sub_spaced_hyphen (skip : nat) (s : string) : string :=
  match s with
  | EmptyString => EmptyString
  | String c r =>
      match skip with
      | S k => sub_spaced_hyphen k r
      | O =>
          match match_spaced_hyphen s with
          | Some n => String " " (sub_spaced_hyphen (Nat.pred n) r)
          | None => String c (sub_spaced_hyphen O r)
          end
      end
  end.

(** the class [[a-z0-9\s\-]]. *)
Definition kept_char (c : ascii) : bool :=
  Py.islower_az c || Py.isdigit c || Py.isspace c || Ascii.eqb c "-".

(** [re.sub(r'[^a-z0-9\s\-]', ' ', s)] *)
Fixpoint clean_special (s : string) : string :=
  match s with
  | EmptyString => EmptyString
  | String c r => String (if kept_char c then c else " "%char) (clean_special r)
  end.

(** the cleaning of the expense name, up to the emptiness test. *)
Definition normalize (expense_name : string) : string :=
  let s := Py.lower expense_name in
  let s := sub_spaced_hyphen O s in
  let s := clean_special s in
  Py.join " " (map Py.strip (Py.split_ws s)).

(** [[w for w in re.split(r'[\s-]+', expense_name) if w]] *)
Definition words_of (expense_name : string) : list string :=
  filter Py.nonempty
    (Py.split_runs (fun c => Py.isspace c || Ascii.eqb c "-")
       EmptyString false expense_name).

(** Python's [max(..., key=score)]: the first element of highest score. *)
Fixpoint max_by_score (best : string * Z) (l : list (string * Z)) : string * Z :=
  match l with
  | [] => best
  | p :: r => max_by_score (if snd p >? snd best then p else best) r
  end.

(** [process.extractOne(query, choices)] of fuzzywuzzy, over the similarity
    function [scorer] (the library's processor and [WRatio], an integer in
    0..100, so that the default cutoff 0 drops no choice): the first choice
    of highest score with its score, [None] when there is no choice. *)
Definition extractOne (scorer : string -> string -> Z) (query : string)
    (choices : list string) : option (string * Z) :=
  match map (fun choice => (choice, scorer query choice)) choices with
  | [] => None
  | p :: r => Some (max_by_score p r)
  end.

(** one iteration of the inner loop over [categories.items()]; the state is
    [(best_category, highest_score)]. *)
Definition fuzzy_step (scorer : string -> string -> Z) (word : string)
    (st : string * Z) (entry : string * list string) : string * Z :=
  let '(category, keywords) := entry in
  match keywords with
  | [] => st
  | _ :: _ =>
      match extractOne scorer word keywords with
      | Some (_, score) =>
          if (score >? snd st) && (score >? 75) then (category, score) else st
      | None => st
      end
  end.

(** the two nested loops of the fuzzy branch. *)
Definition fuzzy_match (scorer : string -> string -> Z)
    (categories : snapshot) (words : list string) : string * Z :=
  fold_left
    (fun st word =>
       if Py.nonempty word then fold_left (fuzzy_step scorer word) categories st
       else st)
    words ("others", 0).

(** [keyword and keyword.strip()] and [keyword.strip().lower() in name]. *)
Definition keyword_hit (expense_name keyword : string) : bool :=
  Py.nonempty keyword && Py.nonempty (Py.strip keyword)
  && Py.contains (Py.lower (Py.strip keyword)) expense_name.

(** the branch taken when fuzzywuzzy could not be imported. *)
Fixpoint substring_match (categories : snapshot) (expense_name : string)
    : string * Z :=
  match categories with
  | [] => ("others", 0)
  | (category, keywords) :: rest =>
      if existsb (keyword_hit expense_name) keywords then (category, 100)
      else substring_match rest expense_name
  end.

(** [categorize_expense(expense_name)] of [app.py].  [process] is the
    module-level name: [Some scorer] when fuzzywuzzy was imported, [None]
    otherwise; [categories] is what [get_all_categories()] returns; a
    missing name ([pd.isna]) is [None]. *)
Definition categorize_expense (process : option (string -> string -> Z))
    (categories : snapshot) (expense_name : option string) : string * Z :=
  match expense_name with
  | None => ("others", 0)
  | Some name =>
      let expense_name := normalize name in
      if negb (Py.nonempty expense_name) then ("others", 0)
      else
        match process with
        | Some scorer => fuzzy_match scorer categories (words_of expense_name)
        | None => substring_match categories expense_name
        end
  end.

(** [categorize_expense] of [update_categories.py]: no cleaning, words by
    [str.split()], fuzzywuzzy always present. *)
Definition categorize_expense_script (scorer : string -> string -> Z)
    (categories : snapshot) (expense_name : option string) : string * Z :=
  match expense_name with
  | None => ("others", 0)
  | Some name =>
      if negb (Py.nonempty name) then ("others", 0)
      else
        fold_left
          (fun st word => fold_left (fuzzy_step scorer word) categories st)
          (Py.split_ws (Py.lower name)) ("others", 0)
  end.

End Categorizer.

(** ** CategoryStore: the [categories] table and its operations *)

Module Store.

(** A row is [(name, keywords)], [keywords] being the comma-joined list;
    [name] is the PRIMARY KEY.  Every function of [app.py] that touches the
    table first calls [init_db()]; the functions below are what follows
    that call, on the table as [init_db] leaves it, and [apply_op] puts the
    two together. *)
Definition table := list (string * string).

(** [INSERT OR IGNORE] *)
Definition insert_or_ignore (name keywords : string) (t : table) : table :=
  if existsb (fun row => String.eqb (fst row) name) t then t
  else t ++ [(name, keywords)].

(** the part of [init_db()] that concerns the [categories] table: an empty
    table is seeded from [default_categories], the content of
    default_categories.json (empty when the file is missing). *)
Definition init_db (default_categories : list (string * list string))
    (t : table) : table :=
  match t with
  | [] =>
      fold_left
        (fun t entry => insert_or_ignore (Py.lower (fst entry))
                          (Py.join "," (snd entry)) t)
        default_categories []
  | _ :: _ => t
  end.

(** [INSERT OR REPLACE]: the row of the same name, if any, is deleted and
    the new row is inserted. *)
Definition insert_or_replace (name keywords : string) (t : table) : table :=
  filter (fun row => negb (String.eqb (fst row) name)) t ++ [(name, keywords)].

(** [get_all_categories()]: one dictionary entry per row (names are
    distinct), [keywords.split(',') if keywords else []]. *)
Definition get_all_categories (t : table) : Categorizer.snapshot :=
  map (fun row =>
         (fst row,
          if Py.nonempty (snd row) then Py.split "," (snd row) else []))
      t.

(** [update_category(name, keywords)] *)
Definition update_category (name : string) (keywords : list string)
    (t : table) : table :=
  let keywords_str :=
    match keywords with [] => EmptyString | _ => Py.join "," keywords end in
  insert_or_replace (Py.lower name) keywords_str t.

(** [delete_category(name)] *)
Definition delete_category (name : string) (t : table) : table :=
  filter (fun row => negb (String.eqb (fst row) (Py.lower name))) t.

(** [import_categories(file_content)], on the dictionary that
    [json.loads] returns. *)
Definition import_categories (categories : list (string * list string))
    (t : table) : table :=
  fold_left
    (fun t entry => insert_or_replace (Py.lower (fst entry))
                      (Py.join "," (snd entry)) t)
    categories t.

(** [d[k] = v] on a dictionary in insertion order. *)
Fixpoint dict_set {V : Type} (k : string) (v : V) (d : list (string * V))
    : list (string * V) :=
  match d with
  | [] => [(k, v)]
  | (k', v') :: r =>
      if String.eqb k' k then (k, v) :: r else (k', v') :: dict_set k v r
  end.

(** [k in d] *)
Definition dict_mem {V : Type} (k : string) (d : list (string * V)) : bool :=
  existsb (fun e => String.eqb (fst e) k) d.

(** [[k.strip().lower() for k in keywords_str.split(',') if k.strip()]] *)
Definition parse_keywords (keywords_str : string) : list string :=
  map (fun k => Py.lower (Py.strip k))
      (filter (fun k => Py.nonempty (Py.strip k)) (Py.split "," keywords_str)).

(** the inner loop over the keywords of one category: the state is
    [keyword_map] and the list being built for [category]. *)
Definition claim_keywords (category : string) (keywords : list string)
    (keyword_map : list (string * string))
    : list (string * string) * list string :=
  fold_left
    (fun st keyword =>
       let '(keyword_map, kept) := st in
       if dict_mem keyword keyword_map then st
       else (dict_set keyword category keyword_map, kept ++ [keyword]))
    keywords (keyword_map, []).

(** the first loop of [update_categories_with_unique_keywords]:
    [(keyword_map, processed_categories)]. *)
Definition process_categories (edited_categories : list (string * string))
    : list (string * string) * list (string * list string) :=
  fold_left
    (fun st entry =>
       let '(keyword_map, processed_categories) := st in
       let '(category, keywords_str) := entry in
       let '(keyword_map, kept) :=
         claim_keywords category (parse_keywords keywords_str) keyword_map in
       (keyword_map, dict_set category kept processed_categories))
    edited_categories ([], []).

(** the second loop: every processed category is written. *)
Definition persist_categories
    (processed_categories : list (string * list string)) (t : table) : table :=
  fold_left
    (fun t entry =>
       let keywords_str :=
         match snd entry with
         | [] => EmptyString
         | _ => Py.join "," (snd entry)
         end in
       insert_or_replace (Py.lower (fst entry)) keywords_str t)
    processed_categories t.

(** [update_categories_with_unique_keywords(edited_categories)], with the
    database reachable: the pair it returns and the table after the
    commit.  Nothing in the two loops raises, so the result is always the
    success pair. *)
Definition update_categories_with_unique_keywords
    (edited_categories : list (string * string)) (t : table)
    : (bool * string) * table :=
  let processed_categories := snd (process_categories edited_categories) in
  ((true, "Categories updated successfully"),
   persist_categories processed_categories t).

(** [find_duplicate_keywords()] *)
Definition find_duplicate_keywords (t : table) : list (string * list string) :=
  let keyword_map :=
    fold_left
      (fun km entry =>
         fold_left
           (fun km keyword =>
              if Py.nonempty keyword && Py.nonempty (Py.strip keyword) then
                let keyword := Py.lower (Py.strip keyword) in
                let old :=
                  match find (fun e => String.eqb (fst e) keyword) km with
                  | Some e => snd e
                  | None => []
                  end in
                dict_set keyword (old ++ [fst entry]) km
              else km)
           (snd entry) km)
      (get_all_categories t) [] in
  filter (fun e => (1 <? List.length (snd e))%nat) keyword_map.

(** The mutation operations of the store. *)
Inductive op : Type :=
  | Upsert (name : string) (keywords : list string)
  | Delete (name : string)
  | BulkUpdate (edited_categories : list (string * string))
  | Import (categories : list (string * list string)).

Definition apply_op (default_categories : list (string * list string))
    (t : table) (o : op) : table :=
  let t := init_db default_categories t in
  match o with
  | Upsert name keywords => update_category name keywords t
  | Delete name => delete_category name t
  | BulkUpdate edited => snd (update_categories_with_unique_keywords edited t)
  | Import categories => import_categories categories t
  end.

(** the state reached from [t] by a sequence of operations. *)
Definition run (default_categories : list (string * list string))
    (ops : list op) (t : table) : table :=
  fold_left (apply_op default_categories) ops t.

(** every keyword of every category, in order. *)
Definition all_keywords (t : table) : list string :=
  List.concat (map snd (get_all_categories t)).

End Store.

(** ** The [expenses] table, the bulk import and the BulkRecategorizer *)

Module Expenses.

(** A row of the [expenses] table ([created_at] left out: no operation
    modelled here reads it). *)
Record expense : Type := mk_expense {
  id : Z;
  date : string;
  description : option string;
  amount : Q;
  category : option string;
  self_percentage : Q;
  self_amount : Q;
  wife_amount : Q;
  original_text : string;
  credit_card_bill_month : string
}.

(** The table with its AUTOINCREMENT counter ([sqlite_sequence]). *)
Record table : Type := mk_table {
  rows : list expense;
  seq : Z
}.

(** A row of the data frame handed to [save_expenses]. *)
Record frame_row : Type := mk_frame_row {
  Date : string;
  Bills : string;
  Amount : Q;
  Category : string;
  Self_Percentage : Q;
  Self_Amount : Q;
  Wife_Amount : Q;
  Text : string;
  Credit_Card_Bill_Month : string
}.

(** The date libraries [parse_date] calls: [strptime s fmt] is
    [datetime.strptime(s, fmt).strftime('%Y-%m-%d')], [None] for a
    [ValueError]; [to_datetime s] is
    [pd.to_datetime(s).strftime('%Y-%m-%d')], [None] when it raises. *)
Record date_library : Type := mk_date_library {
  strptime : string -> string -> option string;
  to_datetime : string -> option string
}.

Definition date_formats : list string := ["%d %b %Y"; "%d%b%Y"; "%Y-%m-%d"].

Fixpoint try_formats (lib : date_library) (s : string) (fmts : list string)
    : option string :=
  match fmts with
  | [] => None
  | fmt :: rest =>
      match strptime lib s fmt with
      | Some d => Some d
      | None => try_formats lib s rest
      end
  end.

(** [parse_date(date_str)] *)
Definition parse_date (lib : date_library) (date_str : string) : option string :=
  match try_formats lib (Py.strip date_str) date_formats with
  | Some d => Some d
  | None => to_datetime lib date_str
  end.

(** the first loop of [save_expenses]: [None] at the first date that does
    not parse. *)
Fixpoint parse_dates (lib : date_library) (date_strs : list string)
    : option (list string) :=
  match date_strs with
  | [] => Some []
  | date_str :: rest =>
      match parse_date lib date_str with
      | None => None
      | Some parsed_date =>
          match parse_dates lib rest with
          | None => None
          | Some dates => Some (parsed_date :: dates)
          end
      end
  end.

Definition max_id (l : list expense) : Z := fold_left Z.max (map id l) 0.

(** one [INSERT INTO expenses]. *)
Definition insert_expense (bill_month : string) (t : table)
    (entry : string * frame_row) : table :=
  let '(parsed_date, row) := entry in
  let new_id := Z.max (seq t) (max_id (rows t)) + 1 in
  mk_table
    (rows t ++
     [mk_expense new_id parsed_date (Some (Bills row)) (Amount row)
        (Some (Category row)) (Self_Percentage row) (Self_Amount row)
        (Wife_Amount row) (Text row) bill_month])
    new_id.

(** [save_expenses(df)], with the database reachable: the result and the
    table after the call.  An empty frame fails at [.iloc[0]]. *)
Definition save_expenses (lib : date_library) (df : list frame_row)
    (t : table) : bool * table :=
  match parse_dates lib (map Date df) with
  | None => (false, t)
  | Some dates =>
      match df with
      | [] => (false, t)
      | first :: _ =>
          let bill_month := Credit_Card_Bill_Month first in
          (true, fold_left (insert_expense bill_month) (combine dates df) t)
      end
  end.

(** the dictionary both recategorisers return. *)
Record report : Type := mk_report {
  total_processed : Z;
  total_updated : Z;
  updated_expenses : list (Z * string * string)
}.

Definition set_category (new_category : string) (e : expense) : expense :=
  mk_expense (id e) (date e) (description e) (amount e) (Some new_category)
    (self_percentage e) (self_amount e) (wife_amount e) (original_text e)
    (credit_card_bill_month e).

(** [UPDATE expenses SET category = ? WHERE id = ?]: the rows after the
    statement and [cursor.rowcount]. *)
Definition update_where_id (new_category : string) (expense_id : Z)
    (l : list expense) : list expense * Z :=
  (map (fun e => if id e =? expense_id then set_category new_category e else e) l,
   Z.of_nat (List.length (filter (fun e => id e =? expense_id) l))).

(** [new_category != current_category] *)
Definition differs (new_category : string) (current_category : option string)
    : bool :=
  match current_category with
  | Some c => negb (String.eqb new_category c)
  | None => true
  end.

(** the truth value of a description: neither [None] nor empty. *)
Definition truthy (description : option string) : bool :=
  match description with
  | Some d => Py.nonempty d
  | None => false
  end.

(** the body of the loop of [update_existing_expenses_categories]; the
    state is the rows, [total_updates] and [updated_expenses]. *)
Definition recategorize_step (process : option (string -> string -> Z))
    (categories : Categorizer.snapshot)
    (st : list expense * Z * list (Z * string * string))
    (fetched : Z * option string * option string)
    : list expense * Z * list (Z * string * string) :=
  let '(l, total_updates, updated) := st in
  let '(expense_id, description, current_category) := fetched in
  match description with
  | Some d =>
      if Py.nonempty d then
        let '(new_category, confidence) :=
          Categorizer.categorize_expense process categories (Some d) in
        if differs new_category current_category then
          let '(l', rowcount) := update_where_id new_category expense_id l in
          if rowcount >? 0
          then (l', total_updates + 1, updated ++ [(expense_id, d, new_category)])
          else (l', total_updates, updated)
        else st
      else st
  | None => st
  end.

(** [update_existing_expenses_categories()] of [app.py], on a reachable
    database: the table after the commit and the report. *)
Definition update_existing_expenses_categories
    (process : option (string -> string -> Z))
    (categories : Categorizer.snapshot) (t : table) : table * report :=
  let expenses := map (fun e => (id e, description e, category e)) (rows t) in
  let '(l, total_updates, updated) :=
    fold_left (recategorize_step process categories) expenses (rows t, 0, []) in
  (mk_table l (seq t),
   mk_report (Z.of_nat (List.length expenses)) total_updates updated).

(** [UPDATE expenses SET category = ? WHERE id = ? AND category != ?]; a
    NULL category never satisfies [!=]. *)
Definition update_where_id_differs (new_category : string) (expense_id : Z)
    (l : list expense) : list expense * Z :=
  let hit e :=
    (id e =? expense_id)
    && match category e with
       | Some c => negb (String.eqb c new_category)
       | None => false
       end in
  (map (fun e => if hit e then set_category new_category e else e) l,
   Z.of_nat (List.length (filter hit l))).

Definition script_step (scorer : string -> string -> Z)
    (categories : Categorizer.snapshot)
    (st : list expense * Z * list (Z * string * string))
    (fetched : Z * option string)
    : list expense * Z * list (Z * string * string) :=
  let '(l, total_updates, updated) := st in
  let '(expense_id, description) := fetched in
  match description with
  | Some d =>
      if Py.nonempty d then
        let '(new_category, confidence) :=
          Categorizer.categorize_expense_script scorer categories (Some d) in
        let '(l', rowcount) := update_where_id_differs new_category expense_id l in
        if rowcount >? 0
        then (l', total_updates + 1, updated ++ [(expense_id, d, new_category)])
        else (l', total_updates, updated)
      else st
  | None => st
  end.

(** [update_existing_expenses()] of [update_categories.py]. *)
Definition update_existing_expenses (scorer : string -> string -> Z)
    (categories : Categorizer.snapshot) (t : table) : table * report :=
  let expenses := map (fun e => (id e, description e)) (rows t) in
  let '(l, total_updates, updated) :=
    fold_left (script_step scorer categories) expenses (rows t, 0, []) in
  (mk_table l (seq t),
   mk_report (Z.of_nat (List.length expenses)) total_updates updated).

End Expenses.

(** ** Vocabulary of the statements *)

Import Amount Categorizer.

Fixpoint all_digits (s : string) : bool :=
  match s with
  | EmptyString => true
  | String c r => Py.isdigit c && all_digits r
  end.

Definition starts_with_digit (s : string) : bool :=
  match s with
  | EmptyString => false
  | String c _ => Py.isdigit c
  end.

(** The capture the extractor takes from [ds.fs]: the integer part, with
    the first two fraction digits when the fraction has at least two. *)
Definition captured_decimal (ds fs : string) : string :=
  match fs with
  | String d1 (String d2 _) =>
      (ds ++ String "." (String d1 (String d2 EmptyString)))%string
  | _ => ds
  end.

(** the value of that capture: the double nearest to the decimal it
    denotes. *)
Definition decimal_value (ds fs : string) : float :=
  match fs with
  | String d1 (String d2 _) =>
      Py.nearest_double
        (Py.int_of_digits 0 ds * 100
         + (10 * Py.digit_value d1 + Py.digit_value d2)) 100
  | _ => Py.nearest_double (Py.int_of_digits 0 ds) 1
  end.

(** the pattern matches at no position of [pre], [tail] being the text
    that follows [pre]: a match that starts [tail] is the first one. *)
Fixpoint no_match_before (pre tail : string) : bool :=
  match pre with
  | EmptyString => true
  | String _ r =>
      match match_amount_at (pre ++ tail)%string with
      | Some _ => false
      | None => no_match_before r tail
      end
  end.

(** *** The table of splits *)

(** [f] holds of the [n + 1] integers from [k] on. *)
Fixpoint forall_upto (n : nat) (k : int) (f : int -> bool) : bool :=
  f k && match n with
         | O => true
         | S n' => forall_upto n' (k + 1)%uint63 f
         end.

(** For the amount of [A] cents at [p] percent: the two shares are the
    doubles of two whole numbers of cents that add up to [A], and their
    float sum rounds to the amount. *)
Definition split_ok (A p : int) : bool :=
  let amount := (of_uint63 A / 100)%float in
  let self_percentage := (of_uint63 p / 1)%float in
  let cs := Py.hundredths (amount * (self_percentage / 100))%float in
  let self_amount := fst (Split.calculate_split_amounts amount self_percentage) in
  let wife_amount := snd (Split.calculate_split_amounts amount self_percentage) in
  let cw := Py.hundredths (amount - self_amount)%float in
  (cs + cw =? A)%uint63 && (cs <=? A)%uint63 && (cw <=? A)%uint63
  && PrimFloat.Leibniz.eqb self_amount (of_uint63 cs / 100)%float
  && PrimFloat.Leibniz.eqb wife_amount (of_uint63 cw / 100)%float
  && PrimFloat.Leibniz.eqb (Py.round2 (self_amount + wife_amount)%float) amount.

(** every amount [100 * B + r] cents, for [B] up to 200 and [r] up to 99
    (0.00 to 200.99), at every whole percentage from 0 to 100. *)
Definition split_table_ok : bool :=
  forall_upto (Z.to_nat 200) 0
    (fun B =>
       forall_upto (Z.to_nat 99) 0
         (fun r =>
            forall_upto (Z.to_nat 100) 0
              (fun p => split_ok (B * 100 + r)%uint63 p))).

(** every character of [s] satisfies [p]. *)
Fixpoint all_chars (p : ascii -> bool) (s : string) : bool :=
  match s with
  | EmptyString => true
  | String c r => p c && all_chars p r
  end.

(** a lower-case letter or a digit. *)
Definition alnum_lower (c : ascii) : bool := Py.islower_az c || Py.isdigit c.

(** The tokens of a description, said without the cleaning steps of the
    code: the maximal runs of lower-case letters and digits of the
    lower-cased description, in order.  [runs sep cur s] cuts [s] at the
    characters of [sep], [cur] being the piece under construction. *)
Definition emit (cur : string) : list string :=
  if Py.nonempty cur then [cur] else [].

Fixpoint runs (sep : ascii -> bool) (cur : string) (s : string)
    : list string :=
  match s with
  | EmptyString => emit cur
  | String c r =>
      if sep c then emit cur ++ runs sep EmptyString r
      else runs sep (cur ++ String c EmptyString)%string r
  end.

Definition description_tokens (name : string) : list string :=
  runs (fun c => negb (alnum_lower c)) EmptyString (Py.lower name).

(** the first [n] characters of [s] are there and satisfy [p]. *)
Fixpoint prefix_all (p : ascii -> bool) (n : nat) (s : string) : bool :=
  match n, s with
  | O, _ => true
  | S k, String c r => p c && prefix_all p k r
  | S _, EmptyString => false
  end.

(** The similarity scores the fuzzy branch looks at, each with the category
    of its keyword, in iteration order: token, then category, then
    keyword.  A category without keywords contributes nothing. *)
Definition scored_keywords (scorer : string -> string -> Z) (word : string)
    (entry : string * list string) : list (string * Z) :=
  map (fun keyword => (fst entry, scorer word keyword)) (snd entry).

Definition scored_word (scorer : string -> string -> Z)
    (categories : snapshot) (word : string) : list (string * Z) :=
  flat_map (scored_keywords scorer word) categories.

Definition scored (scorer : string -> string -> Z) (categories : snapshot)
    (words : list string) : list (string * Z) :=
  flat_map (scored_word scorer categories) words.

(** [st] is the answer for the scores [seen]: the fallback when none is
    above 75, otherwise the first of the highest scores, above 75. *)
Definition best_so_far (st : string * Z) (seen : list (string * Z)) : Prop :=
  (st = ("others", 0) /\ Forall (fun p => snd p <= 75) seen)
  \/ (75 < snd st
      /\ exists before after,
           seen = before ++ st :: after
           /\ Forall (fun p => snd p < snd st) before
           /\ Forall (fun p => snd p <= snd st) after).

Import Expenses.

(** the category the Categorizer of [app.py] gives to the description of a
    row. *)
Definition new_category (process : option (string -> string -> Z))
    (categories : snapshot) (e : expense) : string :=
  fst (categorize_expense process categories (description e)).

(** the row has a non-empty description and its recomputed category
    differs from the stored one. *)
Definition needs_update (process : option (string -> string -> Z))
    (categories : snapshot) (e : expense) : bool :=
  truthy (description e)
  && differs (new_category process categories e) (category e).

Definition recategorized (process : option (string -> string -> Z))
    (categories : snapshot) (e : expense) : expense :=
  if needs_update process categories e
  then set_category (new_category process categories e) e else e.

Definition description_text (e : expense) : string :=
  match description e with Some d => d | None => EmptyString end.

Definition log_entry (process : option (string -> string -> Z))
    (categories : snapshot) (e : expense) : Z * string * string :=
  (id e, description_text e, new_category process categories e).

(** every column but [category] is the same in both rows. *)
Definition same_but_category (e e' : expense) : Prop :=
  id e' = id e /\ date e' = date e /\ description e' = description e
  /\ amount e' = amount e /\ self_percentage e' = self_percentage e
  /\ self_amount e' = self_amount e /\ wife_amount e' = wife_amount e
  /\ original_text e' = original_text e
  /\ credit_card_bill_month e' = credit_card_bill_month e.

(** the same notions for [update_categories.py]. *)
Definition new_category_script (scorer : string -> string -> Z)
    (categories : snapshot) (e : expense) : string :=
  fst (categorize_expense_script scorer categories (description e)).

Definition needs_update_script (scorer : string -> string -> Z)
    (categories : snapshot) (e : expense) : bool :=
  truthy (description e)
  && match category e with
     | Some c => negb (String.eqb c (new_category_script scorer categories e))
     | None => false
     end.

Definition recategorized_script (scorer : string -> string -> Z)
    (categories : snapshot) (e : expense) : expense :=
  if needs_update_script scorer categories e
  then set_category (new_category_script scorer categories e) e else e.

Definition log_entry_script (scorer : string -> string -> Z)
    (categories : snapshot) (e : expense) : Z * string * string :=
  (id e, description_text e, new_category_script scorer categories e).

Import Store.

Fixpoint no_comma (k : string) : bool :=
  match k with
  | EmptyString => true
  | String c r => negb (Ascii.eqb c ",") && no_comma r
  end.

(** a keyword as the bulk update stores it: not empty, trimmed, in lower
    case, and without a comma. *)
Definition clean_keyword (k : string) : Prop :=
  Py.nonempty k = true /\ Py.strip k = k /\ Py.lower k = k
  /\ no_comma k = true.

(** First claim wins, in the words of the specification: a token already
    claimed is dropped, any other token is claimed for the current
    category. *)
Fixpoint first_claim (claimed : list string) (tokens : list string)
    : list string :=
  match tokens with
  | [] => []
  | k :: r =>
      if existsb (String.eqb k) claimed then first_claim claimed r
      else k :: first_claim (k :: claimed) r
  end.

Fixpoint first_claims (claimed : list string)
    (edited_categories : list (string * string)) : list (string * list string) :=
  match edited_categories with
  | [] => []
  | (category, keywords_str) :: rest =>
      let kept := first_claim claimed (parse_keywords keywords_str) in
      (category, kept) :: first_claims (kept ++ claimed) rest
  end.

(** the name under which an entry of a batch is stored. *)
Definition stored_name {V : Type} (entry : string * V) : string :=
  Py.lower (fst entry).

(** the row written for a processed category. *)
Definition stored_row (entry : string * list string) : string * string :=
  (stored_name entry,
   match snd entry with [] => EmptyString | _ => Py.join "," (snd entry) end).

(** the entries of a batch that are still stored after all its writes: an
    entry is overwritten by a later entry of the same stored name. *)
Fixpoint last_wins (batch : list (string * list string))
    : list (string * list string) :=
  match batch with
  | [] => []
  | entry :: rest =>
      if existsb (String.eqb (stored_name entry)) (map stored_name rest)
      then last_wins rest else entry :: last_wins rest
  end.

(** the rows of [t] that a batch does not name. *)
Definition untouched {V : Type} (batch : list (string * V))
    (t : Store.table) : Store.table :=
  filter (fun row => negb (existsb (String.eqb (fst row)) (map stored_name batch))) t.

(** An operation that keeps keywords unique: a delete, or a bulk update
    whose batch (a dictionary: distinct keys) names every category of the
    initialised store. *)
Inductive checked_op (default_categories : list (string * list string))
    (t : Store.table) : op -> Prop :=
  | checked_delete (name : string) :
      checked_op default_categories t (Delete name)
  | checked_bulk (edited_categories : list (string * string)) :
      NoDup (map fst edited_categories) ->
      (forall row, In row (init_db default_categories t) ->
                   In (fst row) (map stored_name edited_categories)) ->
      checked_op default_categories t (BulkUpdate edited_categories).

Inductive checked_run (default_categories : list (string * list string))
    : Store.table -> list op -> Prop :=
  | checked_nil (t : Store.table) : checked_run default_categories t []
  | checked_cons (t : Store.table) (o : op) (ops : list op) :
      checked_op default_categories t o ->
      checked_run default_categories (apply_op default_categories t o) ops ->
      checked_run default_categories t (o :: ops).

(** ** Sample data *)

Import Expenses.

(** a date library that knows ISO dates of January 2024 only. *)
Definition iso_only : date_library :=
  mk_date_library
    (fun s fmt =>
       if String.eqb fmt "%Y-%m-%d" && prefix "2024-01-" s then Some s
       else None)
    (fun _ => None).

Definition sample_row (d : string) : frame_row :=
  mk_frame_row d "GRAB RIDE" 12.50 "transport" 50 6.25 6.25 "S$12.50"
    "2024-02-01".


(** a similarity function for the examples: 100 on equal strings, 0
    otherwise. *)
Definition exact_scorer (query choice : string) : Z :=
  if String.eqb query choice then 100 else 0.

Definition sample_categories : snapshot :=
  [("food", ["restaurant"; "cafe"]); ("transport", ["taxi"; "grab"])].

Definition sample_expense (i : Z) (d : string) (c : option string) : expense :=
  mk_expense i "2024-01-05" (Some d) 12.50 c 50 6.25 6.25 "S$12.50" "2024-02-01".

Definition sample_edit : list (string * string) :=
  [("food", "Coffee, tea ,,cafe"); ("drinks", "tea,milk, COFFEE,milk")].

Definition sample_full_edit : list (string * string) :=
  [("food", "Coffee, tea ,,cafe"); ("transport", "tea,taxi, COFFEE,taxi")].

(** ** More of the code *)

(** [x] is a number (not a NaN) whose sign bit is [s]. *)
Definition signed (s : bool) (x : spec_float) : bool :=
  match x with
  | S754_zero b | S754_infinity b | S754_finite b _ _ => Bool.eqb b s
  | S754_nan => false
  end.

(** no keyword of the category is found in the name (substring mode). *)
Definition no_hit (expense_name : string) (entry : string * list string) : Prop :=
  forall keyword, In keyword (snd entry) ->
                  keyword_hit expense_name keyword = false.

(** The store as SQLite keeps it and as the code writes it: names are
    distinct (PRIMARY KEY) and in lower case. *)
Definition store_wf (t : Store.table) : Prop :=
  NoDup (map fst t) /\ Forall (fun row => Py.lower (fst row) = fst row) t.

(** [export_categories()]: the dictionary dumped to
    default_categories.json. *)
Definition export_categories (t : Store.table) : snapshot :=
  get_all_categories t.

(** the pairs (keyword, category) that [find_duplicate_keywords] counts, in
    iteration order: empty keywords are skipped, the others are stripped
    and put in lower case. *)
Definition keyword_occurrences (t : Store.table) : list (string * string) :=
  flat_map
    (fun entry =>
       map (fun keyword => (Py.lower (Py.strip keyword), fst entry))
           (filter (fun keyword =>
                      Py.nonempty keyword && Py.nonempty (Py.strip keyword))
                   (snd entry)))
    (get_all_categories t).

(** the categories in which [keyword] occurs, once per occurrence. *)
Definition categories_of (keyword : string) (occurrences : list (string * string))
    : list string :=
  map snd (filter (fun o => String.eqb (fst o) keyword) occurrences).

(** [keyword_map[keyword].append(category)], the list created when the
    keyword is new. *)
Definition count_occurrence (keyword_map : list (string * list string))
    (occurrence : string * string) : list (string * list string) :=
  let old :=
    match find (fun e => String.eqb (fst e) (fst occurrence)) keyword_map with
    | Some e => snd e
    | None => []
    end in
  dict_set (fst occurrence) (old ++ [snd occurrence]) keyword_map.

(** the map under construction lists, for each keyword seen, the
    categories of its occurrences. *)
Definition counted (km : list (string * list string))
    (seen : list (string * string)) : Prop :=
  NoDup (map fst km)
  /\ forall k,
       match find (fun e => String.eqb (fst e) k) km with
       | Some e => snd e = categories_of k seen /\ categories_of k seen <> []
       | None => categories_of k seen = []
       end.


(** [add_expense(...)]: one [INSERT INTO expenses], the id taken from the
    AUTOINCREMENT counter. *)
Definition add_expense (date : string) (description : option string)
    (amount : Q) (category : option string)
    (self_percentage self_amount wife_amount : Q) (text bill_month : string)
    (t : Expenses.table) : bool * Expenses.table :=
  let new_id := Z.max (seq t) (max_id (rows t)) + 1 in
  (true,
   mk_table
     (rows t ++
      [mk_expense new_id date description amount category self_percentage
         self_amount wife_amount text bill_month])
     new_id).

(** [delete_expense(expense_id)]: [DELETE FROM expenses WHERE id = ?]; the
    counter stays. *)
Definition delete_expense (expense_id : Z) (t : Expenses.table)
    : bool * Expenses.table :=
  (true,
   mk_table (filter (fun e => negb (id e =? expense_id)) (rows t)) (seq t)).

(** The calls that write to the [expenses] table without touching the
    split columns. *)
Inductive expense_op : Type :=
  | SaveExpenses (df : list frame_row)
  | AddExpense (date : string) (description : option string) (amount : Q)
      (category : option string) (self_percentage self_amount wife_amount : Q)
      (text bill_month : string)
  | DeleteExpense (expense_id : Z)
  | Recategorize (process : option (string -> string -> Z))
      (categories : snapshot)
  | RecategorizeScript (scorer : string -> string -> Z)
      (categories : snapshot).

Definition apply_expense_op (lib : date_library) (t : Expenses.table)
    (o : expense_op) : Expenses.table :=
  match o with
  | SaveExpenses df => snd (save_expenses lib df t)
  | AddExpense date description amount category self_percentage self_amount
      wife_amount text bill_month =>
      snd (add_expense date description amount category self_percentage
             self_amount wife_amount text bill_month t)
  | DeleteExpense expense_id => snd (delete_expense expense_id t)
  | Recategorize process categories =>
      fst (update_existing_expenses_categories process categories t)
  | RecategorizeScript scorer categories =>
      fst (update_existing_expenses scorer categories t)
  end.

Definition run_expense_ops (lib : date_library) (ops : list expense_op)
    (t : Expenses.table) : Expenses.table :=
  fold_left (apply_expense_op lib) ops t.

(** ids are distinct and none is above the AUTOINCREMENT counter. *)
Definition ids_wf (t : Expenses.table) : Prop :=
  NoDup (map id (rows t)) /\ Forall (fun e => id e <= seq t) (rows t).

(** [t'] comes after [t]: the counter did not go back, and a row of [t']
    has the id of a row of [t] or an id above the counter of [t]. *)
Definition ids_extend (t t' : Expenses.table) : Prop :=
  seq t <= seq t'
  /\ forall e, In e (rows t') -> In (id e) (map id (rows t)) \/ seq t < id e.

(** the row written for a frame row [r]: the parsed date, the columns of
    [r], and the bill month of the call. *)
Definition written_as (lib : date_library) (bill_month : string)
    (r : frame_row) (e : expense) : Prop :=
  parse_date lib (Date r) = Some (date e)
  /\ description e = Some (Bills r)
  /\ amount e = Amount r
  /\ category e = Some (Category r)
  /\ self_percentage e = Self_Percentage r
  /\ self_amount e = Self_Amount r
  /\ wife_amount e = Wife_Amount r
  /\ original_text e = Text r
  /\ credit_card_bill_month e = bill_month.

(** the INSERT loop of [sync_categories_from_json]: [None] when an INSERT
    meets a name already in the table ([name] is the PRIMARY KEY). *)
Fixpoint sync_insert (categories : list (string * list string))
    (t : Store.table) : option Store.table :=
  match categories with
  | [] => Some t
  | (category, keywords) :: rest =>
      if existsb (fun row => String.eqb (fst row) (Py.lower category)) t
      then None
      else sync_insert rest (t ++ [(Py.lower category, Py.join "," keywords)])
  end.

(** [sync_categories_from_json()] of [update_categories.py], on the content
    of the JSON file: the table is emptied and filled inside one
    transaction, which is committed only when every INSERT went through. *)
Definition sync_categories_from_json (categories : list (string * list string))
    (t : Store.table) : bool * Store.table :=
  match sync_insert categories [] with
  | Some t' => (true, t')
  | None => (false, t)
  end.

(** the entries of a dictionary that [INSERT OR IGNORE] writes: an entry is
    ignored when an earlier one has the same stored name. *)
Fixpoint first_wins (seen : list string) (batch : list (string * list string))
    : list (string * list string) :=
  match batch with
  | [] => []
  | entry :: rest =>
      if existsb (String.eqb (stored_name entry)) seen
      then first_wins seen rest
      else entry :: first_wins (seen ++ [stored_name entry]) rest
  end.

(** * Proofs *)
(** a list of distinct literals has no duplicate. *)
Ltac distinct_literals :=
  cbn; repeat constructor; cbn; intuition discriminate.

(** ** Facts about the string primitives *)

Lemma append_assoc (a b c : string) : ((a ++ b) ++ c = a ++ (b ++ c))%string.
Proof. induction a as [|x a IH]; simpl; [reflexivity | now rewrite IH]. Qed.

Lemma append_empty_r (a : string) : (a ++ EmptyString = a)%string.
Proof. induction a as [|x a IH]; simpl; [reflexivity | now rewrite IH]. Qed.

Lemma span_digits_stop (s : string) :
  starts_with_digit s = false -> Py.span_digits s = (EmptyString, s).
Proof.
  destruct s as [|c r]; simpl; [reflexivity|].
  intros ->. reflexivity.
Qed.

Lemma span_digits_app (ds r : string) :
  all_digits ds = true ->
  Py.span_digits (ds ++ r) =
  (ds ++ fst (Py.span_digits r), snd (Py.span_digits r))%string.
Proof.
  induction ds as [|c ds IH]; simpl.
  - intros _. now destruct (Py.span_digits r).
  - intros H. apply andb_prop in H as [Hc Hds].
    rewrite Hc, (IH Hds). reflexivity.
Qed.

Lemma span_digits_exact (ds r : string) :
  all_digits ds = true -> starts_with_digit r = false ->
  Py.span_digits (ds ++ r) = (ds, r).
Proof.
  intros Hds Hr. rewrite (span_digits_app _ _ Hds), (span_digits_stop _ Hr).
  simpl. f_equal. induction ds as [|c ds IH]; simpl; [reflexivity|].
  simpl in Hds. apply andb_prop in Hds as [_ Hds]. now rewrite (IH Hds).
Qed.

Lemma contains_dollar_cons (c : ascii) (r : string) :
  Py.contains "$" (String c r) = false ->
  Ascii.eqb c "$" = false /\ Py.contains "$" r = false.
Proof.
  simpl. intros H. apply orb_false_elim in H as [Hp Hr]. split; [|exact Hr].
  destruct (Ascii.eqb_spec c "$") as [->|Hne]; [|reflexivity].
  simpl in Hp. destruct r; discriminate Hp.
Qed.

(** the search skips a prefix in which the pattern matches nowhere. *)
Lemma re_search_amount_skip (pre tail : string) :
  no_match_before pre tail = true ->
  re_search_amount (pre ++ tail) = re_search_amount tail.
Proof.
  induction pre as [|c pre IH]; intros H; [reflexivity|].
  cbn [no_match_before] in H.
  change (String c pre ++ tail)%string with (String c (pre ++ tail)) in *.
  cbn [re_search_amount].
  destruct (match_amount_at (String c (pre ++ tail))); [discriminate H|].
  exact (IH H).
Qed.

Lemma match_amount_at_fraction (m : ascii) (ds fs rest : string) :
  (Ascii.eqb m "S" || Ascii.eqb m "s") = true ->
  Py.nonempty ds = true -> all_digits ds = true -> all_digits fs = true ->
  starts_with_digit rest = false ->
  String.length fs <> 2%nat ->
  match_amount_at (String m (String "$" (ds ++ String "." (fs ++ rest))))
  = Some (captured_decimal ds fs).
Proof.
  intros Hm Hne Hds Hfs Hrest Hlen.
  unfold match_amount_at. rewrite Hm. cbn [Ascii.eqb Bool.eqb andb].
  rewrite span_digits_exact by (assumption || reflexivity). rewrite Hne.
  destruct fs as [|d1 [|d2 fs']].
  - simpl. destruct rest as [|r1 [|r2 rest']]; try reflexivity.
    simpl in Hrest. now rewrite Hrest.
  - simpl. destruct rest as [|r1 rest']; [reflexivity|].
    simpl in Hrest. now rewrite Hrest, andb_false_r.
  - simpl in Hfs. apply andb_prop in Hfs as [H1 Hfs].
    apply andb_prop in Hfs as [H2 _].
    simpl. now rewrite H1, H2.
Qed.

Lemma float_of_captured (ds fs : string) :
  all_digits ds = true ->
  Py.float_of_decimal (captured_decimal ds fs) = decimal_value ds fs.
Proof.
  intros Hds. unfold captured_decimal, decimal_value, Py.float_of_decimal.
  destruct fs as [|d1 [|d2 fs']].
  - rewrite <- (append_empty_r ds) at 1.
    now rewrite span_digits_exact by (assumption || reflexivity).
  - rewrite <- (append_empty_r ds) at 1.
    now rewrite span_digits_exact by (assumption || reflexivity).
  - rewrite span_digits_exact by (assumption || reflexivity). reflexivity.
Qed.

(** ** Claims about the AmountExtractor *)

(** C4. The extractor returns the literal results of the specification:
    "S$25.90" gives 25.90, "s$25.90" gives 25.90, "S$25.90 cr" gives -25.90,
    "S$25.90CR" gives -25.90, "S$100" gives 100.00,
    "MSIA CUISINE PTE LTD N/A SG" gives 0.00 and "Credit S$75.50 cr" gives
    -75.50, each the double that the literal denotes. *)
Theorem extract_amount_literal_cases :
  extract_amount (Some "S$25.90") = 25.90%float
  /\ extract_amount (Some "s$25.90") = 25.90%float
  /\ extract_amount (Some "S$25.90 cr") = (-25.90)%float
  /\ extract_amount (Some "S$25.90CR") = (-25.90)%float
  /\ extract_amount (Some "S$100") = 100.00%float
  /\ extract_amount (Some "MSIA CUISINE PTE LTD N/A SG") = 0.00%float
  /\ extract_amount (Some "Credit S$75.50 cr") = (-75.50)%float.
Proof. repeat split; vm_compute; reflexivity. Qed.

(** the remaining rows of [test_amount_extraction]. *)
Example extract_amount_test_table :
  extract_amount (Some "s$25.90 cr") = (-25.90)%float
  /\ extract_amount (Some "MSIG SINGAPORE WWW.MSIG.COM. SG") = 0%float
  /\ extract_amount (Some "ZERO1 PTE LTD SINGAPORE SG") = 0%float
  /\ extract_amount (Some "POKKA PTE LTD SINGAPORE SG") = 0%float
  /\ extract_amount (Some "s$100") = 100%float
  /\ extract_amount (Some "Payment received S$50.00") = 50%float
  /\ extract_amount (Some "Transaction s$30.00") = 30%float
  /\ extract_amount None = 0%float.
Proof. repeat split; vm_compute; reflexivity. Qed.

(** a capture too long for a double is rounded, or overflows. *)
Example extract_amount_beyond_doubles :
  extract_amount (Some "S$9007199254740993") = 9007199254740992%float
  /\ extract_amount
       (Some "S$1000000000000000000000000000000000000000000000000000000000000000000000000000000000000000000000000000000000000000000000000000000000000000000000000000000000000000000000000000000000000000000000000000000000000000000000000000000000000000000000000000000000000000000000000000000000000000000000000000000000000000000000000000000000000")
     = infinity.
Proof. split; vm_compute; reflexivity. Qed.

(** C10, as stated, fails: "S$25.9 N/A" holds the currency marker, digits
    and a one-digit fraction, the pattern captures "25" in it, and yet the
    extractor returns 0.00, because the text contains "n/a"; and in
    "S$25.9 cr" the value returned is -25.00. *)
Lemma extract_amount_fraction_behind_guard :
  re_search_amount (Py.strip "S$25.9 N/A") = Some "25"
  /\ extract_amount (Some "S$25.9 N/A") = 0.00%float
  /\ (extract_amount (Some "S$25.9 N/A") =? 25.00)%float = false
  /\ extract_amount (Some "S$25.9 cr") = (-25.00)%float.
Proof. repeat split; vm_compute; reflexivity. Qed.

(** C10 (amended). When the first place of the stripped text where the
    pattern matches (no position of what comes before matches) is the
    currency marker followed by a digit run [ds], a dot and a fraction [fs]
    of digits whose length is not two, the pattern captures [ds] alone
    (fraction of fewer than two digits) or [ds] with the first two digits
    of [fs] (three or more), the other fraction digits being dropped; the
    extractor returns 0.00 when the text contains "n/a", and otherwise the
    double nearest to that capture, negated when the text contains "cr":
    neither a failure nor the 0.00 of an unmatched text. *)
Theorem extract_amount_truncates_fraction
  (t pre : string) (m : ascii) (ds fs rest : string) :
  Py.strip t = (pre ++ String m (String "$" (ds ++ String "." (fs ++ rest))))%string ->
  m = "S"%char \/ m = "s"%char ->
  no_match_before pre (String m (String "$" (ds ++ String "." (fs ++ rest))))
  = true ->
  Py.nonempty ds = true -> all_digits ds = true -> all_digits fs = true ->
  starts_with_digit rest = false ->
  String.length fs <> 2%nat ->
  re_search_amount (Py.strip t) = Some (captured_decimal ds fs)
  /\ extract_amount (Some t) =
     if Py.contains "n/a" (Py.lower (Py.strip t)) then 0%float
     else if Py.contains "cr" (Py.lower (Py.strip t))
          then (- decimal_value ds fs)%float else decimal_value ds fs.
Proof.
  intros Ht Hm Hpre Hne Hds Hfs Hrest Hlen.
  assert (Hm' : (Ascii.eqb m "S" || Ascii.eqb m "s") = true)
    by (destruct Hm as [-> | ->]; reflexivity).
  assert (Hs : re_search_amount (Py.strip t) = Some (captured_decimal ds fs)).
  { rewrite Ht, (re_search_amount_skip _ _ Hpre).
    cbn [re_search_amount].
    now rewrite (match_amount_at_fraction m ds fs rest Hm' Hne Hds Hfs Hrest Hlen). }
  split; [exact Hs|].
  unfold extract_amount. rewrite Hs, (float_of_captured _ _ Hds).
  assert (Hnon : Py.nonempty (Py.lower (Py.strip t)) = true).
  { rewrite Ht. destruct pre; reflexivity. }
  rewrite Hnon. cbn [negb orb]. reflexivity.
Qed.

Lemma extract_amount_truncates_fraction_witness :
  extract_amount (Some "Refund US$ S$25.9 cr") = (-25)%float.
Proof.
  refine (proj2 (extract_amount_truncates_fraction
            "Refund US$ S$25.9 cr" "Refund US$ " "S" "25" "9" " cr"
            eq_refl (or_introl eq_refl) eq_refl eq_refl eq_refl eq_refl eq_refl
            _)).
  simpl; lia.
Defined.

(** the two examples of the claim, which pass the guard. *)
Example extract_amount_one_fraction_digit :
  extract_amount (Some "S$25.9") = 25.00%float.
Proof. vm_compute; reflexivity. Qed.

Example extract_amount_three_fraction_digits :
  extract_amount (Some "S$25.999") = 25.99%float.
Proof. vm_compute; reflexivity. Qed.

(** ** The SplitCalculator *)

Lemma forall_upto_spec (f : int -> bool) (n : nat) : forall k,
  forall_upto n k f = true ->
  Uint63.to_Z k + Z.of_nat n < Uint63.wB ->
  forall j, Uint63.to_Z k <= Uint63.to_Z j <= Uint63.to_Z k + Z.of_nat n ->
            f j = true.
Proof.
  induction n as [|n IH]; intros k H Hb j Hj; cbn [forall_upto] in H;
    apply andb_prop in H as [Hk H].
  - assert (j = k) by (apply Uint63.to_Z_inj; lia). now subst j.
  - destruct (Z.eq_dec (Uint63.to_Z j) (Uint63.to_Z k)) as [E|E].
    + apply Uint63.to_Z_inj in E. now subst j.
    + pose proof (Uint63.to_Z_bounded k) as Hk0.
      assert (Hs : Uint63.to_Z (k + 1)%uint63 = Uint63.to_Z k + 1).
      { rewrite Uint63.add_spec, Uint63.to_Z_1. apply Z.mod_small. lia. }
      apply (IH (k + 1)%uint63 H); lia.
Qed.

Lemma split_table : split_table_ok = true.
Proof. vm_compute. reflexivity. Qed.

(** the double of a whole number of cents, as [float()] and [round()] make
    it, is the IEEE quotient by 100. *)
Lemma nearest_double_cents (k : int) :
  Uint63.to_Z k < 9007199254740992 ->
  Py.nearest_double (Uint63.to_Z k) 100 = (of_uint63 k / 100)%float.
Proof.
  intros Hk. unfold Py.nearest_double.
  destruct (Uint63.to_Z k) as [|q|q] eqn:E.
  - assert (k = 0%uint63) by (apply Uint63.to_Z_inj; now rewrite E).
    subst k. reflexivity.
  - apply Z.ltb_lt in Hk. rewrite Hk. cbn [andb Z.ltb Z.compare Pos.compare Pos.compare_cont].
    now rewrite <- E, Uint63.of_to_Z.
  - pose proof (Uint63.to_Z_bounded k). lia.
Qed.

Lemma nearest_double_whole (k : int) :
  Uint63.to_Z k < 9007199254740992 ->
  Py.nearest_double (Uint63.to_Z k) 1 = (of_uint63 k / 1)%float.
Proof.
  intros Hk. unfold Py.nearest_double.
  destruct (Uint63.to_Z k) as [|q|q] eqn:E.
  - assert (k = 0%uint63) by (apply Uint63.to_Z_inj; now rewrite E).
    subst k. reflexivity.
  - apply Z.ltb_lt in Hk. rewrite Hk. cbn [andb Z.ltb Z.compare Pos.compare Pos.compare_cont].
    now rewrite <- E, Uint63.of_to_Z.
  - pose proof (Uint63.to_Z_bounded k). lia.
Qed.

(** C2, as stated, fails: for the amount 0.30 at 33 percent the shares are
    0.10 and 0.20, whose float sum is 0.30000000000000004, not
    [round(0.30, 2)]. *)
Lemma split_sum_is_not_the_rounded_amount :
  Split.calculate_split_amounts 0.30 33 = (0.10%float, 0.20%float)
  /\ (fst (Split.calculate_split_amounts 0.30 33)
      + snd (Split.calculate_split_amounts 0.30 33))%float
     = 0.30000000000000004%float
  /\ Py.round2 0.30 = 0.30%float
  /\ (fst (Split.calculate_split_amounts 0.30 33)
      + snd (Split.calculate_split_amounts 0.30 33)
      =? Py.round2 0.30)%float = false.
Proof. repeat split; vm_compute; reflexivity. Qed.

(** for an amount that is not a whole number of cents the two sides differ
    by a cent: 0.125 at 8 percent gives 0.01 and 0.12, and [round(0.125, 2)]
    is 0.12. *)
Example split_of_half_cent_amount :
  Split.calculate_split_amounts 0.125 8 = (0.01%float, 0.12%float)
  /\ Py.round2 0.125 = 0.12%float
  /\ Py.round2 (0.01 + 0.12) = 0.13%float.
Proof. repeat split; vm_compute; reflexivity. Qed.

(** C2 (amended). For every amount of a whole number [A] of cents from 0.00
    to 200.00 and every whole percentage [p] from 0 to 100, the two shares
    are the doubles of two whole numbers of cents that add up to [A] (no
    cent is lost or made between the shares), and their float sum, which
    can differ from the amount in its last bit, rounds to the amount:
    [round(selfAmount + partnerAmount, 2) == amount]. *)
Theorem split_adds_up_to_the_cent (A p : Z) :
  0 <= A <= 20000 -> 0 <= p <= 100 ->
  let amount := Py.nearest_double A 100 in
  let self_amount :=
    fst (Split.calculate_split_amounts amount (Py.nearest_double p 1)) in
  let wife_amount :=
    snd (Split.calculate_split_amounts amount (Py.nearest_double p 1)) in
  exists cs cw : Z,
    0 <= cs /\ 0 <= cw /\ cs + cw = A
    /\ self_amount = Py.nearest_double cs 100
    /\ wife_amount = Py.nearest_double cw 100
    /\ Py.round2 (self_amount + wife_amount)%float = amount.
Proof.
  intros HA Hp.
  assert (HwB : Uint63.wB = 9223372036854775808) by reflexivity.
  assert (Hcell : exists a q,
            Uint63.to_Z a = A /\ Uint63.to_Z q = p /\ split_ok a q = true).
  { assert (EB : Uint63.to_Z (Uint63.of_Z (A / 100)) = A / 100).
    { rewrite Uint63.of_Z_spec, HwB. apply Z.mod_small.
      Z.div_mod_to_equations. lia. }
    assert (Er : Uint63.to_Z (Uint63.of_Z (A mod 100)) = A mod 100).
    { rewrite Uint63.of_Z_spec, HwB. apply Z.mod_small.
      Z.div_mod_to_equations. lia. }
    assert (Eq : Uint63.to_Z (Uint63.of_Z p) = p).
    { rewrite Uint63.of_Z_spec, HwB. apply Z.mod_small. lia. }
    exists (Uint63.of_Z (A / 100) * 100 + Uint63.of_Z (A mod 100))%uint63,
           (Uint63.of_Z p).
    split; [|split; [exact Eq|]].
    - rewrite Uint63.add_spec, Uint63.mul_spec, EB, Er, HwB.
      change (Uint63.to_Z 100) with 100.
      rewrite (Z.mod_small (A / 100 * 100)) by (Z.div_mod_to_equations; lia).
      rewrite Z.mod_small by (Z.div_mod_to_equations; lia).
      Z.div_mod_to_equations. lia.
    - pose proof (forall_upto_spec _ _ _ split_table) as H1.
      rewrite Uint63.to_Z_0, Z2Nat.id, HwB in H1 by lia.
      specialize (H1 ltac:(lia) (Uint63.of_Z (A / 100))). cbv beta in H1.
      rewrite EB in H1.
      specialize (H1 ltac:(Z.div_mod_to_equations; lia)).
      pose proof (forall_upto_spec _ _ _ H1) as H2.
      rewrite Uint63.to_Z_0, Z2Nat.id, HwB in H2 by lia.
      specialize (H2 ltac:(lia) (Uint63.of_Z (A mod 100))). cbv beta in H2.
      rewrite Er in H2.
      specialize (H2 ltac:(Z.div_mod_to_equations; lia)).
      pose proof (forall_upto_spec _ _ _ H2) as H3.
      rewrite Uint63.to_Z_0, Z2Nat.id, HwB in H3 by lia.
      specialize (H3 ltac:(lia) (Uint63.of_Z p)). cbv beta in H3.
      rewrite Eq in H3. apply H3. lia. }
  destruct Hcell as (a & q & <- & <- & Hcell). cbn zeta.
  rewrite (nearest_double_cents a), (nearest_double_whole q) by lia.
  unfold split_ok in Hcell. cbv zeta in Hcell.
  apply andb_prop in Hcell as [Hcell H6].
  apply andb_prop in Hcell as [Hcell H5].
  apply andb_prop in Hcell as [Hcell H4].
  apply andb_prop in Hcell as [Hcell H3].
  apply andb_prop in Hcell as [H1 H2].
  match type of H1 with
  | (?x + ?y =? _)%uint63 = true => set (cs := x) in *; set (cw := y) in *
  end.
  apply Uint63.eqb_spec in H1. apply Uint63.leb_spec in H2, H3.
  apply FloatAxioms.Leibniz.eqb_spec in H4, H5, H6.
  pose proof (Uint63.to_Z_bounded cs) as Bs.
  pose proof (Uint63.to_Z_bounded cw) as Bw.
  exists (Uint63.to_Z cs), (Uint63.to_Z cw).
  rewrite (nearest_double_cents cs), (nearest_double_cents cw) by lia.
  repeat split; try lia; try assumption.
  rewrite <- H1, Uint63.add_spec, HwB. symmetry. apply Z.mod_small. lia.
Qed.

Lemma split_adds_up_to_the_cent_witness :
  exists cs cw : Z,
    0 <= cs /\ 0 <= cw /\ cs + cw = 30
    /\ fst (Split.calculate_split_amounts (Py.nearest_double 30 100)
              (Py.nearest_double 33 1))
       = Py.nearest_double cs 100
    /\ snd (Split.calculate_split_amounts (Py.nearest_double 30 100)
              (Py.nearest_double 33 1))
       = Py.nearest_double cw 100
    /\ Py.round2
         (fst (Split.calculate_split_amounts (Py.nearest_double 30 100)
                 (Py.nearest_double 33 1))
          + snd (Split.calculate_split_amounts (Py.nearest_double 30 100)
                   (Py.nearest_double 33 1)))%float
       = Py.nearest_double 30 100.
Proof. apply (split_adds_up_to_the_cent 30 33); lia. Defined.

(** ** The cleaning of a description and its tokens *)

Lemma all_chars_app p a b :
  all_chars p (a ++ b)%string = all_chars p a && all_chars p b.
Proof.
  induction a as [|c a IH]; cbn; [reflexivity|].
  now rewrite IH, andb_assoc.
Qed.

Lemma all_chars_impl (p q : ascii -> bool) s :
  (forall c, p c = true -> q c = true) ->
  all_chars p s = true -> all_chars q s = true.
Proof.
  intros Hpq. induction s as [|c s IH]; cbn; [easy|].
  intros H. apply andb_prop in H as [Hc Hs].
  now rewrite (Hpq c Hc), (IH Hs).
Qed.

(** the pieces between separator runs keep the property of the characters
    and hold no separator. *)
Lemma split_runs_chars (p sep : ascii -> bool) s : forall cur in_sep,
  all_chars (fun c => p c && negb (sep c)) cur = true ->
  all_chars p s = true ->
  Forall (fun w => all_chars (fun c => p c && negb (sep c)) w = true)
         (Py.split_runs sep cur in_sep s).
Proof.
  induction s as [|c s IH]; intros cur in_sep Hcur Hs; cbn.
  - now constructor.
  - cbn in Hs. apply andb_prop in Hs as [Hc Hs].
    destruct (sep c) eqn:Hsep.
    + destruct in_sep; [now apply IH|].
      constructor; [exact Hcur | now apply IH].
    + apply IH; [|exact Hs].
      rewrite all_chars_app, Hcur. cbn. now rewrite Hc, Hsep.
Qed.

Lemma lstrip_chars p s : all_chars p s = true -> all_chars p (Py.lstrip s) = true.
Proof.
  induction s as [|c s IH]; cbn; [easy|].
  intros H. destruct (Py.isspace c); [|exact H].
  apply andb_prop in H as [_ H]. now apply IH.
Qed.

Lemma rstrip_chars p s : all_chars p s = true -> all_chars p (Py.rstrip s) = true.
Proof.
  induction s as [|c s IH]; cbn; [easy|].
  intros H. apply andb_prop in H as [Hc H].
  destruct (Py.isspace c && negb (Py.nonempty (Py.rstrip s))); [reflexivity|].
  cbn. now rewrite Hc, (IH H).
Qed.

Lemma join_chars p (sep : string) (l : list string) :
  all_chars p sep = true ->
  Forall (fun w => all_chars p w = true) l ->
  all_chars p (Py.join sep l) = true.
Proof.
  intros Hsep. unfold Py.join.
  induction 1 as [|w l Hw Hl IH]; [reflexivity|].
  destruct l as [|w2 l]; [exact Hw|].
  change (String.concat sep (w :: w2 :: l))
    with (w ++ sep ++ String.concat sep (w2 :: l))%string.
  now rewrite !all_chars_app, Hw, Hsep, IH.
Qed.

Lemma clean_special_chars s : all_chars kept_char (clean_special s) = true.
Proof.
  induction s as [|c s IH]; cbn; [reflexivity|].
  rewrite IH. destruct (kept_char c) eqn:Hc; [now rewrite Hc | reflexivity].
Qed.

Lemma normalize_chars name : all_chars kept_char (normalize name) = true.
Proof.
  unfold normalize. apply join_chars; [reflexivity|].
  apply Forall_map. unfold Py.split_ws.
  pose proof (split_runs_chars kept_char Py.isspace
                (clean_special
                   (sub_spaced_hyphen 0 (Py.lower name)))
                EmptyString false eq_refl (clean_special_chars _)) as H.
  rewrite Forall_forall in H. apply Forall_forall. intros w Hw.
  apply filter_In in Hw as [Hw _]. unfold Py.strip.
  apply rstrip_chars, lstrip_chars.
  apply (all_chars_impl _ kept_char w) in H; [exact H | | exact Hw].
  intros c Hc. now apply andb_prop in Hc as [Hc _].
Qed.

Lemma kept_not_separator c :
  kept_char c && negb (Py.isspace c || Ascii.eqb c "-") = true ->
  alnum_lower c = true.
Proof.
  unfold kept_char, alnum_lower. intros H.
  apply andb_prop in H as [Hk Hs].
  apply negb_true_iff in Hs. apply orb_false_elim in Hs as [Hsp Hhy].
  rewrite Hsp, Hhy, !orb_false_r in Hk. exact Hk.
Qed.

Lemma runs_split_runs (sep : ascii -> bool) s : forall cur in_sep,
  (in_sep = true -> cur = EmptyString) ->
  filter Py.nonempty (Py.split_runs sep cur in_sep s) = runs sep cur s.
Proof.
  induction s as [|c s IH]; intros cur in_sep Hin; cbn [Py.split_runs runs].
  - unfold emit. cbn. now destruct (Py.nonempty cur).
  - destruct (sep c).
    + destruct in_sep.
      * rewrite (Hin eq_refl). cbn [emit Py.nonempty app]. now apply IH.
      * unfold emit. cbn [filter].
        destruct (Py.nonempty cur); cbn [app]; now rewrite IH.
    + apply IH. discriminate.
Qed.

Lemma runs_ext (sep1 sep2 : ascii -> bool) s : forall cur,
  all_chars (fun c => Bool.eqb (sep1 c) (sep2 c)) s = true ->
  runs sep1 cur s = runs sep2 cur s.
Proof.
  induction s as [|c s IH]; intros cur H; cbn [runs]; [reflexivity|].
  cbn [all_chars] in H. apply andb_prop in H as [Hc Hs].
  apply Bool.eqb_prop in Hc. rewrite Hc.
  destruct (sep2 c); now rewrite IH.
Qed.

Lemma runs_app_sep (sep : ascii -> bool) c b : sep c = true ->
  forall a cur,
  runs sep cur (a ++ String c b)%string
  = runs sep cur a ++ runs sep EmptyString b.
Proof.
  intros Hc. induction a as [|x a IH]; intros cur; cbn [append runs].
  - now rewrite Hc.
  - destruct (sep x); [|apply IH].
    now rewrite IH, app_assoc.
Qed.

Lemma emit_runs (sep : ascii -> bool) cur :
  List.concat (map (runs sep EmptyString) (emit cur)) = runs sep EmptyString cur.
Proof.
  unfold emit. destruct cur as [|c cur]; [reflexivity|].
  cbn [Py.nonempty map List.concat]. apply app_nil_r.
Qed.

(** cutting at more separators can be done piece by piece. *)
Lemma runs_pieces (sep1 sep2 : ascii -> bool) :
  (forall c, sep1 c = true -> sep2 c = true) ->
  forall y cur,
  List.concat (map (runs sep2 EmptyString) (runs sep1 cur y))
  = runs sep2 EmptyString (cur ++ y)%string.
Proof.
  intros Hsub. induction y as [|c y IH]; intros cur; cbn [runs].
  - now rewrite emit_runs, append_empty_r.
  - destruct (sep1 c) eqn:Hc.
    + rewrite map_app, concat_app, emit_runs, (IH EmptyString).
      cbn [append]. now rewrite (runs_app_sep sep2 c y (Hsub c Hc)).
    + rewrite IH, append_assoc. reflexivity.
Qed.

Lemma runs_join (sep : ascii -> bool) (l : list string) :
  sep " "%char = true ->
  runs sep EmptyString (Py.join " " l)
  = List.concat (map (runs sep EmptyString) l).
Proof.
  intros Hsp. unfold Py.join. induction l as [|w l IH]; [reflexivity|].
  destruct l as [|w2 l].
  - cbn. now rewrite app_nil_r.
  - change (String.concat " " (w :: w2 :: l))
      with (w ++ String " " (String.concat " " (w2 :: l)))%string.
    rewrite (runs_app_sep sep " " _ Hsp), IH. reflexivity.
Qed.

Lemma runs_lstrip (sep : ascii -> bool) s :
  (forall c, Py.isspace c = true -> sep c = true) ->
  runs sep EmptyString (Py.lstrip s) = runs sep EmptyString s.
Proof.
  intros Hsp. induction s as [|c s IH]; [reflexivity|].
  cbn [Py.lstrip]. destruct (Py.isspace c) eqn:Hc; [|reflexivity].
  cbn [runs]. now rewrite (Hsp c Hc), IH.
Qed.

Lemma runs_rstrip (sep : ascii -> bool) s :
  (forall c, Py.isspace c = true -> sep c = true) ->
  forall cur, runs sep cur (Py.rstrip s) = runs sep cur s.
Proof.
  intros Hsp. induction s as [|c s IH]; intros cur; [reflexivity|].
  cbn [Py.rstrip].
  destruct (Py.isspace c) eqn:Hc; cbn [andb].
  - destruct (Py.nonempty (Py.rstrip s)) eqn:Hne; cbn [negb].
    + cbn [runs]. rewrite (Hsp c Hc). now rewrite (IH EmptyString).
    + assert (Hr : Py.rstrip s = EmptyString)
        by (destruct (Py.rstrip s); [reflexivity | discriminate Hne]).
      cbn [runs]. rewrite (Hsp c Hc), <- (IH EmptyString), Hr.
      cbn [runs emit Py.nonempty]. now rewrite app_nil_r.
  - cbn [runs]. destruct (sep c); now rewrite IH.
Qed.

Lemma runs_strip (sep : ascii -> bool) s :
  (forall c, Py.isspace c = true -> sep c = true) ->
  runs sep EmptyString (Py.strip s) = runs sep EmptyString s.
Proof.
  intros Hsp. unfold Py.strip.
  now rewrite (runs_rstrip sep _ Hsp), (runs_lstrip sep _ Hsp).
Qed.

Lemma space_not_alnum c :
  (Py.isspace c || Ascii.eqb c "-") = true -> negb (alnum_lower c) = true.
Proof.
  destruct c as [[] [] [] [] [] [] [] []]; vm_compute; intros H;
    try reflexivity; discriminate H.
Qed.

Lemma kept_separators c :
  kept_char c = true ->
  Bool.eqb (Py.isspace c || Ascii.eqb c "-") (negb (alnum_lower c)) = true.
Proof.
  destruct c as [[] [] [] [] [] [] [] []]; vm_compute; intros H;
    try reflexivity; discriminate H.
Qed.

Lemma not_kept_not_alnum c :
  kept_char c = false -> negb (alnum_lower c) = true.
Proof.
  unfold kept_char, alnum_lower. intros H.
  apply orb_false_elim in H as [H _]. apply orb_false_elim in H as [H _].
  now rewrite H.
Qed.

Lemma runs_clean_special s : forall cur,
  runs (fun c => negb (alnum_lower c)) cur (clean_special s)
  = runs (fun c => negb (alnum_lower c)) cur s.
Proof.
  induction s as [|c s IH]; intros cur; [reflexivity|].
  cbn [clean_special runs].
  destruct (kept_char c) eqn:Hk.
  - destruct (negb (alnum_lower c)); now rewrite IH.
  - rewrite (not_kept_not_alnum c Hk).
    change (negb (alnum_lower " ")) with true. cbn iota. now rewrite IH.
Qed.

Lemma prefix_all_impl (p q : ascii -> bool) :
  (forall c, p c = true -> q c = true) ->
  forall n s, prefix_all p n s = true -> prefix_all q n s = true.
Proof.
  intros Hpq. induction n as [|n IH]; intros s H; [reflexivity|].
  destruct s as [|c s]; [discriminate H|]. cbn [prefix_all] in *.
  apply andb_prop in H as [Hc H]. now rewrite (Hpq c Hc), (IH s H).
Qed.

Lemma prefix_all_cons (p : ascii -> bool) n c r :
  prefix_all p (S n) (String c r) = p c && prefix_all p n r.
Proof. reflexivity. Qed.

Lemma space_run_prefix s : prefix_all Py.isspace (space_run s) s = true.
Proof.
  induction s as [|c s IH]; [reflexivity|].
  cbn [space_run]. destruct (Py.isspace c) eqn:Hc; [|reflexivity].
  cbn [prefix_all]. now rewrite Hc, IH.
Qed.

Lemma prefix_all_drop (p : ascii -> bool) m : forall n s,
  prefix_all p n s = true -> prefix_all p m (drop n s) = true ->
  prefix_all p (n + m) s = true.
Proof.
  induction n as [|n IH]; intros s Hn Hm.
  - destruct s; exact Hm.
  - destruct s as [|c s]; [discriminate Hn|]. cbn [prefix_all drop Nat.add] in *.
    apply andb_prop in Hn as [Hc Hn]. now rewrite Hc, (IH s Hn Hm).
Qed.

(** a match of [\s+-\s+] covers whitespace and a hyphen only. *)
Lemma match_spaced_hyphen_prefix s n :
  match_spaced_hyphen s = Some n ->
  prefix_all (fun c => Py.isspace c || Ascii.eqb c "-") n s = true
  /\ n <> O.
Proof.
  unfold match_spaced_hyphen.
  pose proof (space_run_prefix s) as H1.
  destruct (space_run s) as [|k1] eqn:E1; [discriminate|].
  destruct (drop (S k1) s) as [|h r] eqn:Ed; [discriminate|].
  destruct (Ascii.eqb_spec h "-") as [->|Hh].
  - pose proof (space_run_prefix r) as H2.
    destruct (space_run r) as [|k2] eqn:E2; [discriminate|].
    intros [= <-]. split; [|discriminate].
    replace (S (k1 + 1 + S k2)) with (S k1 + (1 + S k2))%nat by lia.
    apply (prefix_all_drop _ (1 + S k2) (S k1)).
    + apply (prefix_all_impl Py.isspace); [|exact H1].
      intros c Hc. now rewrite Hc.
    + rewrite Ed. change (1 + S k2)%nat with (S (S k2)).
      rewrite prefix_all_cons. cbn beta.
      change (Py.isspace "-" || Ascii.eqb "-" "-") with true. cbn [andb].
      apply (prefix_all_impl Py.isspace); [|exact H2].
      intros c Hc. now rewrite Hc.
  - destruct h as [[] [] [] [] [] [] [] []]; try discriminate.
    now contradiction Hh.
Qed.

Lemma runs_sub_spaced_hyphen s : forall skip cur,
  prefix_all (fun c => Py.isspace c || Ascii.eqb c "-") skip s = true ->
  (skip <> O -> cur = EmptyString) ->
  runs (fun c => negb (alnum_lower c)) cur (sub_spaced_hyphen skip s)
  = runs (fun c => negb (alnum_lower c)) cur s.
Proof.
  induction s as [|c s IH]; intros skip cur Hp Hcur.
  - now destruct skip.
  - destruct skip as [|k].
    + cbn [sub_spaced_hyphen].
      destruct (match_spaced_hyphen (String c s)) as [n|] eqn:Em.
      * apply match_spaced_hyphen_prefix in Em as [Hn Hn0].
        destruct n as [|n']; [contradiction|].
        cbn [prefix_all] in Hn. apply andb_prop in Hn as [Hc Hn].
        cbn [runs Nat.pred]. change (negb (alnum_lower " ")) with true.
        cbn iota. rewrite (space_not_alnum c Hc).
        now rewrite (IH n' EmptyString Hn (fun _ => eq_refl)).
      * cbn [runs]. destruct (negb (alnum_lower c));
          now rewrite (IH O _ eq_refl (fun H => match H eq_refl with end)).
    + cbn [sub_spaced_hyphen]. cbn [prefix_all] in Hp.
      apply andb_prop in Hp as [Hc Hp].
      rewrite (Hcur (Nat.neq_succ_0 k)).
      cbn [runs]. rewrite (space_not_alnum c Hc). cbn [emit Py.nonempty app].
      apply (IH k EmptyString Hp (fun _ => eq_refl)).
Qed.

(** the tokens the code extracts, through its four cleaning steps and the
    final split, are the maximal runs of lower-case letters and digits of
    the lower-cased description. *)
Lemma words_of_normalize (name : string) :
  words_of (normalize name) = description_tokens name.
Proof.
  unfold words_of, description_tokens.
  rewrite runs_split_runs by discriminate.
  rewrite (runs_ext _ (fun c => negb (alnum_lower c))).
  2:{ apply (all_chars_impl kept_char); [exact kept_separators|].
      apply normalize_chars. }
  unfold normalize.
  rewrite runs_join by reflexivity.
  rewrite map_map.
  erewrite map_ext.
  2:{ intros w. apply runs_strip.
      intros c Hc. apply space_not_alnum. now rewrite Hc. }
  unfold Py.split_ws. rewrite runs_split_runs by discriminate.
  rewrite (runs_pieces Py.isspace (fun c => negb (alnum_lower c))).
  2:{ intros c Hc. apply space_not_alnum. now rewrite Hc. }
  cbn [append].
  rewrite runs_clean_special.
  apply (runs_sub_spaced_hyphen _ O EmptyString eq_refl).
  intros H. now contradiction H.
Qed.

Example description_tokens_sample :
  description_tokens "  GRAB*Ride - co-op #42, Café!"
  = ["grab"; "ride"; "co"; "op"; "42"; "caf"].
Proof. reflexivity. Qed.


(** ** The Categorizer *)

Lemma max_by_score_split (l : list (string * Z)) : forall p,
  exists l1 l2,
    p :: l = l1 ++ max_by_score p l :: l2
    /\ Forall (fun x => snd x < snd (max_by_score p l)) l1
    /\ Forall (fun x => snd x <= snd (max_by_score p l)) l2.
Proof.
  induction l as [|x r IH]; intros p; simpl.
  - exists [], []. repeat split; constructor.
  - destruct (Z.gtb_spec (snd x) (snd p)) as [Hgt|Hle].
    + destruct (IH x) as (l1 & l2 & Heq & H1 & H2).
      exists (p :: l1), l2. split; [simpl; congruence|]. split; [|exact H2].
      constructor; [|exact H1].
      destruct l1 as [|y l1'].
      * injection Heq as Hx _. rewrite <- Hx. lia.
      * injection Heq as Hx _. subst y.
        apply Forall_inv in H1. cbn beta in H1. lia.
    + destruct (IH p) as (l1 & l2 & Heq & H1 & H2).
      destruct l1 as [|y l1'].
      * injection Heq as Hp Hr. exists [], (x :: l2).
        split; [simpl; congruence|].
        split; [constructor|].
        constructor; [rewrite <- Hp; lia | exact H2].
      * injection Heq as Hp Hr. subst y.
        exists (p :: x :: l1'), l2.
        split; [simpl; congruence|]. split; [|exact H2].
        pose proof (Forall_inv H1) as Hp. cbn beta in Hp.
        constructor; [exact Hp|]. constructor; [cbn beta; lia|].
        now apply Forall_inv_tail in H1.
Qed.

Section FuzzyMode.

(** the similarity function of fuzzywuzzy and the snapshot of the store:
    nothing is assumed of either. *)
Variable scorer : string -> string -> Z.
Variable categories : snapshot.

(** what [extractOne] returns on a category's keywords, in terms of the
    scores of that category. *)
Lemma extractOne_split word category k ks :
  exists choice score l1 l2,
    extractOne scorer word (k :: ks) = Some (choice, score)
    /\ scored_keywords scorer word (category, k :: ks)
       = l1 ++ (category, score) :: l2
    /\ Forall (fun x => snd x < score) l1
    /\ Forall (fun x => snd x <= score) l2.
Proof.
  unfold extractOne. cbn [map].
  set (pairs := map (fun choice => (choice, scorer word choice)) ks).
  destruct (max_by_score_split pairs (k, scorer word k))
    as (l1 & l2 & Heq & H1 & H2).
  destruct (max_by_score (k, scorer word k) pairs) as [choice score] eqn:Hm.
  cbn [snd] in H1, H2.
  exists choice, score.
  change ((k, scorer word k) :: pairs)
    with (map (fun choice => (choice, scorer word choice)) (k :: ks)) in Heq.
  apply map_eq_app in Heq as (a & b & Hab & Ha & Hb).
  apply map_eq_cons in Hb as (c0 & b' & Hb & Hc0 & Hb').
  injection Hc0 as Hc Hs.
  exists (map (fun keyword => (category, scorer word keyword)) a),
         (map (fun keyword => (category, scorer word keyword)) b').
  split; [reflexivity|].
  unfold scored_keywords. cbn [fst snd]. rewrite Hab, Hb, map_app. cbn [map].
  rewrite Hs. split; [reflexivity|].
  split; apply Forall_map; cbn [snd].
  - rewrite <- Ha, Forall_map in H1. exact H1.
  - rewrite <- Hb', Forall_map in H2. exact H2.
Qed.

Lemma best_so_far_bound st seen :
  best_so_far st seen -> Forall (fun p => snd p <= Z.max 75 (snd st)) seen.
Proof.
  intros [[-> H] | (Hgt & before & after & -> & Hb & Ha)].
  - eapply Forall_impl; [|exact H]. cbn. intros; lia.
  - apply Forall_app. split.
    + eapply Forall_impl; [|exact Hb]. cbn. intros; lia.
    + constructor; [lia|]. eapply Forall_impl; [|exact Ha]. cbn. intros; lia.
Qed.

Lemma best_so_far_extend st seen more :
  best_so_far st seen ->
  Forall (fun p => snd p <= snd st \/ snd p <= 75) more ->
  best_so_far st (seen ++ more).
Proof.
  intros [[-> H] | (Hgt & before & after & -> & Hb & Ha)] Hmore.
  - left. split; [reflexivity|]. apply Forall_app. split; [exact H|].
    eapply Forall_impl; [|exact Hmore]. cbn. intros; lia.
  - right. split; [exact Hgt|]. exists before, (after ++ more).
    split; [now rewrite <- app_assoc|]. split; [exact Hb|].
    apply Forall_app. split; [exact Ha|].
    eapply Forall_impl; [|exact Hmore]. cbn. intros; lia.
Qed.

Lemma fuzzy_step_best word st entry seen :
  best_so_far st seen ->
  best_so_far (fuzzy_step scorer word st entry)
              (seen ++ scored_keywords scorer word entry).
Proof.
  intros Hst. destruct entry as [category [|k ks]].
  - cbn. now rewrite app_nil_r.
  - destruct (extractOne_split word category k ks)
      as (choice & score & l1 & l2 & HeO & Hsplit & H1 & H2).
    unfold fuzzy_step. rewrite HeO, Hsplit.
    destruct (Z.gtb_spec score (snd st)) as [Hgt|Hle];
      [destruct (Z.gtb_spec score 75) as [Hgt75|Hle75]|]; cbn [andb].
    + right. cbn [snd]. split; [exact Hgt75|].
      exists (seen ++ l1), l2. split; [now rewrite <- app_assoc|].
      split; [|exact H2]. apply Forall_app. split; [|exact H1].
      eapply Forall_impl; [|exact (best_so_far_bound _ _ Hst)].
      cbn. intros; lia.
    + apply best_so_far_extend; [exact Hst|].
      apply Forall_app. split; [|constructor; [cbn; lia|]].
      * eapply Forall_impl; [|exact H1]. cbn. intros; lia.
      * eapply Forall_impl; [|exact H2]. cbn. intros; lia.
    + apply best_so_far_extend; [exact Hst|].
      apply Forall_app. split; [|constructor; [cbn; lia|]].
      * eapply Forall_impl; [|exact H1]. cbn. intros; lia.
      * eapply Forall_impl; [|exact H2]. cbn. intros; lia.
Qed.

Lemma fuzzy_word_best word : forall st seen,
  best_so_far st seen ->
  best_so_far (fold_left (fuzzy_step scorer word) categories st)
              (seen ++ scored_word scorer categories word).
Proof.
  unfold scored_word.
  induction categories as [|entry rest IH]; intros st seen Hst; cbn.
  - now rewrite app_nil_r.
  - rewrite app_assoc. apply IH. now apply fuzzy_step_best.
Qed.

Lemma fuzzy_words_best words : forall st seen,
  Forall (fun w => Py.nonempty w = true) words ->
  best_so_far st seen ->
  best_so_far
    (fold_left
       (fun st word =>
          if Py.nonempty word
          then fold_left (fuzzy_step scorer word) categories st else st)
       words st)
    (seen ++ scored scorer categories words).
Proof.
  induction words as [|w rest IH]; intros st seen Hne Hst; cbn.
  - now rewrite app_nil_r.
  - pose proof (Forall_inv Hne) as Hw. cbn in Hw. rewrite Hw.
    rewrite app_assoc. apply IH; [now apply Forall_inv_tail in Hne|].
    now apply fuzzy_word_best.
Qed.

Lemma fuzzy_script_words_best words : forall st seen,
  best_so_far st seen ->
  best_so_far
    (fold_left
       (fun st word => fold_left (fuzzy_step scorer word) categories st)
       words st)
    (seen ++ scored scorer categories words).
Proof.
  induction words as [|w rest IH]; intros st seen Hst; cbn.
  - now rewrite app_nil_r.
  - rewrite app_assoc. apply IH. now apply fuzzy_word_best.
Qed.

Lemma words_of_nonempty s :
  Forall (fun w => Py.nonempty w = true) (words_of s).
Proof.
  unfold words_of. apply Forall_forall. intros w Hw.
  now apply filter_In in Hw as [_ Hw].
Qed.

Lemma fuzzy_match_best words :
  Forall (fun w => Py.nonempty w = true) words ->
  best_so_far (fuzzy_match scorer categories words)
              (scored scorer categories words).
Proof.
  intros Hne. unfold fuzzy_match.
  apply (fuzzy_words_best words ("others", 0) [] Hne).
  left. split; [reflexivity | constructor].
Qed.

Lemma scored_category words p :
  In p (scored scorer categories words) -> In (fst p) (map fst categories).
Proof.
  unfold scored, scored_word, scored_keywords. intros H.
  apply in_flat_map in H as (w & _ & H).
  apply in_flat_map in H as (entry & He & H).
  apply in_map_iff in H as (k & <- & _). cbn.
  apply in_map_iff. now exists entry.
Qed.

End FuzzyMode.

Lemma substring_match_shape categories expense_name :
  let r := substring_match categories expense_name in
  r = ("others", 0) \/ (In (fst r) (map fst categories) /\ snd r = 100).
Proof.
  induction categories as [|[category keywords] rest IH]; cbn.
  - now left.
  - destruct (existsb (keyword_hit expense_name) keywords).
    + right. cbn. split; [now left | reflexivity].
    + destruct IH as [IH | [IH1 IH2]]; [now left|].
      right. split; [now right | exact IH2].
Qed.

(** C1. In fuzzy mode the Categorizer looks at the similarity score of
    every token of the description against every keyword of every category
    (categories without keywords contribute none).  The tokens are stated
    here without the code's cleaning steps: they are the maximal runs of
    lower-case letters and digits of the lower-cased description
    ([description_tokens]).  The scores are met in the order of the loops:
    token by token, for each token category by category in snapshot order,
    for each category keyword by keyword.  If no score is above 75 the
    result is ("others", 0).  Otherwise the result is the category and
    score of the first entry, in that order, that reaches the highest
    score: every earlier score is strictly smaller, every later score is at
    most equal.  So an equal score never displaces the category found
    first; "earlier" is earlier in that iteration, token first: between two
    tokens the category of the earlier token is kept, even when the other
    category comes first in the snapshot. *)
Theorem categorize_expense_fuzzy_best
  (scorer : string -> string -> Z) (categories : snapshot) (name : string) :
  let seen := scored scorer categories (description_tokens name) in
  let result := categorize_expense (Some scorer) categories (Some name) in
  (Forall (fun p => snd p <= 75) seen /\ result = ("others", 0))
  \/ (exists before after,
        seen = before ++ result :: after
        /\ 75 < snd result
        /\ Forall (fun p => snd p < snd result) before
        /\ Forall (fun p => snd p <= snd result) after).
Proof.
  cbn zeta. rewrite <- words_of_normalize. unfold categorize_expense.
  destruct (Py.nonempty (normalize name)) eqn:Hne; cbn [negb].
  - destruct (fuzzy_match_best scorer categories _
                (words_of_nonempty (normalize name)))
      as [[-> H] | (Hgt & before & after & Heq & Hb & Ha)].
    + left. split; [exact H | reflexivity].
    + right. exists before, after. repeat split; assumption.
  - left. split; [|reflexivity].
    destruct (normalize name); [constructor | discriminate Hne].
Qed.

(** C9. Whatever the description, the snapshot and the mode, the
    Categorizer returns either ("others", 0) or a category of the snapshot
    with a score above 75, which is 100 in substring mode; so no score in
    (0, 75] is returned and score 0 comes only with "others". *)
Theorem categorize_expense_result_shape
  (process : option (string -> string -> Z)) (categories : snapshot)
  (expense_name : option string) :
  let r := categorize_expense process categories expense_name in
  (r = ("others", 0)
   \/ (In (fst r) (map fst categories) /\ 75 < snd r
       /\ (process = None -> snd r = 100)))
  /\ ~ (0 < snd r <= 75)
  /\ (snd r = 0 -> fst r = "others").
Proof.
  cbn zeta.
  assert (H : let r := categorize_expense process categories expense_name in
              r = ("others", 0)
              \/ (In (fst r) (map fst categories) /\ 75 < snd r
                  /\ (process = None -> snd r = 100))).
  { cbn zeta. unfold categorize_expense.
    destruct expense_name as [name|]; [|now left].
    destruct (Py.nonempty (normalize name)); cbn [negb]; [|now left].
    destruct process as [scorer|].
    - destruct (fuzzy_match_best scorer categories _
                  (words_of_nonempty (normalize name)))
        as [[-> _] | (Hgt & before & after & Heq & _ & _)]; [now left|].
      right. split; [|split; [exact Hgt | discriminate]].
      apply (scored_category scorer categories (words_of (normalize name))).
      rewrite Heq. apply in_or_app. right. now left.
    - destruct (substring_match_shape categories (normalize name))
        as [-> | [Hin H100]]; [now left|].
      right. split; [exact Hin|]. split; [lia | intros _; exact H100]. }
  cbn zeta in H. split; [exact H|].
  destruct H as [-> | (_ & Hgt & _)]; cbn; split; try lia; try reflexivity.
Qed.

(** the examples of the specification, with a similarity function that
    knows equal strings only. *)
Example categorize_grab_ride :
  categorize_expense (Some exact_scorer) sample_categories (Some "Grab Ride")
  = ("transport", 100)
  /\ categorize_expense (Some exact_scorer) sample_categories (Some "xyz123")
     = ("others", 0).
Proof. split; reflexivity. Qed.

(** the iteration is token by token: the category found first keeps an
    equal score, also against a category that comes earlier in the
    snapshot; the substring mode stops at the first category instead. *)
Example categorize_tie_keeps_first_found :
  categorize_expense (Some exact_scorer) sample_categories (Some "Grab - Cafe")
  = ("transport", 100)
  /\ categorize_expense None sample_categories (Some "Grab - Cafe")
     = ("food", 100).
Proof. split; reflexivity. Qed.

(** ** The date gate of the bulk import *)



Lemma parse_dates_none lib (date_strs : list string) (s : string) :
  In s date_strs -> parse_date lib s = None ->
  parse_dates lib date_strs = None.
Proof.
  induction date_strs as [|d rest IH]; intros Hin Hs; [destruct Hin|].
  cbn. destruct Hin as [-> | Hin].
  - now rewrite Hs.
  - destruct (parse_date lib d); [|reflexivity].
    now rewrite (IH Hin Hs).
Qed.

Lemma parse_dates_some lib (date_strs : list string) :
  Forall (fun s => parse_date lib s <> None) date_strs ->
  exists dates,
    parse_dates lib date_strs = Some dates
    /\ List.length dates = List.length date_strs.
Proof.
  induction 1 as [|d rest Hd _ IH]; [now exists []|].
  destruct IH as (dates & Hd' & Hlen).
  cbn. destruct (parse_date lib d) as [p|]; [|contradiction].
  rewrite Hd'. exists (p :: dates). cbn. now rewrite Hlen.
Qed.

Lemma insert_expense_rows bill_month entries : forall t,
  List.length (rows (fold_left (insert_expense bill_month) entries t))
  = (List.length (rows t) + List.length entries)%nat.
Proof.
  induction entries as [|[d r] rest IH]; intros t; cbn [fold_left List.length].
  - lia.
  - rewrite IH. cbn. rewrite length_app. cbn. lia.
Qed.

(** when every date parses the whole frame is written: one row each. *)
Lemma save_expenses_persists_all lib (df : list frame_row) (t : Expenses.table) :
  df <> [] ->
  Forall (fun r => parse_date lib (Date r) <> None) df ->
  fst (save_expenses lib df t) = true
  /\ List.length (rows (snd (save_expenses lib df t)))
     = (List.length (rows t) + List.length df)%nat.
Proof.
  intros Hne Hall.
  destruct (parse_dates_some lib (map Date df)) as (dates & Hd & Hlen).
  { now apply Forall_map. }
  unfold save_expenses. rewrite Hd.
  destruct df as [|first rest]; [contradiction|].
  cbn [fst snd]. split; [reflexivity|].
  rewrite insert_expense_rows, length_combine, Hlen, length_map. lia.
Qed.

(** a table that changed was handed dates that all parse. *)
Lemma save_expenses_changed_only_if_all_parse
  lib (df : list frame_row) (t : Expenses.table) :
  snd (save_expenses lib df t) <> t ->
  Forall (fun r => parse_date lib (Date r) <> None) df.
Proof.
  intros Hch. apply Forall_forall. intros r Hin Hnone.
  apply Hch. unfold save_expenses.
  rewrite (parse_dates_none lib (map Date df) (Date r));
    [reflexivity | now apply in_map | exact Hnone].
Qed.

(** [parse_date] fails exactly when the three explicit formats fail on
    the stripped text and the permissive parser fails on the text. *)
Lemma parse_date_none_iff lib (date_str : string) :
  parse_date lib date_str = None
  <-> (forall fmt, In fmt date_formats ->
                   strptime lib (Py.strip date_str) fmt = None)
      /\ to_datetime lib date_str = None.
Proof.
  unfold parse_date, date_formats. cbn [try_formats].
  destruct (strptime lib (Py.strip date_str) "%d %b %Y") eqn:E1.
  { split; [discriminate|]. intros [H _].
    rewrite (H "%d %b %Y") in E1; [discriminate | now left]. }
  destruct (strptime lib (Py.strip date_str) "%d%b%Y") eqn:E2.
  { split; [discriminate|]. intros [H _].
    rewrite (H "%d%b%Y") in E2; [discriminate | right; now left]. }
  destruct (strptime lib (Py.strip date_str) "%Y-%m-%d") eqn:E3.
  { split; [discriminate|]. intros [H _].
    rewrite (H "%Y-%m-%d") in E3; [discriminate | right; right; now left]. }
  split.
  - intros H. split; [|exact H].
    intros fmt [<- | [<- | [<- | []]]]; assumption.
  - now intros [_ H].
Qed.

(** C5. If, for at least one row of a bulk-import batch, the date matches
    none of the explicit formats and the permissive fallback fails as
    well, the batch is rejected and the table is left as it was: no record
    of the batch is persisted. *)
Theorem save_expenses_all_or_nothing
  lib (df : list frame_row) (t : Expenses.table) (r : frame_row) :
  In r df ->
  (forall fmt, In fmt date_formats ->
               strptime lib (Py.strip (Date r)) fmt = None) ->
  to_datetime lib (Date r) = None ->
  save_expenses lib df t = (false, t).
Proof.
  intros Hin Hfmts Hfallback. unfold save_expenses.
  assert (Hnone : parse_date lib (Date r) = None)
    by (apply parse_date_none_iff; now split).
  now rewrite (parse_dates_none lib (map Date df) (Date r)
                 (in_map Date df r Hin) Hnone).
Qed.

Lemma save_expenses_all_or_nothing_witness :
  save_expenses iso_only
    [sample_row "2024-01-05"; sample_row "not-a-date"] (mk_table [] 0)
  = (false, mk_table [] 0).
Proof.
  apply (save_expenses_all_or_nothing iso_only _ _ (sample_row "not-a-date")).
  - simpl. right. left. reflexivity.
  - intros fmt [<- | [<- | [<- | []]]]; reflexivity.
  - reflexivity.
Defined.

Example save_expenses_accepts_good_batch :
  fst (save_expenses iso_only
         [sample_row "2024-01-05"; sample_row " 2024-01-06 "] (mk_table [] 0))
  = true.
Proof. reflexivity. Qed.

(** ** The BulkRecategorizer *)

Lemma update_where_id_miss new_cat i (l : list expense) :
  ~ In i (map id l) ->
  map (fun e => if id e =? i then set_category new_cat e else e) l = l
  /\ filter (fun e => id e =? i) l = [].
Proof.
  induction l as [|e r IH]; intros Hni; [now split|].
  cbn in Hni. cbn.
  destruct (Z.eqb_spec (id e) i) as [He|He]; [exfalso; now apply Hni; left|].
  destruct IH as [IH1 IH2]; [intros H; apply Hni; now right|].
  now rewrite IH1, IH2.
Qed.

Lemma update_where_id_hit new_cat (pre : list expense) e (r : list expense) :
  ~ In (id e) (map id pre) -> ~ In (id e) (map id r) ->
  update_where_id new_cat (id e) (pre ++ e :: r)
  = (pre ++ set_category new_cat e :: r, 1).
Proof.
  intros Hpre Hr. unfold update_where_id.
  destruct (update_where_id_miss new_cat (id e) pre Hpre) as [P1 P2].
  destruct (update_where_id_miss new_cat (id e) r Hr) as [R1 R2].
  rewrite map_app, filter_app. cbn [map filter].
  rewrite Z.eqb_refl, P1, P2, R1, R2. reflexivity.
Qed.

Lemma update_where_id_differs_hit new_cat (pre : list expense) e
  (r : list expense) :
  ~ In (id e) (map id pre) -> ~ In (id e) (map id r) ->
  update_where_id_differs new_cat (id e) (pre ++ e :: r)
  = match category e with
    | Some c =>
        if negb (String.eqb c new_cat)
        then (pre ++ set_category new_cat e :: r, 1)
        else (pre ++ e :: r, 0)
    | None => (pre ++ e :: r, 0)
    end.
Proof.
  intros Hpre Hr. unfold update_where_id_differs.
  assert (Hmiss : forall l : list expense, ~ In (id e) (map id l) ->
            map (fun x =>
                   if (id x =? id e)
                      && match category x with
                         | Some c => negb (String.eqb c new_cat)
                         | None => false
                         end
                   then set_category new_cat x else x) l = l
            /\ filter (fun x =>
                   (id x =? id e)
                   && match category x with
                      | Some c => negb (String.eqb c new_cat)
                      | None => false
                      end) l = []).
  { induction l as [|x l IH]; intros Hni; [now split|].
    cbn in Hni. cbn.
    destruct (Z.eqb_spec (id x) (id e)) as [Hx|Hx];
      [exfalso; apply Hni; now left|].
    cbn [andb]. destruct IH as [IH1 IH2]; [intros H; apply Hni; now right|].
    now rewrite IH1, IH2. }
  destruct (Hmiss pre Hpre) as [P1 P2]. destruct (Hmiss r Hr) as [R1 R2].
  rewrite map_app, filter_app. cbn [map filter].
  rewrite Z.eqb_refl, P1, P2, R1, R2. cbn [andb].
  destruct (category e) as [c|]; [|reflexivity].
  destruct (negb (String.eqb c new_cat)); reflexivity.
Qed.

Lemma ids_step (pre : list expense) e (r : list expense) e' :
  id e' = id e ->
  (forall x, In x pre -> ~ In (id x) (map id (e :: r))) ->
  NoDup (map id (e :: r)) ->
  (forall x, In x (pre ++ [e']) -> ~ In (id x) (map id r))
  /\ ~ In (id e) (map id pre) /\ ~ In (id e) (map id r) /\ NoDup (map id r).
Proof.
  intros Hid Hpre Hnd. cbn in Hnd. inversion Hnd as [|? ? Hni Hnd']; subst.
  repeat split; try assumption.
  - intros x Hx Hin. apply in_app_or in Hx as [Hx | [<- | []]].
    + apply (Hpre x Hx). now right.
    + rewrite Hid in Hin. contradiction.
  - intros Hin. apply in_map_iff in Hin as (x & Hx & Hin).
    apply (Hpre x Hin). left. now rewrite Hx.
Qed.

Section Recategorizer.

(** the matcher ([process], [None] without fuzzywuzzy; [scorer] for the
    script) and the snapshot of the categories, the same for every row of a
    run and for every run. *)
Variable process : option (string -> string -> Z).
Variable scorer : string -> string -> Z.
Variable categories : snapshot.

Lemma recategorize_step_row (pre : list expense) e
  (r : list expense) n log :
  ~ In (id e) (map id pre) -> ~ In (id e) (map id r) ->
  recategorize_step process categories (pre ++ e :: r, n, log)
    (id e, description e, category e)
  = if needs_update process categories e
    then (pre ++ set_category (new_category process categories e) e :: r,
          n + 1, log ++ [log_entry process categories e])
    else (pre ++ e :: r, n, log).
Proof.
  intros Hpre Hr.
  unfold recategorize_step, needs_update, log_entry, new_category,
    description_text.
  destruct (description e) as [d|] eqn:Hd; cbn [truthy]; [|reflexivity].
  destruct (Py.nonempty d); cbn [andb]; [|reflexivity].
  destruct (categorize_expense process categories (Some d)) as [new conf].
  cbn [fst].
  destruct (differs new (category e)); [|reflexivity].
  now rewrite (update_where_id_hit new pre e r Hpre Hr).
Qed.

(** the loop of [update_existing_expenses_categories], row by row. *)
Lemma recategorize_fold : forall todo pre n log,
  (forall x, In x pre -> ~ In (id x) (map id todo)) ->
  NoDup (map id todo) ->
  fold_left (recategorize_step process categories)
    (map (fun e => (id e, description e, category e)) todo)
    (pre ++ todo, n, log)
  = (pre ++ map (recategorized process categories) todo,
     n + Z.of_nat (List.length (filter (needs_update process categories) todo)),
     log ++ map (log_entry process categories)
              (filter (needs_update process categories) todo)).
Proof.
  induction todo as [|e r IH]; intros pre n log Hpre Hnd.
  - cbn. rewrite Z.add_0_r, !app_nil_r. reflexivity.
  - cbn [map fold_left filter].
    destruct (ids_step pre e r e eq_refl Hpre Hnd) as (_ & H2 & H3 & H4).
    rewrite (recategorize_step_row pre e r n log H2 H3).
    unfold recategorized at 1.
    destruct (needs_update process categories e).
    + destruct (ids_step pre e r
                  (set_category (new_category process categories e) e)
                  eq_refl Hpre Hnd) as (H1 & _ & _ & _).
      specialize (IH (pre ++ [set_category (new_category process categories e) e])
                     (n + 1) (log ++ [log_entry process categories e]) H1 H4).
      rewrite <- !app_assoc in IH. cbn [app] in IH. rewrite IH.
      cbn [map List.length]. f_equal. f_equal. lia.
    + destruct (ids_step pre e r e eq_refl Hpre Hnd) as (H1 & _ & _ & _).
      specialize (IH (pre ++ [e]) n log H1 H4).
      rewrite <- !app_assoc in IH. exact IH.
Qed.

Lemma script_step_row (pre : list expense) e
  (r : list expense) n log :
  ~ In (id e) (map id pre) -> ~ In (id e) (map id r) ->
  script_step scorer categories (pre ++ e :: r, n, log) (id e, description e)
  = if needs_update_script scorer categories e
    then (pre ++ set_category (new_category_script scorer categories e) e :: r,
          n + 1, log ++ [log_entry_script scorer categories e])
    else (pre ++ e :: r, n, log).
Proof.
  intros Hpre Hr.
  unfold script_step, needs_update_script, log_entry_script,
    new_category_script, description_text.
  destruct (description e) as [d|] eqn:Hd; cbn [truthy]; [|reflexivity].
  destruct (Py.nonempty d); cbn [andb]; [|reflexivity].
  destruct (categorize_expense_script scorer categories (Some d))
    as [new conf].
  cbn [fst]. rewrite (update_where_id_differs_hit new pre e r Hpre Hr).
  destruct (category e) as [c|]; [|reflexivity].
  destruct (negb (String.eqb c new)); reflexivity.
Qed.

(** the loop of [update_existing_expenses], row by row. *)
Lemma script_fold : forall todo pre n log,
  (forall x, In x pre -> ~ In (id x) (map id todo)) ->
  NoDup (map id todo) ->
  fold_left (script_step scorer categories)
    (map (fun e => (id e, description e)) todo)
    (pre ++ todo, n, log)
  = (pre ++ map (recategorized_script scorer categories) todo,
     n + Z.of_nat
           (List.length (filter (needs_update_script scorer categories) todo)),
     log ++ map (log_entry_script scorer categories)
              (filter (needs_update_script scorer categories) todo)).
Proof.
  induction todo as [|e r IH]; intros pre n log Hpre Hnd.
  - cbn. rewrite Z.add_0_r, !app_nil_r. reflexivity.
  - cbn [map fold_left filter].
    destruct (ids_step pre e r e eq_refl Hpre Hnd) as (_ & H2 & H3 & H4).
    rewrite (script_step_row pre e r n log H2 H3).
    unfold recategorized_script at 1.
    destruct (needs_update_script scorer categories e).
    + destruct (ids_step pre e r
                  (set_category (new_category_script scorer categories e) e)
                  eq_refl Hpre Hnd) as (H1 & _ & _ & _).
      specialize (IH (pre ++ [set_category
                                (new_category_script scorer categories e) e])
                     (n + 1) (log ++ [log_entry_script scorer categories e])
                     H1 H4).
      rewrite <- !app_assoc in IH. cbn [app] in IH. rewrite IH.
      cbn [map List.length]. f_equal. f_equal. lia.
    + destruct (ids_step pre e r e eq_refl Hpre Hnd) as (H1 & _ & _ & _).
      specialize (IH (pre ++ [e]) n log H1 H4).
      rewrite <- !app_assoc in IH. exact IH.
Qed.

(** what one run of either recategoriser does to the table and what it
    reports. *)
Lemma recategorize_run (t : Expenses.table) :
  NoDup (map id (rows t)) ->
  update_existing_expenses_categories process categories t
  = (mk_table (map (recategorized process categories) (rows t)) (seq t),
     mk_report
       (Z.of_nat (List.length (rows t)))
       (Z.of_nat (List.length
                    (filter (needs_update process categories) (rows t))))
       (map (log_entry process categories)
            (filter (needs_update process categories) (rows t)))).
Proof.
  intros Hnd. unfold update_existing_expenses_categories.
  pose proof (recategorize_fold (rows t) [] 0 []
                (fun x H => match H with end) Hnd) as Hfold.
  cbn [app] in Hfold. rewrite Hfold. cbn [Z.add]. now rewrite length_map.
Qed.

Lemma script_run (t : Expenses.table) :
  NoDup (map id (rows t)) ->
  update_existing_expenses scorer categories t
  = (mk_table (map (recategorized_script scorer categories) (rows t)) (seq t),
     mk_report
       (Z.of_nat (List.length (rows t)))
       (Z.of_nat (List.length
                    (filter (needs_update_script scorer categories) (rows t))))
       (map (log_entry_script scorer categories)
            (filter (needs_update_script scorer categories) (rows t)))).
Proof.
  intros Hnd. unfold update_existing_expenses.
  pose proof (script_fold (rows t) [] 0 []
                (fun x H => match H with end) Hnd) as Hfold.
  cbn [app] in Hfold. rewrite Hfold. cbn [Z.add]. now rewrite length_map.
Qed.

Lemma differs_same c : differs c (Some c) = false.
Proof. cbn. now rewrite String.eqb_refl. Qed.

Lemma needs_update_recategorized e :
  needs_update process categories (recategorized process categories e) = false.
Proof.
  unfold recategorized.
  destruct (needs_update process categories e) eqn:Hn; [|exact Hn].
  unfold needs_update, new_category. cbn [set_category description category].
  rewrite differs_same. apply andb_false_r.
Qed.

Lemma needs_update_script_recategorized e :
  needs_update_script scorer categories
    (recategorized_script scorer categories e) = false.
Proof.
  unfold recategorized_script.
  destruct (needs_update_script scorer categories e) eqn:Hn; [|exact Hn].
  unfold needs_update_script, new_category_script.
  cbn [set_category description category].
  rewrite String.eqb_refl. apply andb_false_r.
Qed.

Lemma recategorized_id e :
  id (recategorized process categories e) = id e.
Proof. unfold recategorized. now destruct (needs_update _ _ e). Qed.

Lemma recategorized_script_id e :
  id (recategorized_script scorer categories e) = id e.
Proof.
  unfold recategorized_script. now destruct (needs_update_script _ _ e).
Qed.

Lemma filter_none {A} (f : A -> bool) (g : A -> A) (l : list A) :
  (forall x, f (g x) = false) -> filter f (map g l) = [].
Proof.
  intros H. induction l as [|x l IH]; [reflexivity|].
  cbn. now rewrite H.
Qed.

Lemma recategorized_same_but_category e :
  same_but_category e (recategorized process categories e)
  /\ category (recategorized process categories e)
     = if needs_update process categories e
       then Some (new_category process categories e) else category e.
Proof.
  unfold recategorized, same_but_category.
  destruct (needs_update process categories e); cbn; repeat split.
Qed.

End Recategorizer.

(** C6 (amended). One run of the BulkRecategorizer over a table with
    distinct ids: a row with a non-empty description whose recomputed
    category differs from the stored one gets the recomputed category and
    nothing else of it changes (no confidence is stored); every other row
    is untouched; for each rewritten row, in table order, the entry
    (id, description, new category) is appended to the change log, which
    does not record the old category; the report holds the number of rows
    fetched, the number of rows rewritten and that log. *)
Theorem recategorize_rewrites_and_logs
  process categories (t : Expenses.table) :
  NoDup (map id (rows t)) ->
  let t' := fst (update_existing_expenses_categories process categories t) in
  let rep := snd (update_existing_expenses_categories process categories t) in
  Forall2
    (fun e e' =>
       same_but_category e e'
       /\ category e' =
          if needs_update process categories e
          then Some (new_category process categories e) else category e)
    (rows t) (rows t')
  /\ seq t' = seq t
  /\ total_processed rep = Z.of_nat (List.length (rows t))
  /\ updated_expenses rep
     = map (fun e => (id e, description_text e,
                      new_category process categories e))
           (filter (needs_update process categories) (rows t))
  /\ total_updated rep = Z.of_nat (List.length (updated_expenses rep)).
Proof.
  intros Hnd. cbn zeta. rewrite (recategorize_run process categories t Hnd).
  cbn [fst snd rows seq total_processed updated_expenses total_updated].
  repeat split.
  - induction (rows t) as [|e r IH]; cbn [map]; constructor.
    + apply recategorized_same_but_category.
    + apply IH. now inversion Hnd.
  - now rewrite length_map.
Qed.

Lemma recategorize_rewrites_and_logs_witness :
  rows (fst (update_existing_expenses_categories (Some exact_scorer)
               sample_categories
               (mk_table [sample_expense 1 "Grab Ride" (Some "food");
                          sample_expense 2 "Cafe - lunch" (Some "food")] 2)))
  = [sample_expense 1 "Grab Ride" (Some "transport");
     sample_expense 2 "Cafe - lunch" (Some "food")]
  /\ updated_expenses
       (snd (update_existing_expenses_categories (Some exact_scorer)
               sample_categories
               (mk_table [sample_expense 1 "Grab Ride" (Some "food");
                          sample_expense 2 "Cafe - lunch" (Some "food")] 2)))
     = [(1, "Grab Ride", "transport")].
Proof.
  assert (Hnd : NoDup (map id (rows
            (mk_table [sample_expense 1 "Grab Ride" (Some "food");
                       sample_expense 2 "Cafe - lunch" (Some "food")] 2)))).
  { distinct_literals. }
  destruct (recategorize_rewrites_and_logs (Some exact_scorer)
              sample_categories _ Hnd) as (_ & _ & _ & Hlog & _).
  split; [reflexivity | exact Hlog].
Defined.

(** C6, as stated, fails: the change-log entry does not hold the old
    category.  Two tables that differ only in the stored category of
    record 1 ("food", "others") give the same log, whose one entry is
    [(1, "Grab Ride", "transport")]. *)
Lemma recategorize_log_omits_old_category :
  updated_expenses
    (snd (update_existing_expenses_categories (Some exact_scorer)
            sample_categories
            (mk_table [sample_expense 1 "Grab Ride" (Some "food")] 1)))
  = [(1, "Grab Ride", "transport")]
  /\ updated_expenses
       (snd (update_existing_expenses_categories (Some exact_scorer)
               sample_categories
               (mk_table [sample_expense 1 "Grab Ride" (Some "others")] 1)))
     = [(1, "Grab Ride", "transport")]
  /\ category (sample_expense 1 "Grab Ride" (Some "food"))
     <> category (sample_expense 1 "Grab Ride" (Some "others")).
Proof. repeat split; try reflexivity. discriminate. Qed.

(** C7. With distinct ids and the same categories, a second run of the
    BulkRecategorizer right after the first rewrites nothing:
    total_updated is 0, for [app.py] and for [update_categories.py]. *)
Theorem recategorize_idempotent
  process scorer categories (t : Expenses.table) :
  NoDup (map id (rows t)) ->
  total_updated
    (snd (update_existing_expenses_categories process categories
            (fst (update_existing_expenses_categories process categories t))))
  = 0
  /\ total_updated
       (snd (update_existing_expenses scorer categories
               (fst (update_existing_expenses scorer categories t))))
     = 0.
Proof.
  intros Hnd. split.
  - rewrite (recategorize_run process categories t Hnd). cbn [fst].
    rewrite recategorize_run.
    + cbn [snd total_updated rows].
      rewrite filter_none; [reflexivity|].
      apply needs_update_recategorized.
    + cbn [rows]. rewrite map_map.
      erewrite map_ext; [exact Hnd|]. apply recategorized_id.
  - rewrite (script_run scorer categories t Hnd). cbn [fst].
    rewrite script_run.
    + cbn [snd total_updated rows].
      rewrite filter_none; [reflexivity|].
      apply needs_update_script_recategorized.
    + cbn [rows]. rewrite map_map.
      erewrite map_ext; [exact Hnd|]. apply recategorized_script_id.
Qed.

Lemma recategorize_idempotent_witness :
  total_updated
    (snd (update_existing_expenses_categories (Some exact_scorer)
            sample_categories
            (fst (update_existing_expenses_categories (Some exact_scorer)
                    sample_categories
                    (mk_table [sample_expense 1 "Grab Ride" (Some "food");
                               sample_expense 2 "xyz123" None] 2)))))
  = 0.
Proof.
  refine (proj1 (recategorize_idempotent (Some exact_scorer) exact_scorer
                   sample_categories _ _)).
  distinct_literals.
Defined.

(** the first run of that witness does rewrite both rows. *)
Example recategorize_first_run :
  total_updated
    (snd (update_existing_expenses_categories (Some exact_scorer)
            sample_categories
            (mk_table [sample_expense 1 "Grab Ride" (Some "food");
                       sample_expense 2 "xyz123" None] 2)))
  = 2.
Proof. reflexivity. Qed.

(** ** The CategoryStore *)

(** *** Characters and strings *)

Lemma isspace_lower_char c : Py.isspace (Py.lower_char c) = Py.isspace c.
Proof. destruct c as [[] [] [] [] [] [] [] []]; reflexivity. Qed.

Lemma lower_char_idem c : Py.lower_char (Py.lower_char c) = Py.lower_char c.
Proof. destruct c as [[] [] [] [] [] [] [] []]; reflexivity. Qed.

Lemma lower_char_comma c :
  Ascii.eqb (Py.lower_char c) "," = Ascii.eqb c ",".
Proof. destruct c as [[] [] [] [] [] [] [] []]; reflexivity. Qed.

Lemma lower_nonempty s : Py.nonempty (Py.lower s) = Py.nonempty s.
Proof. now destruct s. Qed.

Lemma lower_idem s : Py.lower (Py.lower s) = Py.lower s.
Proof.
  induction s as [|c s IH]; cbn; [reflexivity|].
  now rewrite lower_char_idem, IH.
Qed.

Lemma lstrip_lower s : Py.lstrip (Py.lower s) = Py.lower (Py.lstrip s).
Proof.
  induction s as [|c s IH]; cbn; [reflexivity|].
  rewrite isspace_lower_char. now destruct (Py.isspace c).
Qed.

Lemma rstrip_lower s : Py.rstrip (Py.lower s) = Py.lower (Py.rstrip s).
Proof.
  induction s as [|c s IH]; cbn; [reflexivity|].
  rewrite isspace_lower_char, IH, lower_nonempty.
  now destruct (Py.isspace c && negb (Py.nonempty (Py.rstrip s))).
Qed.

Lemma strip_lower s : Py.strip (Py.lower s) = Py.lower (Py.strip s).
Proof. unfold Py.strip. now rewrite lstrip_lower, rstrip_lower. Qed.

Lemma rstrip_idem s : Py.rstrip (Py.rstrip s) = Py.rstrip s.
Proof.
  induction s as [|c s IH]; cbn; [reflexivity|].
  destruct (Py.isspace c && negb (Py.nonempty (Py.rstrip s))) eqn:E;
    [reflexivity|].
  cbn. now rewrite IH, E.
Qed.

Lemma lstrip_head s :
  match Py.lstrip s with
  | EmptyString => True
  | String c _ => Py.isspace c = false
  end.
Proof.
  induction s as [|c s IH]; cbn; [exact I|].
  destruct (Py.isspace c) eqn:E; [exact IH | exact E].
Qed.

Lemma strip_idem s : Py.strip (Py.strip s) = Py.strip s.
Proof.
  unfold Py.strip. pose proof (lstrip_head s) as H.
  destruct (Py.lstrip s) as [|c u]; [reflexivity|].
  change (Py.rstrip (String c u))
    with (if Py.isspace c && negb (Py.nonempty (Py.rstrip u))
          then EmptyString else String c (Py.rstrip u)).
  rewrite H. cbn [andb Py.lstrip]. rewrite H.
  change (Py.rstrip (String c (Py.rstrip u)))
    with (if Py.isspace c && negb (Py.nonempty (Py.rstrip (Py.rstrip u)))
          then EmptyString else String c (Py.rstrip (Py.rstrip u))).
  now rewrite H, rstrip_idem.
Qed.

Lemma split_no_comma s : Forall (fun k => no_comma k = true) (Py.split "," s).
Proof.
  induction s as [|c s IH]; cbn; [repeat constructor|].
  destruct (Ascii.eqb c ",") eqn:E; [constructor; [reflexivity | exact IH]|].
  destruct (Py.split "," s) as [|h t]; [repeat constructor; cbn; now rewrite E|].
  inversion IH as [|? ? Hh Ht]; subst.
  constructor; [cbn; now rewrite E, Hh | exact Ht].
Qed.

Lemma lstrip_no_comma s : no_comma s = true -> no_comma (Py.lstrip s) = true.
Proof.
  induction s as [|c s IH]; cbn; [easy|].
  intros H. destruct (Py.isspace c); [|exact H].
  apply andb_prop in H as [_ H]. now apply IH.
Qed.

Lemma rstrip_no_comma s : no_comma s = true -> no_comma (Py.rstrip s) = true.
Proof.
  induction s as [|c s IH]; cbn; [easy|].
  intros H. apply andb_prop in H as [Hc H].
  destruct (Py.isspace c && negb (Py.nonempty (Py.rstrip s))); [reflexivity|].
  cbn. now rewrite Hc, (IH H).
Qed.

Lemma lower_no_comma s : no_comma (Py.lower s) = no_comma s.
Proof.
  induction s as [|c s IH]; cbn; [reflexivity|].
  now rewrite lower_char_comma, IH.
Qed.

Lemma split_single k : no_comma k = true -> Py.split "," k = [k].
Proof.
  induction k as [|c k IH]; cbn; [reflexivity|].
  intros H. apply andb_prop in H as [Hc H].
  apply negb_true_iff in Hc. now rewrite Hc, (IH H).
Qed.

Lemma split_app_comma k rest :
  no_comma k = true ->
  Py.split "," (k ++ String "," rest)%string = k :: Py.split "," rest.
Proof.
  induction k as [|c k IH]; cbn; [reflexivity|].
  intros H. apply andb_prop in H as [Hc H].
  apply negb_true_iff in Hc. now rewrite Hc, (IH H).
Qed.

Lemma split_join k ks :
  no_comma k = true -> Forall (fun x => no_comma x = true) ks ->
  Py.split "," (Py.join "," (k :: ks)) = k :: ks.
Proof.
  revert k. induction ks as [|k2 ks IH]; intros k Hk Hks.
  - cbn. now apply split_single.
  - inversion Hks as [|? ? Hk2 Hks']; subst.
    change (Py.join "," (k :: k2 :: ks))
      with (k ++ String "," (Py.join "," (k2 :: ks)))%string.
    rewrite (split_app_comma _ _ Hk). f_equal. now apply IH.
Qed.

(** what is written for a keyword list is read back as that list. *)
Lemma keywords_round_trip (kws : list string) :
  Forall clean_keyword kws ->
  (let keywords_str :=
     match kws with [] => EmptyString | _ => Py.join "," kws end in
   if Py.nonempty keywords_str then Py.split "," keywords_str else [])
  = kws.
Proof.
  intros H. destruct kws as [|k ks]; [reflexivity|].
  cbn zeta. inversion H as [|? ? (Hne & _ & _ & Hnc) Hks]; subst.
  assert (Hj : Py.nonempty (Py.join "," (k :: ks)) = true).
  { unfold Py.join. destruct k; [discriminate Hne|].
    destruct ks; reflexivity. }
  rewrite Hj. apply split_join; [exact Hnc|].
  eapply Forall_impl; [|exact Hks]. now intros x (_ & _ & _ & Hx).
Qed.

Lemma parse_keywords_clean s : Forall clean_keyword (parse_keywords s).
Proof.
  unfold parse_keywords. apply Forall_forall. intros k Hk.
  apply in_map_iff in Hk as (piece & <- & Hp).
  apply filter_In in Hp as [Hin Hne].
  pose proof (split_no_comma s) as Hnc.
  rewrite Forall_forall in Hnc. specialize (Hnc piece Hin).
  repeat split.
  - now rewrite lower_nonempty.
  - now rewrite strip_lower, strip_idem.
  - apply lower_idem.
  - rewrite lower_no_comma. unfold Py.strip.
    now apply rstrip_no_comma, lstrip_no_comma.
Qed.

(** *** The bulk update *)

Lemma dict_mem_dict_set {V : Type} (k k' : string) (v : V) d :
  dict_mem k (dict_set k' v d) = String.eqb k' k || dict_mem k d.
Proof.
  unfold dict_mem. induction d as [|[a b] r IH]; cbn; [reflexivity|].
  destruct (String.eqb_spec a k') as [->|Hne]; cbn.
  - now destruct (String.eqb k' k).
  - rewrite IH. now destruct (String.eqb a k), (String.eqb k' k).
Qed.

Lemma dict_set_fresh {V : Type} (k : string) (v : V) d :
  dict_mem k d = false -> dict_set k v d = d ++ [(k, v)].
Proof.
  unfold dict_mem. induction d as [|[a b] r IH]; cbn; [reflexivity|].
  intros H. apply orb_false_elim in H as [Ha Hr].
  now rewrite Ha, (IH Hr).
Qed.

Lemma existsb_eqb_false (k : string) (l : list string) :
  existsb (String.eqb k) l = false -> ~ In k l.
Proof.
  intros H Hin.
  assert (Ht : existsb (String.eqb k) l = true)
    by (apply existsb_exists; exists k; split; [exact Hin | apply String.eqb_refl]).
  congruence.
Qed.

Lemma claim_keywords_first_claim (category : string) :
  forall tokens (km : list (string * string)) kept0 claimed,
  (forall k, dict_mem k km = existsb (String.eqb k) claimed) ->
  exists km' : list (string * string),
    fold_left
      (fun st keyword =>
         let '(keyword_map, kept) := st in
         if dict_mem keyword keyword_map then st
         else (dict_set keyword category keyword_map, kept ++ [keyword]))
      tokens (km, kept0)
    = (km', kept0 ++ first_claim claimed tokens)
    /\ (forall k, dict_mem k km'
                  = existsb (String.eqb k) (first_claim claimed tokens ++ claimed)).
Proof.
  induction tokens as [|x r IH]; intros km kept0 claimed Hkm.
  - exists km. cbn. now rewrite app_nil_r.
  - cbn [fold_left first_claim]. rewrite Hkm.
    destruct (existsb (String.eqb x) claimed) eqn:Hx.
    + apply IH. exact Hkm.
    + destruct (IH (dict_set x category km) (kept0 ++ [x]) (x :: claimed))
        as (km' & Hfold & Hmem).
      { intros k. rewrite dict_mem_dict_set, Hkm. cbn.
        now rewrite (String.eqb_sym x k). }
      exists km'. split.
      * rewrite Hfold. now rewrite <- app_assoc.
      * intros k. rewrite Hmem. cbn. rewrite !existsb_app. cbn.
        now destruct (existsb (String.eqb k) (first_claim (x :: claimed) r)),
                     (String.eqb k x).
Qed.

Lemma process_categories_fold :
  forall edited (km : list (string * string))
         (processed : list (string * list string)) claimed,
  (forall k, dict_mem k km = existsb (String.eqb k) claimed) ->
  NoDup (map fst edited) ->
  (forall c, In c (map fst edited) -> dict_mem c processed = false) ->
  snd (fold_left
         (fun st entry =>
            let '(keyword_map, processed_categories) := st in
            let '(category, keywords_str) := entry in
            let '(keyword_map, kept) :=
              claim_keywords category (parse_keywords keywords_str)
                keyword_map in
            (keyword_map, dict_set category kept processed_categories))
         edited (km, processed))
  = processed ++ first_claims claimed edited.
Proof.
  induction edited as [|[c s] rest IH]; intros km processed claimed Hkm Hnd Hfresh.
  - cbn. now rewrite app_nil_r.
  - cbn [fold_left first_claims]. unfold claim_keywords.
    destruct (claim_keywords_first_claim c (parse_keywords s) km [] claimed Hkm)
      as (km' & Hfold & Hmem).
    rewrite Hfold. cbn [app].
    rewrite (dict_set_fresh c _ processed (Hfresh c (or_introl eq_refl))).
    cbn [map] in Hnd. inversion Hnd as [|? ? Hc Hnd']; subst.
    rewrite (IH km' _ (first_claim claimed (parse_keywords s) ++ claimed)
               Hmem Hnd').
    + now rewrite <- app_assoc.
    + intros c' Hc'. unfold dict_mem. rewrite existsb_app. cbn.
      fold (dict_mem c' processed).
      rewrite (Hfresh c' (or_intror Hc')). cbn.
      destruct (String.eqb_spec c c') as [->|]; [contradiction | reflexivity].
Qed.

(** the first loop of the bulk update is first-claim-wins. *)
Lemma process_categories_first_claims edited :
  NoDup (map fst edited) ->
  snd (process_categories edited) = first_claims [] edited.
Proof.
  intros Hnd. unfold process_categories.
  now rewrite (process_categories_fold edited [] [] [] (fun _ => eq_refl) Hnd
                 (fun _ _ => eq_refl)).
Qed.

Lemma first_claim_props : forall tokens claimed,
  NoDup (first_claim claimed tokens)
  /\ forall k, In k (first_claim claimed tokens) ->
               existsb (String.eqb k) claimed = false /\ In k tokens.
Proof.
  induction tokens as [|x r IH]; intros claimed; cbn.
  - split; [constructor | intros k []].
  - destruct (existsb (String.eqb x) claimed) eqn:Hx.
    + destruct (IH claimed) as [Hnd Hin]. split; [exact Hnd|].
      intros k Hk. destruct (Hin k Hk). now split; [|right].
    + destruct (IH (x :: claimed)) as [Hnd Hin]. split.
      * constructor; [|exact Hnd]. intros Hk.
        destruct (Hin x Hk) as [Hf _]. cbn in Hf.
        now rewrite String.eqb_refl in Hf.
      * intros k [<- | Hk]; [now split; [|left]|].
        destruct (Hin k Hk) as [Hf Hr]. cbn in Hf.
        apply orb_false_elim in Hf as [_ Hf]. now split; [|right].
Qed.

Lemma first_claims_nodup : forall edited claimed,
  NoDup (List.concat (map snd (first_claims claimed edited)))
  /\ forall k, In k (List.concat (map snd (first_claims claimed edited))) ->
               existsb (String.eqb k) claimed = false.
Proof.
  induction edited as [|[c s] rest IH]; intros claimed; cbn.
  - split; [constructor | intros k []].
  - destruct (first_claim_props (parse_keywords s) claimed) as [Hnd Hin].
    destruct (IH (first_claim claimed (parse_keywords s) ++ claimed))
      as [Hnd' Hin'].
    split.
    + apply NoDup_app; [exact Hnd | exact Hnd'|].
      intros k Hk Hk'. specialize (Hin' k Hk').
      rewrite existsb_app in Hin'. apply orb_false_elim in Hin' as [Hf _].
      now apply (existsb_eqb_false _ _ Hf).
    + intros k Hk. apply in_app_or in Hk as [Hk | Hk].
      * now destruct (Hin k Hk).
      * specialize (Hin' k Hk). rewrite existsb_app in Hin'.
        now apply orb_false_elim in Hin' as [_ Hf].
Qed.

Lemma first_claims_clean : forall edited claimed,
  Forall (fun entry => Forall clean_keyword (snd entry))
         (first_claims claimed edited).
Proof.
  induction edited as [|[c s] rest IH]; intros claimed; cbn; constructor.
  - cbn. apply Forall_forall. intros k Hk.
    destruct (first_claim_props (parse_keywords s) claimed) as [_ Hin].
    destruct (Hin k Hk) as [_ Hp].
    pose proof (parse_keywords_clean s) as Hc.
    rewrite Forall_forall in Hc. now apply Hc.
  - apply IH.
Qed.

Lemma first_claims_keys : forall edited claimed,
  map fst (first_claims claimed edited) = map fst edited.
Proof.
  induction edited as [|[c s] rest IH]; intros claimed; cbn; [reflexivity|].
  now rewrite IH.
Qed.

Lemma stored_names_first_claims edited claimed :
  map stored_name (first_claims claimed edited) = map stored_name edited.
Proof.
  unfold stored_name.
  rewrite <- (map_map fst Py.lower), first_claims_keys.
  now rewrite map_map.
Qed.

(** *** Writing the processed categories *)

Lemma untouched_cons {V : Type} (x : string * V) (rest : list (string * V))
  (t : Store.table) :
  untouched rest
    (filter (fun row => negb (String.eqb (fst row) (stored_name x))) t)
  = untouched (x :: rest) t.
Proof.
  unfold untouched. induction t as [|row t IH]; [reflexivity|].
  cbn [filter map existsb].
  destruct (String.eqb (fst row) (stored_name x)); cbn [negb orb]; [exact IH|].
  cbn [filter].
  destruct (existsb (String.eqb (fst row)) (map stored_name rest));
    cbn [negb]; [exact IH | now rewrite IH].
Qed.

(** the second loop leaves the rows the batch does not name and appends
    one row per processed category that no later one overwrites. *)
Lemma persist_categories_read : forall processed (t : Store.table),
  persist_categories processed t
  = untouched processed t ++ map stored_row (last_wins processed).
Proof.
  induction processed as [|x rest IH]; intros t.
  - cbn. rewrite app_nil_r. unfold untouched. cbn.
    induction t as [|row t IHt]; [reflexivity | cbn; now rewrite <- IHt].
  - change (persist_categories (x :: rest) t)
      with (persist_categories rest
              (insert_or_replace (stored_name x) (snd (stored_row x)) t)).
    rewrite IH. unfold insert_or_replace.
    unfold untouched at 1. rewrite filter_app.
    fold (untouched rest
            (filter (fun row => negb (String.eqb (fst row) (stored_name x))) t)).
    rewrite untouched_cons, <- app_assoc. f_equal.
    cbn [filter fst last_wins].
    destruct (existsb (String.eqb (stored_name x)) (map stored_name rest));
      reflexivity.
Qed.

Lemma in_concat_last_wins (l : list (string * list string)) (k : string) :
  In k (List.concat (map snd (last_wins l))) ->
  In k (List.concat (map snd l)).
Proof.
  induction l as [|e l IH]; cbn; [easy|].
  destruct (existsb (String.eqb (stored_name e)) (map stored_name l)); cbn;
    intros H.
  - apply in_or_app. right. auto.
  - apply in_app_or in H as [H | H]; apply in_or_app; [now left | right; auto].
Qed.

Lemma NoDup_app_disjoint {A : Type} (a b : list A) (x : A) :
  NoDup (a ++ b) -> In x a -> ~ In x b.
Proof.
  induction a as [|y a IH]; intros Hnd Hin; [destruct Hin|].
  cbn in Hnd. inversion Hnd as [|? ? Hy Hnd']; subst.
  destruct Hin as [-> | Hin]; [|now apply IH].
  intros Hb. apply Hy. apply in_or_app. now right.
Qed.

Lemma last_wins_nodup (l : list (string * list string)) :
  NoDup (List.concat (map snd l)) ->
  NoDup (List.concat (map snd (last_wins l))).
Proof.
  induction l as [|e l IH]; cbn; [easy|]. intros Hnd.
  destruct (existsb (String.eqb (stored_name e)) (map stored_name l)); cbn.
  - apply IH. now apply NoDup_app_remove_l in Hnd.
  - apply NoDup_app.
    + now apply NoDup_app_remove_r in Hnd.
    + apply IH. now apply NoDup_app_remove_l in Hnd.
    + intros x Hx Hx'. apply (NoDup_app_disjoint _ _ x Hnd Hx).
      now apply in_concat_last_wins in Hx'.
Qed.

Lemma last_wins_incl (l : list (string * list string)) e :
  In e (last_wins l) -> In e l.
Proof.
  induction l as [|x l IH]; cbn; [easy|].
  destruct (existsb (String.eqb (stored_name x)) (map stored_name l)).
  - intros H. right. auto.
  - intros [-> | H]; [now left | right; auto].
Qed.

Lemma last_wins_distinct (l : list (string * list string)) :
  NoDup (map stored_name l) -> last_wins l = l.
Proof.
  induction l as [|x l IH]; cbn; [reflexivity|]. intros Hnd.
  inversion Hnd as [|? ? Hx Hnd']; subst.
  destruct (existsb (String.eqb (stored_name x)) (map stored_name l)) eqn:E.
  - apply existsb_exists in E as (n & Hn & Heq).
    apply String.eqb_eq in Heq. subst n. contradiction.
  - now rewrite (IH Hnd').
Qed.

Lemma get_all_categories_stored processed :
  Forall (fun entry => Forall clean_keyword (snd entry)) processed ->
  get_all_categories (map stored_row processed)
  = map (fun entry => (stored_name entry, snd entry)) processed.
Proof.
  unfold get_all_categories. induction 1 as [|e l He _ IH]; [reflexivity|].
  cbn [map]. rewrite IH. f_equal. unfold stored_row. cbn [fst snd].
  f_equal. apply (keywords_round_trip (snd e) He).
Qed.

Lemma untouched_same_names {V W : Type} (b1 : list (string * V))
  (b2 : list (string * W)) (t : Store.table) :
  map stored_name b1 = map stored_name b2 -> untouched b1 t = untouched b2 t.
Proof. unfold untouched. now intros ->. Qed.

(** the bulk update, read back. *)
Lemma bulk_update_read_back edited (t : Store.table) :
  NoDup (map fst edited) ->
  get_all_categories (snd (update_categories_with_unique_keywords edited t))
  = get_all_categories (untouched edited t)
    ++ map (fun entry => (stored_name entry, snd entry))
           (last_wins (first_claims [] edited)).
Proof.
  intros Hkeys. unfold update_categories_with_unique_keywords. cbn [snd].
  rewrite (process_categories_first_claims edited Hkeys).
  rewrite persist_categories_read.
  unfold get_all_categories at 1. rewrite map_app.
  fold (get_all_categories (untouched (first_claims [] edited) t)).
  fold (get_all_categories
          (map stored_row (last_wins (first_claims [] edited)))).
  rewrite get_all_categories_stored.
  - f_equal. f_equal. apply untouched_same_names, stored_names_first_claims.
  - apply Forall_forall. intros e He. apply last_wins_incl in He.
    pose proof (first_claims_clean edited []) as Hc.
    rewrite Forall_forall in Hc. now apply Hc.
Qed.

(** *** Claims about the CategoryStore *)

(** C8. In a bulk edit (a dictionary of category name to proposed text)
    each proposed text is split into tokens that are trimmed, in lower case
    and not empty; the categories are processed in order and a token
    already claimed earlier in the batch is dropped from the current
    category, otherwise claimed for it; no token is left in two of the
    resulting lists; the operation reports success, whatever the
    collisions; and what the store then holds for the categories of the
    batch are these lists and nothing else (of two names of the batch that
    are stored under one name, the later is kept), so no token is in two
    persisted lists of the batch. *)
Theorem bulk_update_first_claim_wins
  (edited : list (string * string)) (t : Store.table) :
  NoDup (map fst edited) ->
  let processed := snd (process_categories edited) in
  processed = first_claims [] edited
  /\ Forall (fun entry => Forall clean_keyword (snd entry)) processed
  /\ NoDup (List.concat (map snd processed))
  /\ fst (update_categories_with_unique_keywords edited t)
     = (true, "Categories updated successfully")
  /\ get_all_categories
       (snd (update_categories_with_unique_keywords edited t))
     = get_all_categories (untouched edited t)
       ++ map (fun entry => (stored_name entry, snd entry))
              (last_wins processed)
  /\ NoDup (List.concat (map snd (last_wins processed)))
  /\ (NoDup (map stored_name edited) -> last_wins processed = processed).
Proof.
  intros Hkeys. cbn zeta.
  rewrite (process_categories_first_claims edited Hkeys).
  split; [reflexivity|]. split; [apply first_claims_clean|].
  split; [apply first_claims_nodup|].
  split; [reflexivity|].
  split; [now apply bulk_update_read_back|].
  split; [apply last_wins_nodup, first_claims_nodup|].
  intros Hnd. apply last_wins_distinct.
  now rewrite stored_names_first_claims.
Qed.

Lemma bulk_update_first_claim_wins_witness :
  get_all_categories
    (snd (update_categories_with_unique_keywords sample_edit
            [("food", "restaurant,tea"); ("transport", "taxi,grab")]))
  = [("transport", ["taxi"; "grab"]);
     ("food", ["coffee"; "tea"; "cafe"]);
     ("drinks", ["milk"])].
Proof.
  assert (Hnd : NoDup (map fst sample_edit)).
  { distinct_literals. }
  destruct (bulk_update_first_claim_wins sample_edit
              [("food", "restaurant,tea"); ("transport", "taxi,grab")] Hnd)
    as (_ & _ & _ & _ & H & _).
  exact H.
Defined.

Lemma in_concat_filter {A B : Type} (h : A -> list B) (f : A -> bool)
  (l : list A) (x : B) :
  In x (List.concat (map h (filter f l))) -> In x (List.concat (map h l)).
Proof.
  induction l as [|y l IH]; cbn; [easy|].
  destruct (f y); cbn; intros H.
  - apply in_app_or in H as [H | H]; apply in_or_app; [now left | right; auto].
  - apply in_or_app. right. auto.
Qed.

Lemma NoDup_concat_filter {A B : Type} (h : A -> list B) (f : A -> bool)
  (l : list A) :
  NoDup (List.concat (map h l)) -> NoDup (List.concat (map h (filter f l))).
Proof.
  induction l as [|y l IH]; cbn; [easy|]. intros Hnd.
  destruct (f y); cbn.
  - apply NoDup_app.
    + now apply NoDup_app_remove_r in Hnd.
    + apply IH. now apply NoDup_app_remove_l in Hnd.
    + intros x Hx Hx'. apply (NoDup_app_disjoint _ _ x Hnd Hx).
      now apply in_concat_filter in Hx'.
  - apply IH. now apply NoDup_app_remove_l in Hnd.
Qed.

Lemma delete_keeps_keywords_unique name (t : Store.table) :
  NoDup (all_keywords t) -> NoDup (all_keywords (delete_category name t)).
Proof.
  unfold all_keywords, get_all_categories, delete_category.
  rewrite !map_map. apply NoDup_concat_filter.
Qed.

Lemma untouched_covered (edited : list (string * string)) (t : Store.table) :
  (forall row, In row t -> In (fst row) (map stored_name edited)) ->
  untouched edited t = [].
Proof.
  unfold untouched. induction t as [|row t IH]; intros H; [reflexivity|].
  cbn.
  assert (Hrow : existsb (String.eqb (fst row)) (map stored_name edited) = true).
  { apply existsb_exists. exists (fst row).
    split; [apply H; now left | apply String.eqb_refl]. }
  rewrite Hrow. cbn. apply IH. intros r Hr. apply H. now right.
Qed.

Lemma bulk_update_keeps_keywords_unique
  (edited : list (string * string)) (t : Store.table) :
  NoDup (map fst edited) ->
  (forall row, In row t -> In (fst row) (map stored_name edited)) ->
  NoDup (all_keywords (snd (update_categories_with_unique_keywords edited t))).
Proof.
  intros Hnd Hcov. unfold all_keywords.
  rewrite (bulk_update_read_back edited t Hnd), (untouched_covered _ _ Hcov).
  cbn [get_all_categories map app]. rewrite map_map. cbn [snd].
  apply last_wins_nodup, first_claims_nodup.
Qed.

Lemma init_db_keeps_keywords_unique defaults (t : Store.table) :
  NoDup (all_keywords (init_db defaults [])) ->
  NoDup (all_keywords t) -> NoDup (all_keywords (init_db defaults t)).
Proof. intros Hd Ht. destruct t; [exact Hd | exact Ht]. Qed.

(** C3, as stated, fails: with no default categories, two single-category
    upserts on a store that holds one category leave the keyword "coffee"
    in two categories. *)
Lemma upsert_breaks_keyword_uniqueness :
  NoDup (all_keywords [("food", "restaurant,cafe")])
  /\ get_all_categories
       (run [] [Upsert "a" ["coffee"]; Upsert "b" ["coffee"]]
            [("food", "restaurant,cafe")])
     = [("food", ["restaurant"; "cafe"]); ("a", ["coffee"]); ("b", ["coffee"])]
  /\ ~ NoDup (all_keywords
                (run [] [Upsert "a" ["coffee"]; Upsert "b" ["coffee"]]
                     [("food", "restaurant,cafe")])).
Proof.
  split; [distinct_literals|].
  split; [reflexivity|].
  intros H. change (NoDup ["restaurant"; "cafe"; "coffee"; "coffee"]) in H.
  inversion H as [|? ? _ H1]; subst. inversion H1 as [|? ? _ H2]; subst.
  inversion H2 as [|? ? Hin _]; subst. apply Hin. now left.
Qed.

(** import writes unchecked as well, and a bulk update looks at its own
    batch only. *)
Example import_breaks_keyword_uniqueness :
  ~ NoDup (all_keywords
             (run [] [Import [("a", ["coffee"]); ("b", ["coffee"])]] [])).
Proof. intros H. inversion H as [|? ? Hin _]; subst. apply Hin. now left. Qed.

Example partial_bulk_update_breaks_keyword_uniqueness :
  NoDup (all_keywords [("a", "coffee"); ("b", "tea")])
  /\ ~ NoDup (all_keywords
                (run [] [BulkUpdate [("b", "coffee")]]
                     [("a", "coffee"); ("b", "tea")])).
Proof.
  split.
  - distinct_literals.
  - intros H. inversion H as [|? ? Hin _]; subst. apply Hin. now left.
Qed.

(** the duplicate-detection query reports the state of the
    counterexample. *)
Example find_duplicate_keywords_reports :
  find_duplicate_keywords
    (run [] [Upsert "a" ["coffee"]; Upsert "b" ["coffee"]]
         [("food", "restaurant,cafe")])
  = [("coffee", ["a"; "b"])].
Proof. reflexivity. Qed.

(** C3 (amended). When the default categories have no duplicate keyword,
    then from a store without a duplicate keyword any sequence of deletes
    and of bulk updates that each name every stored category leads to a
    store without a duplicate keyword. *)
Theorem checked_run_keeps_keywords_unique
  (defaults : list (string * list string)) (ops : list op) :
  NoDup (all_keywords (init_db defaults [])) ->
  forall t : Store.table,
  NoDup (all_keywords t) -> checked_run defaults t ops ->
  NoDup (all_keywords (run defaults ops t)).
Proof.
  intros Hd. induction ops as [|o ops IH]; intros t Hnd Hrun; [exact Hnd|].
  inversion Hrun as [|? ? ? Hop Hrest]; subst.
  cbn [run fold_left]. apply IH; [|exact Hrest].
  pose proof (init_db_keeps_keywords_unique defaults t Hd Hnd) as Hinit.
  destruct Hop as [name | edited Hkeys Hcov]; cbn [apply_op].
  - now apply delete_keeps_keywords_unique.
  - now apply bulk_update_keeps_keywords_unique.
Qed.

Lemma checked_run_keeps_keywords_unique_witness :
  NoDup (all_keywords
           (run sample_categories [BulkUpdate sample_full_edit; Delete "Food"] [])).
Proof.
  apply checked_run_keeps_keywords_unique.
  - distinct_literals.
  - constructor.
  - apply checked_cons.
    + apply checked_bulk.
      * distinct_literals.
      * intros row [<- | [<- | []]]; cbn; auto.
    + apply checked_cons; [apply checked_delete | apply checked_nil].
Defined.

Example checked_run_sample :
  get_all_categories
    (run sample_categories [BulkUpdate sample_full_edit; Delete "Food"] [])
  = [("transport", ["taxi"])].
Proof. reflexivity. Qed.

(** * More of the code *)

(** ** The AmountExtractor, whatever the text *)

Lemma digit_value_range c :
  Py.isdigit c = true -> 0 <= Py.digit_value c <= 9.
Proof.
  destruct c as [[] [] [] [] [] [] [] []]; intros H;
    try discriminate H; cbv; split; discriminate.
Qed.

Lemma int_of_digits_nonneg ds : forall acc,
  0 <= acc -> all_digits ds = true -> 0 <= Py.int_of_digits acc ds.
Proof.
  induction ds as [|c ds IH]; intros acc Hacc Hds;
    cbn [Py.int_of_digits]; [exact Hacc|].
  cbn [all_digits] in Hds. apply andb_prop in Hds as [Hc Hds].
  apply IH; [|exact Hds]. pose proof (digit_value_range c Hc). lia.
Qed.

Lemma span_digits_spec s :
  all_digits (fst (Py.span_digits s)) = true
  /\ s = (fst (Py.span_digits s) ++ snd (Py.span_digits s))%string.
Proof.
  induction s as [|c s [IH1 IH2]]; cbn; [now split|].
  destruct (Py.isdigit c) eqn:Hc; [|now split].
  destruct (Py.span_digits s) as [ds rest]. cbn in *.
  split; [now rewrite Hc | now rewrite <- IH2].
Qed.

(** what the pattern captures is a digit run, alone or with exactly two
    fraction digits. *)
Lemma match_amount_at_shape s g :
  match_amount_at s = Some g ->
  exists ds fs,
    all_digits ds = true
    /\ (fs = EmptyString
        \/ exists d1 d2, Py.isdigit d1 = true /\ Py.isdigit d2 = true
                         /\ fs = String d1 (String d2 EmptyString))
    /\ g = captured_decimal ds fs.
Proof.
  unfold match_amount_at.
  destruct s as [|c0 [|c1 r]]; try discriminate.
  destruct ((Ascii.eqb c0 "S" || Ascii.eqb c0 "s") && Ascii.eqb c1 "$");
    [|discriminate].
  pose proof (span_digits_spec r) as [Hds _].
  destruct (Py.span_digits r) as [ds rest]. cbn [fst] in Hds.
  destruct (Py.nonempty ds); [|discriminate].
  assert (Hplain : Some ds = Some g ->
            exists ds0 fs,
              all_digits ds0 = true
              /\ (fs = EmptyString
                  \/ exists d1 d2, Py.isdigit d1 = true /\ Py.isdigit d2 = true
                                   /\ fs = String d1 (String d2 EmptyString))
              /\ g = captured_decimal ds0 fs).
  { intros [= <-]. exists ds, EmptyString. repeat split; auto. }
  destruct rest as [|p rest1]; [exact Hplain|].
  destruct (Ascii.eqb_spec p ".") as [->|Hp].
  - destruct rest1 as [|d1 [|d2 rest']]; try exact Hplain.
    destruct (Py.isdigit d1) eqn:H1; [|exact Hplain].
    destruct (Py.isdigit d2) eqn:H2; [|exact Hplain].
    cbn [andb]. intros [= <-].
    exists ds, (String d1 (String d2 EmptyString)).
    split; [exact Hds|]. split; [|reflexivity].
    right. exists d1, d2. now repeat split.
  - destruct p as [[] [] [] [] [] [] [] []]; try exact Hplain.
    now contradiction Hp.
Qed.

Lemma re_search_amount_shape s g :
  re_search_amount s = Some g ->
  exists ds fs,
    all_digits ds = true
    /\ (fs = EmptyString
        \/ exists d1 d2, Py.isdigit d1 = true /\ Py.isdigit d2 = true
                         /\ fs = String d1 (String d2 EmptyString))
    /\ g = captured_decimal ds fs.
Proof.
  induction s as [|c s IH]; cbn [re_search_amount].
  - destruct (match_amount_at EmptyString) eqn:E; [|discriminate].
    intros [= <-]. now apply (match_amount_at_shape EmptyString).
  - destruct (match_amount_at (String c s)) eqn:E; [|exact IH].
    intros [= <-]. now apply (match_amount_at_shape (String c s)).
Qed.

(** *** The sign of the doubles the extractor makes *)

Lemma shr_1_nonneg mrs : 0 <= shr_m mrs -> 0 <= shr_m (shr_1 mrs).
Proof.
  destruct mrs as [m r s]. cbn [shr_m shr_1].
  destruct m as [|[p|p|]|[p|p|]]; cbn [shr_m]; lia.
Qed.

Lemma iter_shr_1_nonneg p : forall mrs,
  0 <= shr_m mrs -> 0 <= shr_m (iter_pos shr_1 p mrs).
Proof.
  induction p as [p IH|p IH|]; intros mrs H; cbn [iter_pos].
  - apply IH, IH. now apply shr_1_nonneg.
  - now apply IH, IH.
  - now apply shr_1_nonneg.
Qed.

Lemma shr_fexp_nonneg m e l :
  0 <= m -> 0 <= shr_m (fst (shr_fexp prec emax m e l)).
Proof.
  intros H. unfold shr_fexp, shr.
  assert (H0 : 0 <= shr_m (shr_record_of_loc m l))
    by (destruct l as [|[]]; exact H).
  destruct (fexp prec emax (Zdigits2 m + e) - e) as [|p|p]; cbn [fst];
    [exact H0 | now apply iter_shr_1_nonneg | exact H0].
Qed.

Lemma round_nearest_even_nonneg m l : 0 <= m -> 0 <= round_nearest_even m l.
Proof.
  intros H. unfold round_nearest_even.
  destruct l as [|[]]; [| destruct (Z.even m) | |]; lia.
Qed.

(** rounding a non-negative mantissa gives a number of the sign asked
    for, never a NaN. *)
Lemma binary_round_aux_signed sx mx ex lx :
  0 <= mx -> signed sx (binary_round_aux prec emax sx mx ex lx) = true.
Proof.
  intros H. unfold binary_round_aux.
  pose proof (shr_fexp_nonneg mx ex lx H) as H1.
  destruct (shr_fexp prec emax mx ex lx) as [mrs1 e1]. cbn [fst] in H1.
  pose proof (shr_fexp_nonneg _ e1 loc_Exact
                (round_nearest_even_nonneg _ (loc_of_shr_record mrs1) H1))
    as H2.
  destruct (shr_fexp prec emax
              (round_nearest_even (shr_m mrs1) (loc_of_shr_record mrs1))
              e1 loc_Exact) as [mrs2 e2].
  cbn [fst] in H2.
  destruct (shr_m mrs2) as [|m|m]; [| |lia].
  - cbn. apply Bool.eqb_reflx.
  - destruct (e2 <=? emax - prec); cbn; apply Bool.eqb_reflx.
Qed.

Lemma binary_round_signed sx mx ex :
  signed sx (binary_round prec emax sx mx ex) = true.
Proof.
  unfold binary_round.
  destruct (shl_align mx ex (fexp prec emax (Z.pos (digits2_pos mx) + ex)))
    as [mz ez].
  now apply binary_round_aux_signed.
Qed.

Lemma of_uint63_signed n : signed false (Prim2SF (of_uint63 n)) = true.
Proof.
  rewrite FloatAxioms.of_uint63_spec.
  pose proof (Uint63.to_Z_bounded n) as [H _].
  destruct (Uint63.to_Z n) as [|p|p]; [reflexivity | | lia].
  apply binary_round_signed.
Qed.

Lemma SFdiv_signed x my ey :
  signed false x = true ->
  signed false (SFdiv prec emax x (S754_finite false my ey)) = true.
Proof.
  destruct x as [[]|[]| |[] mx ex]; try discriminate; intros _;
    try reflexivity.
  unfold SFdiv, SFdiv_core_binary.
  set (m' := match _ - _ - _ with Z.pos _ => _ | _ => _ end).
  assert (Hm : 0 <= m').
  { subst m'. destruct (_ - _ - _); [lia | | lia].
    apply Z.shiftl_nonneg. lia. }
  pose proof (Z.div_pos m' (Z.pos my) Hm eq_refl) as Hq.
  unfold Z.div in Hq. destruct (Z.div_eucl m' (Z.pos my)) as [q r].
  now apply binary_round_aux_signed.
Qed.

Lemma SF2Prim_signed x :
  signed false x = true -> signed false (Prim2SF (SF2Prim x)) = true.
Proof.
  destruct x as [[]|[]| |[] m e]; try discriminate; intros _;
    try reflexivity.
  unfold SF2Prim, Z.ldexp. rewrite FloatAxioms.ldshiftexp_spec.
  pose proof (of_uint63_signed (Uint63.of_Z (Z.pos m))) as H.
  destruct (Prim2SF (of_uint63 (Uint63.of_Z (Z.pos m))))
    as [[]|[]| |[] m1 e1]; try discriminate H; try reflexivity.
  apply binary_round_signed.
Qed.

Lemma nearest_double_signed n d :
  d = 1 \/ d = 100 -> signed false (Prim2SF (Py.nearest_double n d)) = true.
Proof.
  intros Hd. unfold Py.nearest_double.
  destruct n as [|p|p]; [reflexivity | | reflexivity].
  destruct ((Z.pos p <? 9007199254740992) && (d <? 9007199254740992)).
  - rewrite FloatAxioms.div_spec.
    assert (Hy : exists my ey,
              Prim2SF (of_uint63 (Uint63.of_Z d)) = S754_finite false my ey).
    { destruct Hd as [-> | ->]; vm_compute; eauto. }
    destruct Hy as (my & ey & ->).
    apply SFdiv_signed, of_uint63_signed.
  - apply SF2Prim_signed, SFdiv_signed. reflexivity.
Qed.

Lemma signed_leb_zero x :
  signed false (Prim2SF x) = true -> (0 <=? x)%float = true.
Proof.
  intros H. rewrite FloatAxioms.leb_spec.
  change (Prim2SF 0) with (S754_zero false).
  now destruct (Prim2SF x) as [[]|[]| |[] m e].
Qed.

Lemma signed_opp_leb_zero x :
  signed false (Prim2SF x) = true -> (- x <=? 0)%float = true.
Proof.
  intros H. rewrite FloatAxioms.leb_spec, FloatAxioms.opp_spec.
  change (Prim2SF 0) with (S754_zero false).
  now destruct (Prim2SF x) as [[]|[]| |[] m e].
Qed.

(** the value of a capture is a number that is not negative. *)
Lemma re_search_amount_signed s g :
  re_search_amount s = Some g ->
  signed false (Prim2SF (Py.float_of_decimal g)) = true.
Proof.
  intros H. apply re_search_amount_shape in H
    as (ds & fs & Hds & [-> | (d1 & d2 & H1 & H2 & ->)] & ->);
    rewrite (float_of_captured _ _ Hds); cbn [decimal_value];
    apply nearest_double_signed; auto.
Qed.

(** X2. The sign of the amount is decided by "cr" alone: a text that
    mentions "cr" (in any letter case, anywhere) never gives a positive
    amount, and any other text never gives a negative one (the comparisons
    are those of the doubles; a capture beyond their range gives an
    infinity of that sign). *)
Theorem extract_amount_sign (t : string) :
  if Py.contains "cr" (Py.lower (Py.strip t))
  then (extract_amount (Some t) <=? 0)%float = true
  else (0 <=? extract_amount (Some t))%float = true.
Proof.
  unfold extract_amount.
  destruct (negb (Py.nonempty (Py.lower (Py.strip t)))
            || Py.contains "n/a" (Py.lower (Py.strip t)));
    [now destruct (Py.contains "cr" _)|].
  destruct (re_search_amount (Py.strip t)) as [g|] eqn:Hs;
    [|now destruct (Py.contains "cr" _)].
  pose proof (re_search_amount_signed _ _ Hs) as Hg.
  destruct (Py.contains "cr" (Py.lower (Py.strip t))).
  - now apply signed_opp_leb_zero.
  - now apply signed_leb_zero.
Qed.

Example extract_amount_sign_samples :
  extract_amount (Some "Credit S$75.50") = (-75.50)%float
  /\ extract_amount (Some "S$0 cr") = (-0)%float
  /\ extract_amount (Some "S$75.50 paid") = 75.50%float.
Proof. repeat split; vm_compute; reflexivity. Qed.

Lemma contains_dollar_app_false a b :
  Py.contains "$" (a ++ b)%string = false -> Py.contains "$" b = false.
Proof.
  induction a as [|c a IH]; [easy|].
  intros H. apply contains_dollar_cons in H as [_ H]. now apply IH.
Qed.

Lemma re_search_amount_no_dollar s :
  Py.contains "$" s = false -> re_search_amount s = None.
Proof.
  induction s as [|c s IH]; intros H; [reflexivity|].
  cbn [re_search_amount].
  assert (Hm : match_amount_at (String c s) = None).
  { unfold match_amount_at. destruct s as [|c1 r]; [reflexivity|].
    apply contains_dollar_cons in H as [_ H].
    apply contains_dollar_cons in H as [H1 _].
    now rewrite H1, andb_false_r. }
  rewrite Hm. apply IH. now apply contains_dollar_cons in H as [_ H].
Qed.

(** X3. A text without a dollar sign is not an error: the amount is
    0.00. *)
Theorem extract_amount_without_dollar (t : string) :
  Py.contains "$" (Py.strip t) = false ->
  extract_amount (Some t) = 0%float.
Proof.
  intros H. unfold extract_amount.
  rewrite (re_search_amount_no_dollar _ H).
  now destruct (negb (Py.nonempty (Py.lower (Py.strip t)))
                || Py.contains "n/a" (Py.lower (Py.strip t))).
Qed.

Lemma extract_amount_without_dollar_witness :
  extract_amount (Some "ZERO1 PTE LTD SINGAPORE SG 25.90") = 0%float.
Proof.
  apply extract_amount_without_dollar. reflexivity.
Defined.

(** ** The Categorizer: tokens, empty stores, substring mode, the script *)

(** X4. Every token the Categorizer hands to the matcher is non-empty and
    made of lower-case letters and digits only: no space, hyphen,
    punctuation or upper-case letter survives the cleaning. *)
Theorem words_of_normalize_alphanumeric (name : string) :
  Forall (fun w => Py.nonempty w = true /\ all_chars alnum_lower w = true)
         (words_of (normalize name)).
Proof.
  apply Forall_forall. intros w Hw. unfold words_of in Hw.
  apply filter_In in Hw as [Hw Hne]. split; [exact Hne|].
  pose proof (split_runs_chars kept_char
                (fun c => Py.isspace c || Ascii.eqb c "-")
                (normalize name) EmptyString false eq_refl
                (normalize_chars name)) as H.
  rewrite Forall_forall in H.
  apply (all_chars_impl _ alnum_lower w kept_not_separator (H w Hw)).
Qed.

Lemma scored_word_no_keywords scorer (categories : snapshot) (word : string) :
  Forall (fun entry => snd entry = []) categories ->
  scored_word scorer categories word = [].
Proof.
  unfold scored_word.
  induction 1 as [|e l He _ IH]; [reflexivity|].
  cbn [flat_map]. rewrite IH, app_nil_r.
  unfold scored_keywords. now rewrite He.
Qed.

Lemma scored_no_keywords scorer (categories : snapshot) (words : list string) :
  Forall (fun entry => snd entry = []) categories ->
  scored scorer categories words = [].
Proof.
  intros Hc. unfold scored.
  induction words as [|w words IH]; [reflexivity|].
  cbn [flat_map]. now rewrite IH, (scored_word_no_keywords scorer _ w Hc).
Qed.

Lemma best_so_far_nil st : best_so_far st [] -> st = ("others", 0).
Proof.
  intros [[H _] | (_ & before & after & H & _)]; [exact H|].
  now destruct before.
Qed.

Lemma substring_match_no_keywords (categories : snapshot) n :
  Forall (fun entry => snd entry = []) categories ->
  substring_match categories n = ("others", 0).
Proof.
  induction 1 as [|[c kws] l He _ IH]; [reflexivity|].
  cbn in He. subst kws. exact IH.
Qed.

(** X5. When no category has a keyword (in particular when there is no
    category at all), every description, in both modes, is put in
    "others" with score 0. *)
Theorem categorize_expense_no_keywords
  (process : option (string -> string -> Z)) (categories : snapshot)
  (expense_name : option string) :
  Forall (fun entry => snd entry = []) categories ->
  categorize_expense process categories expense_name = ("others", 0).
Proof.
  intros Hc. unfold categorize_expense.
  destruct expense_name as [name|]; [|reflexivity].
  destruct (Py.nonempty (normalize name)); cbn [negb]; [|reflexivity].
  destruct process as [scorer|].
  - apply best_so_far_nil.
    rewrite <- (scored_no_keywords scorer categories
                  (words_of (normalize name)) Hc).
    apply fuzzy_match_best, words_of_nonempty.
  - now apply substring_match_no_keywords.
Qed.

Lemma categorize_expense_no_keywords_witness :
  categorize_expense (Some exact_scorer) [("food", []); ("transport", [])]
    (Some "Grab Ride")
  = ("others", 0).
Proof.
  apply categorize_expense_no_keywords. repeat constructor.
Defined.

Lemma existsb_false_no_hit n (entry : string * list string) :
  existsb (keyword_hit n) (snd entry) = false -> no_hit n entry.
Proof.
  intros H k Hk. destruct (keyword_hit n k) eqn:E; [|reflexivity].
  assert (existsb (keyword_hit n) (snd entry) = true)
    by (apply existsb_exists; now exists k).
  congruence.
Qed.

Lemma substring_match_first_hit (categories : snapshot) (n : string) :
  (Forall (no_hit n) categories
   /\ substring_match categories n = ("others", 0))
  \/ (exists before category keywords after keyword,
        categories = before ++ (category, keywords) :: after
        /\ Forall (no_hit n) before
        /\ In keyword keywords /\ keyword_hit n keyword = true
        /\ substring_match categories n = (category, 100)).
Proof.
  induction categories as [|[c kws] l IH]; [left; now split|].
  cbn [substring_match].
  destruct (existsb (keyword_hit n) kws) eqn:E.
  - right. apply existsb_exists in E as (k & Hk & Hhit).
    exists [], c, kws, l, k. now repeat split.
  - pose proof (existsb_false_no_hit n (c, kws) E) as Hno.
    destruct IH as [[Hall Hres] | (before & c' & kws' & after & k & -> & Hb & Hk & Hhit & Hres)].
    + left. split; [now constructor | exact Hres].
    + right. exists ((c, kws) :: before), c', kws', after, k.
      repeat split; try assumption. now constructor.
Qed.

(** X6. Without fuzzywuzzy the Categorizer returns the first category, in
    snapshot order, one of whose keywords (stripped, in lower case, not
    empty) is a substring of the cleaned description, with score 100; no
    category before it has such a keyword; when no category has one the
    result is ("others", 0). *)
Theorem categorize_expense_substring_first_hit
  (categories : snapshot) (name : string) :
  let n := normalize name in
  let result := categorize_expense None categories (Some name) in
  ((n = EmptyString \/ Forall (no_hit n) categories)
   /\ result = ("others", 0))
  \/ (exists before category keywords after keyword,
        categories = before ++ (category, keywords) :: after
        /\ Forall (no_hit n) before
        /\ In keyword keywords /\ keyword_hit n keyword = true
        /\ result = (category, 100)).
Proof.
  cbn zeta. unfold categorize_expense.
  destruct (normalize name) as [|c r] eqn:Hn.
  - left. split; [now left | reflexivity].
  - cbn [Py.nonempty negb].
    destruct (substring_match_first_hit categories (String c r))
      as [[Hall Hres] | H].
    + left. split; [now right | exact Hres].
    + right. exact H.
Qed.

(** X7. The categoriser of [update_categories.py] follows the same rule
    as the fuzzy mode of [app.py], on other tokens: the description in
    lower case split at whitespace, nothing cleaned.  The result is
    ("others", 0) when no score is above 75, otherwise the category and
    score of the first entry that reaches the highest score. *)
Theorem categorize_expense_script_best
  (scorer : string -> string -> Z) (categories : snapshot) (name : string) :
  let seen :=
    scored scorer categories
      (if Py.nonempty name then Py.split_ws (Py.lower name) else []) in
  let result := categorize_expense_script scorer categories (Some name) in
  (Forall (fun p => snd p <= 75) seen /\ result = ("others", 0))
  \/ (exists before after,
        seen = before ++ result :: after
        /\ 75 < snd result
        /\ Forall (fun p => snd p < snd result) before
        /\ Forall (fun p => snd p <= snd result) after).
Proof.
  cbn zeta. unfold categorize_expense_script.
  destruct (Py.nonempty name); cbn [negb].
  - destruct (fuzzy_script_words_best scorer categories
                (Py.split_ws (Py.lower name)) ("others", 0) [])
      as [[-> H] | (Hgt & before & after & Heq & Hb & Ha)].
    + left. split; [reflexivity | constructor].
    + left. split; [exact H | reflexivity].
    + right. exists before, after. repeat split; assumption.
  - left. split; [constructor | reflexivity].
Qed.

(** the two categorisers differ on punctuation: "grab," is a token of its
    own for the script. *)
Example categorizers_differ_on_punctuation :
  categorize_expense (Some exact_scorer) sample_categories (Some "Grab, ride")
  = ("transport", 100)
  /\ categorize_expense_script exact_scorer sample_categories
       (Some "Grab, ride")
     = ("others", 0).
Proof. split; reflexivity. Qed.

(** ** The CategoryStore: each operation *)

Lemma in_map_fst_filter {V : Type} (f : string * V -> bool)
  (l : list (string * V)) n :
  In n (map fst (filter f l)) -> In n (map fst l).
Proof.
  intros H. apply in_map_iff in H as (row & <- & Hrow).
  apply filter_In in Hrow as [Hrow _]. now apply in_map.
Qed.

Lemma NoDup_map_fst_filter {V : Type} (f : string * V -> bool)
  (l : list (string * V)) :
  NoDup (map fst l) -> NoDup (map fst (filter f l)).
Proof.
  induction l as [|row l IH]; cbn; [easy|].
  intros H. inversion H as [|? ? Hn Hl]; subst.
  destruct (f row); [|now apply IH].
  cbn. constructor; [|now apply IH].
  intros Hin. apply Hn. now apply in_map_fst_filter in Hin.
Qed.

Lemma not_in_filter_name (t : Store.table) n :
  ~ In n (map fst (filter (fun row => negb (String.eqb (fst row) n)) t)).
Proof.
  intros H. apply in_map_iff in H as (row & <- & Hrow).
  apply filter_In in Hrow as [_ Hrow].
  now rewrite String.eqb_refl in Hrow.
Qed.

Lemma insert_or_replace_wf n k (t : Store.table) :
  Py.lower n = n -> store_wf t -> store_wf (insert_or_replace n k t).
Proof.
  intros Hn [Hnd Hlow]. unfold insert_or_replace. split.
  - rewrite map_app. apply NoDup_app.
    + now apply NoDup_map_fst_filter.
    + cbn. constructor; [easy | constructor].
    + intros a Ha [<- | []]. now apply not_in_filter_name in Ha.
  - apply Forall_app. split.
    + apply Forall_forall. intros row Hrow.
      apply filter_In in Hrow as [Hrow _].
      rewrite Forall_forall in Hlow. now apply Hlow.
    + now repeat constructor.
Qed.

Lemma insert_or_ignore_wf n k (t : Store.table) :
  Py.lower n = n -> store_wf t -> store_wf (insert_or_ignore n k t).
Proof.
  intros Hn [Hnd Hlow]. unfold insert_or_ignore.
  destruct (existsb (fun row => String.eqb (fst row) n) t) eqn:E;
    [now split|].
  split.
  - rewrite map_app. apply NoDup_app; [exact Hnd | |].
    + cbn. constructor; [easy | constructor].
    + intros a Ha [<- | []].
      apply in_map_iff in Ha as (row & Hrow & Hin).
      assert (existsb (fun r => String.eqb (fst r) n) t = true)
        by (apply existsb_exists; exists row; split;
            [exact Hin | rewrite Hrow; apply String.eqb_refl]).
      congruence.
  - apply Forall_app. split; [exact Hlow | now repeat constructor].
Qed.

Lemma fold_insert_wf {V : Type}
  (ins : string -> string -> Store.table -> Store.table)
  (enc : string * V -> string) (l : list (string * V)) :
  (forall n k t, Py.lower n = n -> store_wf t -> store_wf (ins n k t)) ->
  forall t, store_wf t ->
  store_wf (fold_left (fun t e => ins (Py.lower (fst e)) (enc e) t) l t).
Proof.
  intros Hins. induction l as [|e l IH]; intros t Ht; [exact Ht|].
  cbn. apply IH. apply Hins; [apply lower_idem | exact Ht].
Qed.

Lemma init_db_wf defaults (t : Store.table) :
  store_wf t -> store_wf (init_db defaults t).
Proof.
  intros Ht. destruct t as [|row t]; [|exact Ht].
  unfold init_db.
  apply (fold_insert_wf insert_or_ignore (fun e => Py.join "," (snd e)));
    [apply insert_or_ignore_wf | exact Ht].
Qed.

Lemma delete_category_wf name (t : Store.table) :
  store_wf t -> store_wf (delete_category name t).
Proof.
  intros [Hnd Hlow]. unfold delete_category. split.
  - now apply NoDup_map_fst_filter.
  - apply Forall_forall. intros row Hrow.
    apply filter_In in Hrow as [Hrow _].
    rewrite Forall_forall in Hlow. now apply Hlow.
Qed.

Lemma apply_op_wf defaults (t : Store.table) (o : op) :
  store_wf t -> store_wf (apply_op defaults t o).
Proof.
  intros Ht. apply (init_db_wf defaults) in Ht.
  destruct o as [name kws | name | edited | cats]; cbn [apply_op].
  - apply insert_or_replace_wf; [apply lower_idem | exact Ht].
  - now apply delete_category_wf.
  - unfold update_categories_with_unique_keywords, persist_categories.
    cbn [snd].
    apply (fold_insert_wf insert_or_replace
             (fun e => match snd e with
                       | [] => EmptyString
                       | _ => Py.join "," (snd e)
                       end));
      [apply insert_or_replace_wf | exact Ht].
  - unfold import_categories.
    apply (fold_insert_wf insert_or_replace (fun e => Py.join "," (snd e)));
      [apply insert_or_replace_wf | exact Ht].
Qed.

(** X8. Whatever the operations (upsert, delete, bulk update, import, each
    after the initialisation that seeds an empty table), the names of the
    stored categories stay distinct and in lower case: a name is stored
    once, however it was capitalised. *)
Theorem run_keeps_names_distinct_lowercase
  (defaults : list (string * list string)) (ops : list op) :
  forall t : Store.table, store_wf t -> store_wf (run defaults ops t).
Proof.
  induction ops as [|o ops IH]; intros t Ht; [exact Ht|].
  cbn [run fold_left]. apply IH. now apply apply_op_wf.
Qed.

Lemma run_keeps_names_distinct_lowercase_witness :
  store_wf (run sample_categories
              [Upsert "Food" ["noodle"]; Import [("FOOD", ["rice"])];
               Delete "Transport"] []).
Proof.
  apply run_keeps_names_distinct_lowercase. split; constructor.
Defined.

Example run_names_sample :
  get_all_categories
    (run sample_categories
       [Upsert "Food" ["noodle"]; Import [("FOOD", ["rice"])];
        Delete "Transport"] [])
  = [("food", ["rice"])].
Proof. reflexivity. Qed.

(** what is written for a keyword list is read back as that list, unless
    a keyword holds a comma or the list is the one empty keyword. *)
Lemma keywords_read_back (kws : list string) :
  Forall (fun k => no_comma k = true) kws -> kws <> [EmptyString] ->
  (let keywords_str :=
     match kws with [] => EmptyString | _ => Py.join "," kws end in
   if Py.nonempty keywords_str then Py.split "," keywords_str else [])
  = kws.
Proof.
  intros H Hne. destruct kws as [|k ks]; [reflexivity|].
  cbn zeta. inversion H as [|? ? Hk Hks]; subst.
  assert (Hj : Py.nonempty (Py.join "," (k :: ks)) = true).
  { unfold Py.join. destruct k as [|c k].
    - destruct ks as [|k2 ks]; [now contradiction Hne | reflexivity].
    - destruct ks; reflexivity. }
  rewrite Hj. now apply split_join.
Qed.

(** X9. An upsert replaces the keyword list of the category wholesale and
    reads back as given: the snapshot after [update_category name kws] is
    the snapshot without that category (name compared in lower case)
    followed by the category with exactly [kws], provided no keyword holds
    a comma and the list is not the single empty keyword. *)
Theorem update_category_read_back
  (name : string) (kws : list string) (t : Store.table) :
  Forall (fun k => no_comma k = true) kws -> kws <> [EmptyString] ->
  get_all_categories (update_category name kws t)
  = get_all_categories (delete_category name t) ++ [(Py.lower name, kws)].
Proof.
  intros Hnc Hne. unfold update_category, insert_or_replace, delete_category.
  unfold get_all_categories. rewrite map_app. f_equal.
  cbn [map fst snd]. f_equal. f_equal.
  apply (keywords_read_back kws Hnc Hne).
Qed.

Lemma update_category_read_back_witness :
  get_all_categories
    (update_category "Food" ["noodle"; "rice"]
       [("food", "restaurant,cafe"); ("transport", "taxi,grab")])
  = [("transport", ["taxi"; "grab"]); ("food", ["noodle"; "rice"])].
Proof.
  apply (update_category_read_back "Food" ["noodle"; "rice"]
           [("food", "restaurant,cafe"); ("transport", "taxi,grab")]).
  - repeat constructor.
  - discriminate.
Defined.

(** outside that proviso the list read back is another one. *)
Example update_category_comma_and_empty :
  get_all_categories (update_category "a" ["x,y"] []) = [("a", ["x"; "y"])]
  /\ get_all_categories (update_category "a" [""] []) = [("a", [])].
Proof. split; reflexivity. Qed.

(** X10. Deleting a category removes the row of that name, compared in
    lower case, and nothing else: no row of the name is left, every other
    row stays, and deleting a name that is not stored changes nothing. *)
Theorem delete_category_removes_only_that_name
  (name : string) (t : Store.table) :
  ~ In (Py.lower name) (map fst (delete_category name t))
  /\ (forall row, In row t -> fst row <> Py.lower name ->
                  In row (delete_category name t))
  /\ (forall row, In row (delete_category name t) -> In row t)
  /\ (~ In (Py.lower name) (map fst t) -> delete_category name t = t).
Proof.
  unfold delete_category. repeat split.
  - apply not_in_filter_name.
  - intros row Hrow Hne. apply filter_In. split; [exact Hrow|].
    apply negb_true_iff. now apply String.eqb_neq.
  - intros row Hrow. now apply filter_In in Hrow as [Hrow _].
  - intros Hni. induction t as [|row t IH]; [reflexivity|].
    cbn in Hni. cbn.
    destruct (String.eqb_spec (fst row) (Py.lower name)) as [He|He];
      [exfalso; apply Hni; now left|].
    cbn. rewrite IH; [reflexivity|]. intros H. apply Hni. now right.
Qed.

Lemma filter_name_twice (t : Store.table) n k :
  filter (fun row => negb (String.eqb (fst row) n))
         (filter (fun row => negb (String.eqb (fst row) n)) t ++ [(n, k)])
  = filter (fun row => negb (String.eqb (fst row) n)) t.
Proof.
  rewrite filter_app. cbn [filter fst]. rewrite String.eqb_refl. cbn.
  rewrite app_nil_r.
  induction t as [|row t IH]; [reflexivity|].
  cbn. destruct (negb (String.eqb (fst row) n)) eqn:E; [|exact IH].
  cbn. now rewrite E, IH.
Qed.

(** X11. For two spellings of one category name (equal in lower case), the
    last write wins: an upsert after an upsert leaves what the second
    alone leaves, and a delete after an upsert leaves what the delete
    alone leaves. *)
Theorem update_category_last_write_wins
  (n1 n2 : string) (k1 k2 : list string) (t : Store.table) :
  Py.lower n1 = Py.lower n2 ->
  update_category n2 k2 (update_category n1 k1 t) = update_category n2 k2 t
  /\ delete_category n2 (update_category n1 k1 t) = delete_category n2 t.
Proof.
  intros Hn. unfold update_category, delete_category.
  unfold insert_or_replace at 1 3. unfold insert_or_replace.
  rewrite Hn. now rewrite !filter_name_twice.
Qed.

Lemma update_category_last_write_wins_witness :
  update_category "food" ["rice"]
    (update_category "Food" ["noodle"] [("transport", "taxi")])
  = update_category "food" ["rice"] [("transport", "taxi")].
Proof.
  refine (proj1 (update_category_last_write_wins "Food" "food" ["noodle"]
                   ["rice"] [("transport", "taxi")] _)).
  reflexivity.
Defined.

Lemma import_categories_persist (cats : list (string * list string)) :
  forall t : Store.table,
  import_categories cats t = persist_categories cats t.
Proof.
  unfold import_categories, persist_categories.
  induction cats as [|e cats IH]; intros t; [reflexivity|].
  cbn [fold_left]. rewrite IH. do 2 f_equal. now destruct (snd e).
Qed.

(** X12. An import merges the file into the store: the rows the file does
    not name are kept as they are, and each category of the file is
    written after them with the keyword list of the file, the later entry
    winning when two names of the file are equal in lower case. *)
Theorem import_categories_merges
  (cats : list (string * list string)) (t : Store.table) :
  import_categories cats t
  = untouched cats t ++ map stored_row (last_wins cats).
Proof.
  rewrite import_categories_persist. apply persist_categories_read.
Qed.

Lemma join_split s : Py.join "," (Py.split "," s) = s.
Proof.
  unfold Py.join. induction s as [|c s IH]; [reflexivity|].
  cbn [Py.split].
  destruct (Ascii.eqb_spec c ",") as [->|Hc].
  - destruct (Py.split "," s) as [|h l] eqn:E; [cbn in IH; now subst|].
    change (String.concat "," (EmptyString :: h :: l))
      with (String "," (String.concat "," (h :: l))).
    now rewrite IH.
  - destruct (Py.split "," s) as [|h l] eqn:E; [cbn in IH; now subst|].
    destruct l as [|y l].
    + cbn in IH. cbn. now rewrite IH.
    + change (String.concat "," (String c h :: y :: l))
        with (String c (String.concat "," (h :: y :: l))).
      now rewrite IH.
Qed.

Lemma split_not_nil s : Py.split "," s <> [].
Proof.
  destruct s as [|c s]; cbn; [discriminate|].
  destruct (Ascii.eqb c ","); [discriminate|].
  destruct (Py.split "," s); discriminate.
Qed.

Lemma stored_row_get_all (t : Store.table) :
  Forall (fun row => Py.lower (fst row) = fst row) t ->
  map stored_row (get_all_categories t) = t.
Proof.
  unfold get_all_categories.
  induction 1 as [|[n s] t Hn _ IH]; [reflexivity|].
  cbn [map]. rewrite IH. f_equal. unfold stored_row, stored_name.
  cbn [fst snd] in *. rewrite Hn. f_equal.
  destruct s as [|c s]; [reflexivity|].
  cbn [Py.nonempty].
  destruct (Py.split "," (String c s)) as [|h l] eqn:E;
    [now apply split_not_nil in E|].
  rewrite <- E. apply join_split.
Qed.

Lemma stored_names_get_all (t : Store.table) :
  Forall (fun row => Py.lower (fst row) = fst row) t ->
  map stored_name (get_all_categories t) = map fst t.
Proof.
  unfold get_all_categories, stored_name.
  induction 1 as [|row t Hn _ IH]; [reflexivity|].
  cbn [map fst]. now rewrite IH, Hn.
Qed.

(** X13. Export then import is the identity: importing the dictionary that
    [export_categories] dumps into the store it was dumped from leaves the
    table as it was, rows, keyword texts and order (names distinct and in
    lower case, as the store keeps them). *)
Theorem import_of_export_is_identity (t : Store.table) :
  store_wf t -> import_categories (export_categories t) t = t.
Proof.
  intros [Hnd Hlow]. unfold export_categories.
  rewrite import_categories_persist, persist_categories_read.
  assert (Hu : untouched (get_all_categories t) t = []).
  { unfold untouched. rewrite (stored_names_get_all t Hlow).
    assert (H : forall l : Store.table, incl l t ->
              filter (fun row => negb (existsb (String.eqb (fst row)) (map fst t))) l = []).
    { induction l as [|row l IH]; intros Hl; [reflexivity|].
      cbn.
      assert (E : existsb (String.eqb (fst row)) (map fst t) = true).
      { apply existsb_exists. exists (fst row).
        split; [apply in_map, Hl; now left | apply String.eqb_refl]. }
      rewrite E. cbn. apply IH. intros x Hx. apply Hl. now right. }
    apply H, incl_refl. }
  rewrite Hu, last_wins_distinct.
  - cbn [app]. now apply stored_row_get_all.
  - now rewrite (stored_names_get_all t Hlow).
Qed.

Lemma import_of_export_is_identity_witness :
  import_categories
    (export_categories [("food", "restaurant,,cafe "); ("transport", "")])
    [("food", "restaurant,,cafe "); ("transport", "")]
  = [("food", "restaurant,,cafe "); ("transport", "")].
Proof.
  apply import_of_export_is_identity.
  split; [distinct_literals | repeat constructor].
Defined.

(** ** The duplicate-detection query *)

Lemma find_dict_set {V : Type} (k key : string) (v : V) d :
  find (fun e => String.eqb (fst e) k) (dict_set key v d)
  = if String.eqb key k then Some (key, v)
    else find (fun e => String.eqb (fst e) k) d.
Proof.
  induction d as [|[a b] r IH]; cbn.
  - now destruct (String.eqb key k).
  - destruct (String.eqb_spec a key) as [->|Hne]; cbn.
    + now destruct (String.eqb key k).
    + rewrite IH. destruct (String.eqb_spec key k) as [->|Hk].
      * apply String.eqb_neq in Hne. now rewrite Hne.
      * reflexivity.
Qed.

Lemma keys_dict_set {V : Type} (key : string) (v : V) d :
  NoDup (map fst d) -> NoDup (map fst (dict_set key v d)).
Proof.
  induction d as [|[a b] r IH]; cbn; [intros _; repeat constructor; easy|].
  intros H. inversion H as [|? ? Ha Hr]; subst.
  destruct (String.eqb_spec a key) as [->|Hne]; cbn; [now constructor|].
  constructor; [|now apply IH].
  intros Hin. apply in_map_iff in Hin as ([a' b'] & Hfst & Hin).
  cbn in Hfst. subst a'.
  assert (Hf : find (fun e => String.eqb (fst e) a) (dict_set key v r) <> None).
  { intros Hnone. apply (find_none _ _ Hnone) in Hin. cbn in Hin.
    now rewrite String.eqb_refl in Hin. }
  rewrite find_dict_set in Hf.
  apply String.eqb_neq in Hne. rewrite String.eqb_sym, Hne in Hf.
  destruct (find (fun e => String.eqb (fst e) a) r) as [e|] eqn:E;
    [|now apply Hf].
  apply find_some in E as [Hin' He]. apply String.eqb_eq in He.
  apply Ha. rewrite <- He. now apply in_map.
Qed.

Lemma categories_of_snoc k occs o :
  categories_of k (occs ++ [o])
  = categories_of k occs ++ (if String.eqb (fst o) k then [snd o] else []).
Proof.
  unfold categories_of. rewrite filter_app, map_app. cbn.
  now destruct (String.eqb (fst o) k).
Qed.

Lemma count_occurrence_counted km seen o :
  counted km seen -> counted (count_occurrence km o) (seen ++ [o]).
Proof.
  intros [Hnd Hall]. unfold count_occurrence. split.
  - now apply keys_dict_set.
  - intros k. rewrite find_dict_set, categories_of_snoc.
    destruct (String.eqb_spec (fst o) k) as [<-|Hk].
    + cbn [snd]. specialize (Hall (fst o)).
      destruct (find (fun e => String.eqb (fst e) (fst o)) km) as [e|].
      * destruct Hall as [-> _]. split; [reflexivity|].
        now destruct (categories_of (fst o) seen).
      * rewrite Hall. split; [reflexivity | discriminate].
    + rewrite app_nil_r. apply Hall.
Qed.

Lemma count_occurrences_counted occs : forall km seen,
  counted km seen ->
  counted (fold_left count_occurrence occs km) (seen ++ occs).
Proof.
  induction occs as [|o occs IH]; intros km seen H; cbn.
  - now rewrite app_nil_r.
  - replace (seen ++ o :: occs) with ((seen ++ [o]) ++ occs)
      by now rewrite <- app_assoc.
    apply IH. now apply count_occurrence_counted.
Qed.

Lemma inner_loop_occurrences (category : string) (kws : list string) :
  forall km,
  fold_left
    (fun km keyword =>
       if Py.nonempty keyword && Py.nonempty (Py.strip keyword) then
         let keyword := Py.lower (Py.strip keyword) in
         let old :=
           match find (fun e => String.eqb (fst e) keyword) km with
           | Some e => snd e
           | None => []
           end in
         dict_set keyword (old ++ [category]) km
       else km)
    kws km
  = fold_left count_occurrence
      (map (fun keyword => (Py.lower (Py.strip keyword), category))
           (filter (fun keyword =>
                      Py.nonempty keyword && Py.nonempty (Py.strip keyword))
                   kws))
      km.
Proof.
  induction kws as [|k kws IH]; intros km; [reflexivity|].
  cbn [fold_left filter].
  destruct (Py.nonempty k && Py.nonempty (Py.strip k)); [|apply IH].
  cbn [map fold_left]. apply IH.
Qed.

Lemma find_duplicate_keywords_fold (t : Store.table) :
  find_duplicate_keywords t
  = filter (fun e => (1 <? List.length (snd e))%nat)
           (fold_left count_occurrence (keyword_occurrences t) []).
Proof.
  unfold find_duplicate_keywords, keyword_occurrences. f_equal.
  generalize (@nil (string * list string)) as km.
  induction (get_all_categories t) as [|entry l IH]; intros km;
    [reflexivity|].
  cbn [fold_left flat_map]. rewrite fold_left_app, IH. f_equal.
  apply inner_loop_occurrences.
Qed.

Lemma counted_entries km seen k cs :
  counted km seen ->
  In (k, cs) km <-> cs = categories_of k seen /\ cs <> [].
Proof.
  intros [Hnd Hall]. specialize (Hall k). split.
  - intros Hin.
    destruct (find (fun e => String.eqb (fst e) k) km) as [[k' cs']|] eqn:E.
    + apply find_some in E as [Hin' Hk]. cbn in Hk.
      apply String.eqb_eq in Hk. subst k'.
      assert (cs' = cs).
      { clear Hall. induction km as [|[a b] r IH]; [destruct Hin|].
        cbn in Hnd. inversion Hnd as [|? ? Ha Hr]; subst.
        destruct Hin as [[= -> ->] | Hin]; destruct Hin' as [[= ->] | Hin'];
          try reflexivity.
        - exfalso. apply Ha. apply in_map_iff. now exists (k, cs').
        - exfalso. apply Ha. apply in_map_iff. now exists (k, cs).
        - now apply IH. }
      subst cs'. cbn in Hall. destruct Hall as [-> Hne]. now split.
    + apply (find_none _ _ E) in Hin. cbn in Hin.
      now rewrite String.eqb_refl in Hin.
  - intros [-> Hne].
    destruct (find (fun e => String.eqb (fst e) k) km) as [[k' cs']|] eqn:E;
      [|contradiction].
    apply find_some in E as [Hin Hk]. cbn in Hk.
    apply String.eqb_eq in Hk. subst k'. cbn in Hall.
    destruct Hall as [<- _]. exact Hin.
Qed.

Lemma find_duplicate_keywords_fold_in
  (t : Store.table) (keyword : string) (cats : list string) :
  In (keyword, cats) (find_duplicate_keywords t)
  <-> cats = categories_of keyword (keyword_occurrences t)
      /\ (1 < List.length cats)%nat.
Proof.
  rewrite find_duplicate_keywords_fold.
  pose proof (count_occurrences_counted (keyword_occurrences t) [] []
                (conj (NoDup_nil _) (fun _ => eq_refl))) as Hc.
  cbn [app] in Hc. rewrite filter_In. cbn [snd].
  rewrite (counted_entries _ _ keyword cats Hc), Nat.ltb_lt.
  split.
  - now intros [[H _] Hl].
  - intros [H Hl]. repeat split; try assumption.
    intros ->. cbn in Hl. lia.
Qed.

(** X14. The duplicate-detection query reports a keyword exactly when it
    occurs more than once among the stored keywords, compared stripped and
    in lower case, empty keywords left out; the list reported with it names
    the category of each occurrence, in order (a category that holds the
    keyword twice is named twice). *)
Theorem find_duplicate_keywords_reports_occurrences
  (t : Store.table) (keyword : string) (cats : list string) :
  In (keyword, cats) (find_duplicate_keywords t)
  <-> cats = categories_of keyword (keyword_occurrences t)
      /\ (1 < List.length cats)%nat.
Proof. apply find_duplicate_keywords_fold_in. Qed.

Example find_duplicate_keywords_same_category :
  find_duplicate_keywords [("a", "Coffee, coffee ,tea"); ("b", "TEA,,milk")]
  = [("coffee", ["a"; "a"]); ("tea", ["a"; "b"])].
Proof. reflexivity. Qed.

Lemma categories_of_length_nodup (occs : list (string * string)) :
  NoDup (map fst occs)
  <-> forall k, (List.length (categories_of k occs) <= 1)%nat.
Proof.
  unfold categories_of. induction occs as [|[k0 c0] occs IH]; cbn.
  - split; [intros _ k; lia | constructor].
  - split.
    + intros H k. inversion H as [|? ? Hn Hr]; subst.
      destruct (String.eqb_spec k0 k) as [<-|Hk]; [|now apply IH].
      cbn. rewrite length_map.
      assert (Hnil : filter (fun o => String.eqb (fst o) k0) occs = []).
      { clear -Hn. induction occs as [|[a b] occs IH]; [reflexivity|].
        cbn in *. destruct (String.eqb_spec a k0) as [->|Ha];
          [exfalso; apply Hn; now left|].
        apply IH. intros H. apply Hn. now right. }
      rewrite Hnil. cbn. lia.
    + intros H. constructor.
      * intros Hin. apply in_map_iff in Hin as ([a b] & Ha & Hin).
        cbn in Ha. subst a. specialize (H k0).
        rewrite String.eqb_refl in H. cbn in H.
        assert (Hin' : In (k0, b) (filter (fun o => String.eqb (fst o) k0) occs))
          by (apply filter_In; split; [exact Hin | apply String.eqb_refl]).
        rewrite length_map in H.
        destruct (filter (fun o => String.eqb (fst o) k0) occs);
          [destruct Hin' | cbn in H; lia].
      * apply IH. intros k. specialize (H k).
        destruct (String.eqb k0 k); cbn in H; lia.
Qed.

Lemma distinct_occurrences_no_duplicates (t : Store.table) :
  NoDup (map fst (keyword_occurrences t)) -> find_duplicate_keywords t = [].
Proof.
  rewrite categories_of_length_nodup. intros H.
  destruct (find_duplicate_keywords t) as [|[k cs] l] eqn:E; [reflexivity|].
  assert (Hin : In (k, cs) (find_duplicate_keywords t))
    by (rewrite E; now left).
  apply find_duplicate_keywords_fold_in in Hin as [-> Hl].
  specialize (H k). lia.
Qed.

(** X15. The query reports nothing exactly when no keyword, stripped and
    in lower case, occurs twice in the store. *)
Theorem find_duplicate_keywords_empty_iff (t : Store.table) :
  find_duplicate_keywords t = []
  <-> NoDup (map fst (keyword_occurrences t)).
Proof.
  rewrite categories_of_length_nodup. split.
  - intros H k.
    destruct (Nat.le_gt_cases
                (List.length (categories_of k (keyword_occurrences t))) 1)
      as [Hle|Hgt]; [exact Hle|].
    assert (Hin : In (k, categories_of k (keyword_occurrences t))
                     (find_duplicate_keywords t))
      by (apply find_duplicate_keywords_fold_in; now split).
    rewrite H in Hin. destruct Hin.
  - rewrite <- categories_of_length_nodup.
    apply distinct_occurrences_no_duplicates.
Qed.

Lemma clean_occurrences (cats : snapshot) :
  Forall (fun entry => Forall clean_keyword (snd entry)) cats ->
  map fst
    (flat_map
       (fun entry =>
          map (fun keyword => (Py.lower (Py.strip keyword), fst entry))
              (filter (fun keyword =>
                         Py.nonempty keyword && Py.nonempty (Py.strip keyword))
                      (snd entry)))
       cats)
  = List.concat (map snd cats).
Proof.
  induction 1 as [|[c kws] l Hc _ IH]; [reflexivity|].
  cbn [flat_map map List.concat fst snd]. rewrite map_app, IH. f_equal.
  cbn [snd] in Hc. clear IH. induction Hc as [|k ks (Hne & Hs & Hl & _) _ IH];
    [reflexivity|].
  cbn [filter]. rewrite Hs, Hne. cbn [andb map fst]. now rewrite Hs, Hl, IH.
Qed.

(** X16. After a bulk update whose batch (a dictionary) names every stored
    category, the duplicate-detection query reports nothing. *)
Theorem bulk_update_leaves_no_duplicates
  (edited : list (string * string)) (t : Store.table) :
  NoDup (map fst edited) ->
  (forall row, In row t -> In (fst row) (map stored_name edited)) ->
  find_duplicate_keywords (snd (update_categories_with_unique_keywords edited t))
  = [].
Proof.
  intros Hnd Hcov. apply distinct_occurrences_no_duplicates.
  unfold keyword_occurrences. rewrite clean_occurrences.
  - apply (bulk_update_keeps_keywords_unique edited t Hnd Hcov).
  - rewrite (bulk_update_read_back edited t Hnd), (untouched_covered _ _ Hcov).
    cbn [get_all_categories map app]. rewrite Forall_map. cbn [snd].
    apply Forall_forall. intros e He. apply last_wins_incl in He.
    pose proof (first_claims_clean edited []) as Hc.
    rewrite Forall_forall in Hc. now apply Hc.
Qed.

Lemma bulk_update_leaves_no_duplicates_witness :
  find_duplicate_keywords
    (snd (update_categories_with_unique_keywords
            [("Food", "Cafe, grab"); ("transport", "GRAB,taxi")]
            [("food", "cafe,taxi"); ("transport", "taxi")]))
  = [].
Proof.
  apply bulk_update_leaves_no_duplicates.
  - distinct_literals.
  - cbn. intros row [<- | [<- | []]]; cbn; auto.
Defined.

Example partial_bulk_update_leaves_duplicates :
  find_duplicate_keywords
    (snd (update_categories_with_unique_keywords
            [("food", "cafe,taxi")]
            [("food", "cafe"); ("transport", "taxi")]))
  = [("taxi", ["transport"; "food"])].
Proof. reflexivity. Qed.

(** ** The [expenses] table: what is written, and the ids *)

Lemma parse_dates_each lib (date_strs : list string) : forall dates,
  parse_dates lib date_strs = Some dates ->
  Forall2 (fun s d => parse_date lib s = Some d) date_strs dates.
Proof.
  induction date_strs as [|s rest IH]; cbn; intros dates H.
  - injection H as <-. constructor.
  - destruct (parse_date lib s) as [d|] eqn:Hs; [|discriminate].
    destruct (parse_dates lib rest) as [ds|]; [|discriminate].
    injection H as <-. constructor; [exact Hs | now apply IH].
Qed.

Lemma insert_expense_written lib bill_month (df : list frame_row) :
  forall dates t,
  Forall2 (fun r d => parse_date lib (Date r) = Some d) df dates ->
  exists new,
    rows (fold_left (insert_expense bill_month) (combine dates df) t)
    = rows t ++ new
    /\ Forall2 (written_as lib bill_month) df new.
Proof.
  induction df as [|r df IH]; intros dates t H; inversion H as [|? d ? ds Hd Hds];
    subst.
  - exists []. cbn. rewrite app_nil_r. split; [reflexivity | constructor].
  - cbn [combine fold_left].
    destruct (IH ds (insert_expense bill_month t (d, r)) Hds)
      as (new & Hrows & Hnew).
    cbn [insert_expense rows] in Hrows. rewrite <- app_assoc in Hrows.
    eexists. split; [exact Hrows|].
    constructor; [|exact Hnew].
    unfold written_as. cbn. repeat split. exact Hd.
Qed.

(** X17. A frame (with the default index) that is not empty and whose
    dates all parse is written whole: [save_expenses] returns True, the old
    rows stay in place and one row per frame row is appended in frame
    order, holding the parsed date, the row's Bills, Amount, Category,
    split columns and Text; every new row gets the bill month of the FIRST
    frame row, whatever its own says. *)
Theorem save_expenses_writes_frame
  lib (first : frame_row) (rest : list frame_row) (t : Expenses.table) :
  Forall (fun r => parse_date lib (Date r) <> None) (first :: rest) ->
  exists new,
    fst (save_expenses lib (first :: rest) t) = true
    /\ rows (snd (save_expenses lib (first :: rest) t)) = rows t ++ new
    /\ Forall2 (written_as lib (Credit_Card_Bill_Month first))
               (first :: rest) new.
Proof.
  intros Hall.
  destruct (parse_dates_some lib (map Date (first :: rest)))
    as (dates & Hd & _); [now apply Forall_map|].
  unfold save_expenses. rewrite Hd. cbn [fst snd].
  apply parse_dates_each in Hd.
  assert (H2 : Forall2 (fun r d => parse_date lib (Date r) = Some d)
                       (first :: rest) dates).
  { clear -Hd. remember (first :: rest) as df eqn:E. clear E.
    revert dates Hd. induction df as [|r df IH]; intros dates Hd;
      inversion Hd; subst; constructor; auto. }
  destruct (insert_expense_written lib (Credit_Card_Bill_Month first)
              (first :: rest) dates t H2) as (new & Hrows & Hnew).
  exists new. repeat split; assumption.
Qed.

Lemma save_expenses_writes_frame_witness :
  exists new,
    fst (save_expenses iso_only
           [sample_row "2024-01-05"; sample_row " 2024-01-06 "]
           (mk_table [sample_expense 4 "Cafe" None] 7)) = true
    /\ rows (snd (save_expenses iso_only
                    [sample_row "2024-01-05"; sample_row " 2024-01-06 "]
                    (mk_table [sample_expense 4 "Cafe" None] 7)))
       = rows (mk_table [sample_expense 4 "Cafe" None] 7) ++ new
    /\ Forall2 (written_as iso_only
                  (Credit_Card_Bill_Month (sample_row "2024-01-05")))
               [sample_row "2024-01-05"; sample_row " 2024-01-06 "] new.
Proof.
  apply save_expenses_writes_frame.
  repeat constructor; discriminate.
Defined.

Example save_expenses_empty_frame (t : Expenses.table) :
  save_expenses iso_only [] t = (false, t).
Proof. reflexivity. Qed.

Example save_expenses_first_bill_month :
  map credit_card_bill_month
    (rows (snd (save_expenses iso_only
                  [mk_frame_row "2024-01-05" "A" 1 "food" 50 0.5 0.5 "S$1"
                     "2024-02-01";
                   mk_frame_row "2024-01-06" "B" 2 "food" 50 1 1 "S$2"
                     "2024-03-01"]
                  (mk_table [] 0))))
  = ["2024-02-01"; "2024-02-01"].
Proof. reflexivity. Qed.

Lemma fold_max_ge (l : list Z) : forall a,
  a <= fold_left Z.max l a /\ forall x, In x l -> x <= fold_left Z.max l a.
Proof.
  induction l as [|y l IH]; intros a; cbn.
  - split; [lia | intros x []].
  - destruct (IH (Z.max a y)) as [H1 H2]. split; [lia|].
    intros x [<- | Hx]; [lia | now apply H2].
Qed.

Lemma max_id_ge (l : list expense) e : In e l -> id e <= max_id l.
Proof.
  intros H. unfold max_id. apply (fold_max_ge (map id l) 0). now apply in_map.
Qed.

Lemma ids_extend_refl t : ids_extend t t.
Proof.
  split; [lia|]. intros e He. left. now apply in_map.
Qed.

Lemma ids_extend_trans t1 t2 t3 :
  ids_extend t1 t2 -> ids_extend t2 t3 -> ids_extend t1 t3.
Proof.
  intros [Hs1 H1] [Hs2 H2]. split; [lia|].
  intros e He. destruct (H2 e He) as [Hin | Hgt]; [|right; lia].
  apply in_map_iff in Hin as (e2 & Hid & Hin2). rewrite <- Hid.
  now apply H1.
Qed.

(** one INSERT: the new id is above the counter and above every id. *)
Lemma insert_row_ids (t : Expenses.table) (e : expense) :
  id e = Z.max (seq t) (max_id (rows t)) + 1 ->
  ids_wf t ->
  ids_wf (mk_table (rows t ++ [e]) (id e))
  /\ ids_extend t (mk_table (rows t ++ [e]) (id e)).
Proof.
  intros Hid [Hnd Hle]. repeat split; cbn [rows seq].
  - rewrite map_app. cbn. apply NoDup_app; [exact Hnd | distinct_literals |].
    intros x Hx [<- | []].
    apply in_map_iff in Hx as (e' & He' & Hin).
    apply max_id_ge in Hin. lia.
  - apply Forall_app. split.
    + eapply Forall_impl; [|exact Hle]. cbn. intros a Ha. lia.
    + constructor; [lia | constructor].
  - lia.
  - intros e' He'. apply in_app_iff in He' as [He' | [<- | []]].
    + left. now apply in_map.
    + right. lia.
Qed.

Lemma insert_expenses_ids bill_month entries : forall t,
  ids_wf t ->
  ids_wf (fold_left (insert_expense bill_month) entries t)
  /\ ids_extend t (fold_left (insert_expense bill_month) entries t).
Proof.
  induction entries as [|[d r] entries IH]; intros t Hwf; cbn [fold_left].
  - split; [exact Hwf | apply ids_extend_refl].
  - pose proof (insert_row_ids t
        (mk_expense (Z.max (seq t) (max_id (rows t)) + 1) d (Some (Bills r))
           (Amount r) (Some (Category r)) (Self_Percentage r) (Self_Amount r)
           (Wife_Amount r) (Text r) bill_month) eq_refl Hwf) as [Hwf1 Hex1].
    cbn [id] in Hwf1, Hex1.
    destruct (IH _ Hwf1) as [Hwf2 Hex2]. split; [exact Hwf2|].
    eapply ids_extend_trans; [exact Hex1 | exact Hex2].
Qed.

Lemma same_ids_wf (t : Expenses.table) (l : list expense) :
  map id l = map id (rows t) ->
  ids_wf t ->
  ids_wf (mk_table l (seq t)) /\ ids_extend t (mk_table l (seq t)).
Proof.
  intros Hids [Hnd Hle]. repeat split; cbn [rows seq].
  - now rewrite Hids.
  - apply Forall_forall. intros e He.
    assert (Hin : In (id e) (map id (rows t)))
      by (rewrite <- Hids; now apply in_map).
    apply in_map_iff in Hin as (e' & <- & Hin).
    rewrite Forall_forall in Hle. now apply Hle.
  - lia.
  - intros e He. left. rewrite <- Hids. now apply in_map.
Qed.

Lemma apply_expense_op_ids lib (t : Expenses.table) (o : expense_op) :
  ids_wf t ->
  ids_wf (apply_expense_op lib t o) /\ ids_extend t (apply_expense_op lib t o).
Proof.
  intros Hwf. destruct o as [df | | i | process categories | scorer categories];
    cbn [apply_expense_op].
  - unfold save_expenses.
    destruct (parse_dates lib (map Date df)) as [dates|];
      [|split; [exact Hwf | apply ids_extend_refl]].
    destruct df as [|first rest];
      [split; [exact Hwf | apply ids_extend_refl]|].
    cbn [snd]. now apply insert_expenses_ids.
  - unfold add_expense. cbn [snd].
    match goal with
    | |- ids_wf (mk_table (_ ++ [?e]) _) /\ _ =>
        apply (insert_row_ids t e eq_refl Hwf)
    end.
  - unfold delete_expense. cbn [snd]. destruct Hwf as [Hnd Hle].
    repeat split; cbn [rows seq].
    + clear Hle. induction (rows t) as [|e l IH]; [constructor|].
      cbn in Hnd. inversion Hnd as [|? ? Hn Hl]; subst. cbn [filter].
      destruct (negb (id e =? i)); [|now apply IH].
      cbn. constructor; [|now apply IH].
      intros Hin. apply Hn. apply in_map_iff in Hin as (e' & He' & Hin).
      apply filter_In in Hin as [Hin _]. apply in_map_iff. now exists e'.
    + apply Forall_forall. intros e He. apply filter_In in He as [He _].
      rewrite Forall_forall in Hle. now apply Hle.
    + lia.
    + intros e He. apply filter_In in He as [He _]. left. now apply in_map.
  - rewrite (recategorize_run process categories t (proj1 Hwf)). cbn [fst].
    apply same_ids_wf; [|exact Hwf].
    rewrite map_map. apply map_ext. apply recategorized_id.
  - rewrite (script_run scorer categories t (proj1 Hwf)). cbn [fst].
    apply same_ids_wf; [|exact Hwf].
    rewrite map_map. apply map_ext. apply recategorized_script_id.
Qed.

(** X18. Whatever sequence of bulk imports, single inserts, deletes and
    recategorisations (of either program) is applied to a table whose ids
    are distinct and not above the AUTOINCREMENT counter, the ids stay
    distinct and not above the counter, the counter never goes back, and
    every row afterwards has the id of a row that was there before or an id
    above the old counter: the id of a deleted row is never given again. *)
Theorem expense_ids_never_reused lib (ops : list expense_op) :
  forall t, ids_wf t ->
  ids_wf (run_expense_ops lib ops t)
  /\ ids_extend t (run_expense_ops lib ops t).
Proof.
  unfold run_expense_ops.
  induction ops as [|o ops IH]; intros t Hwf; cbn [fold_left].
  - split; [exact Hwf | apply ids_extend_refl].
  - destruct (apply_expense_op_ids lib t o Hwf) as [Hwf1 Hex1].
    destruct (IH _ Hwf1) as [Hwf2 Hex2]. split; [exact Hwf2|].
    eapply ids_extend_trans; [exact Hex1 | exact Hex2].
Qed.

Lemma expense_ids_never_reused_witness :
  ids_wf (run_expense_ops iso_only
            [SaveExpenses [sample_row "2024-01-05"; sample_row "2024-01-06"];
             DeleteExpense 2;
             AddExpense "2024-01-07" (Some "Cafe") 3 None 50 1.5 1.5 "S$3"
               "2024-02-01";
             Recategorize None sample_categories]
            (mk_table [] 0))
  /\ ids_extend (mk_table [] 0)
       (run_expense_ops iso_only
          [SaveExpenses [sample_row "2024-01-05"; sample_row "2024-01-06"];
           DeleteExpense 2;
           AddExpense "2024-01-07" (Some "Cafe") 3 None 50 1.5 1.5 "S$3"
             "2024-02-01";
           Recategorize None sample_categories]
          (mk_table [] 0)).
Proof.
  apply expense_ids_never_reused. split; constructor.
Defined.

Example deleted_id_not_given_again :
  map id
    (rows (run_expense_ops iso_only
             [SaveExpenses [sample_row "2024-01-05"; sample_row "2024-01-06"];
              DeleteExpense 2;
              AddExpense "2024-01-07" (Some "Cafe") 3 None 50 1.5 1.5 "S$3"
                "2024-02-01"]
             (mk_table [] 0)))
  = [1; 3].
Proof. reflexivity. Qed.

(** ** The script [update_categories.py] *)

Lemma recategorized_script_same_but_category scorer categories e :
  same_but_category e (recategorized_script scorer categories e)
  /\ category (recategorized_script scorer categories e)
     = match category e with
       | None => None
       | Some c =>
           if truthy (description e)
              && negb (String.eqb c (new_category_script scorer categories e))
           then Some (new_category_script scorer categories e)
           else Some c
       end.
Proof.
  unfold recategorized_script, needs_update_script, same_but_category.
  destruct (category e) as [c|] eqn:Hc.
  - destruct (truthy (description e)
              && negb (String.eqb c (new_category_script scorer categories e)));
      cbn; rewrite ?Hc; repeat split.
  - rewrite andb_false_r. rewrite Hc. repeat split.
Qed.

(** X19. One run of [update_existing_expenses] of the script over a table
    with distinct ids: a row is rewritten exactly when its description is
    not empty and its stored category is not NULL and differs from the
    recomputed one; a row whose category is NULL keeps NULL; no other
    column changes; the report counts the rows fetched and the rows
    rewritten and lists (id, description, new category) for each rewritten
    row, in table order. *)
Theorem script_rewrites_differing_non_null
  scorer categories (t : Expenses.table) :
  NoDup (map id (rows t)) ->
  let t' := fst (update_existing_expenses scorer categories t) in
  let rep := snd (update_existing_expenses scorer categories t) in
  Forall2
    (fun e e' =>
       same_but_category e e'
       /\ category e' =
          match category e with
          | None => None
          | Some c =>
              if truthy (description e)
                 && negb (String.eqb c
                            (new_category_script scorer categories e))
              then Some (new_category_script scorer categories e)
              else Some c
          end)
    (rows t) (rows t')
  /\ seq t' = seq t
  /\ total_processed rep = Z.of_nat (List.length (rows t))
  /\ updated_expenses rep
     = map (log_entry_script scorer categories)
           (filter (needs_update_script scorer categories) (rows t))
  /\ total_updated rep = Z.of_nat (List.length (updated_expenses rep)).
Proof.
  intros Hnd. cbn zeta. rewrite (script_run scorer categories t Hnd).
  cbn [fst snd rows seq total_processed updated_expenses total_updated].
  repeat split.
  - clear Hnd. induction (rows t) as [|e r IH]; cbn [map]; constructor.
    + apply recategorized_script_same_but_category.
    + exact IH.
  - now rewrite length_map.
Qed.

Lemma script_rewrites_differing_non_null_witness :
  updated_expenses
    (snd (update_existing_expenses exact_scorer sample_categories
            (mk_table [sample_expense 1 "Grab Ride" (Some "food");
                       sample_expense 2 "taxi home" None;
                       sample_expense 3 "cafe" (Some "food")] 3)))
  = map (log_entry_script exact_scorer sample_categories)
        (filter (needs_update_script exact_scorer sample_categories)
           (rows (mk_table [sample_expense 1 "Grab Ride" (Some "food");
                            sample_expense 2 "taxi home" None;
                            sample_expense 3 "cafe" (Some "food")] 3))).
Proof.
  refine (proj1 (proj2 (proj2 (proj2
            (script_rewrites_differing_non_null exact_scorer
               sample_categories _ _))))).
  distinct_literals.
Defined.

(** the two recategorisers on a row without category: [app.py] fills it,
    the script leaves it. *)
Example null_category_app_and_script :
  map category
    (rows (fst (update_existing_expenses_categories (Some exact_scorer)
                  sample_categories
                  (mk_table [sample_expense 2 "taxi home" None] 2))))
  = [Some "transport"]
  /\ map category
       (rows (fst (update_existing_expenses exact_scorer sample_categories
                     (mk_table [sample_expense 2 "taxi home" None] 2))))
     = [None].
Proof. split; reflexivity. Qed.

Lemma sync_insert_spec (categories : list (string * list string)) :
  forall t,
  (NoDup (map fst t ++ map stored_name categories) ->
   sync_insert categories t
   = Some (t ++ map (fun entry =>
                       (stored_name entry, Py.join "," (snd entry)))
                    categories))
  /\ (NoDup (map fst t) -> ~ NoDup (map fst t ++ map stored_name categories) ->
      sync_insert categories t = None).
Proof.
  induction categories as [|[c kws] rest IH]; intros t.
  - cbn. rewrite !app_nil_r. split; [reflexivity | now intros H H'].
  - cbn [sync_insert map]. unfold stored_name at 1 3. cbn [fst snd].
    destruct (existsb (fun row => String.eqb (fst row) (Py.lower c)) t) eqn:E.
    + apply existsb_exists in E as (row & Hin & Heq).
      apply String.eqb_eq in Heq. split; [|reflexivity].
      intros Hnd. exfalso.
      apply NoDup_remove_2 in Hnd. apply Hnd.
      apply in_or_app. left. rewrite <- Heq. now apply in_map.
    + assert (Hfresh : ~ In (Py.lower c) (map fst t)).
      { intros Hin. apply in_map_iff in Hin as (row & Heq & Hin).
        assert (existsb (fun r => String.eqb (fst r) (Py.lower c)) t = true)
          by (apply existsb_exists; exists row;
              split; [exact Hin | now apply String.eqb_eq]).
        congruence. }
      destruct (IH (t ++ [(Py.lower c, Py.join "," kws)])) as [IH1 IH2].
      rewrite map_app in IH1, IH2. cbn [map fst] in IH1, IH2.
      rewrite <- !app_assoc in IH1, IH2. cbn [app] in IH1, IH2.
      split.
      * intros Hnd. rewrite (IH1 Hnd). now rewrite <- app_assoc.
      * intros Ht Hdup. apply IH2; [|exact Hdup].
        apply NoDup_app; [exact Ht | distinct_literals |].
        intros x Hx [<- | []]. contradiction.
Qed.

(** X20. [sync_categories_from_json] is all or nothing.  When no two keys
    of the JSON file have the same lower-case form, the table is replaced
    by one row per key (name in lower case, keywords joined by commas),
    whatever it held before; when two keys collide, the INSERT of the
    second fails, nothing is committed and the table is as before. *)
Theorem sync_categories_all_or_nothing
  (categories : list (string * list string)) (t : Store.table) :
  (NoDup (map stored_name categories) ->
   sync_categories_from_json categories t
   = (true,
      map (fun entry => (stored_name entry, Py.join "," (snd entry)))
          categories))
  /\ (~ NoDup (map stored_name categories) ->
      sync_categories_from_json categories t = (false, t)).
Proof.
  unfold sync_categories_from_json.
  destruct (sync_insert_spec categories []) as [H1 H2]. cbn [map app] in H1, H2.
  split.
  - intros Hnd. now rewrite (H1 Hnd).
  - intros Hdup. now rewrite (H2 (NoDup_nil _) Hdup).
Qed.

Example sync_categories_collision :
  sync_categories_from_json [("Food", ["cafe"]); ("food", ["rice"])]
    [("old", "x")]
  = (false, [("old", "x")])
  /\ sync_categories_from_json [("Food", ["cafe"; "rice"]); ("fun", [])]
       [("old", "x")]
     = (true, [("food", "cafe,rice"); ("fun", "")]).
Proof. split; reflexivity. Qed.

(** ** Writing the same thing twice *)

Lemma filter_twice {A : Type} (f : A -> bool) (l : list A) :
  filter f (filter f l) = filter f l.
Proof.
  induction l as [|x l IH]; [reflexivity|].
  cbn. destruct (f x) eqn:E; [|exact IH]. cbn. now rewrite E, IH.
Qed.

Lemma untouched_written (processed : list (string * list string)) :
  untouched processed (map stored_row (last_wins processed)) = [].
Proof.
  unfold untouched.
  assert (H : forall e, In e (last_wins processed) -> In e processed)
    by (intros e; apply last_wins_incl).
  induction (last_wins processed) as [|e l IH]; [reflexivity|].
  cbn [map filter]. unfold stored_row at 1. cbn [fst].
  assert (Hin : existsb (String.eqb (stored_name e))
                  (map stored_name processed) = true).
  { apply existsb_exists. exists (stored_name e).
    split; [apply in_map, H; now left | apply String.eqb_refl]. }
  rewrite Hin. cbn [negb]. apply IH. intros x Hx. apply H. now right.
Qed.

(** X21. Saving the same edited categories a second time changes
    nothing: the bulk update is idempotent on the store. *)
Theorem bulk_update_idempotent
  (edited : list (string * string)) (t : Store.table) :
  snd (update_categories_with_unique_keywords edited
         (snd (update_categories_with_unique_keywords edited t)))
  = snd (update_categories_with_unique_keywords edited t).
Proof.
  unfold update_categories_with_unique_keywords. cbn [snd].
  rewrite !persist_categories_read.
  unfold untouched at 1. rewrite filter_app.
  fold (untouched (snd (process_categories edited))
          (map stored_row (last_wins (snd (process_categories edited))))).
  rewrite untouched_written, app_nil_r.
  unfold untouched. now rewrite filter_twice.
Qed.

(** *** [init_db] *)

Lemma existsb_names (t : Store.table) (n : string) :
  existsb (fun row => String.eqb (fst row) n) t
  = existsb (String.eqb n) (map fst t).
Proof.
  induction t as [|row t IH]; [reflexivity|].
  cbn. now rewrite IH, String.eqb_sym.
Qed.

Lemma seed_first_wins (defaults : list (string * list string)) :
  forall t : Store.table,
  fold_left
    (fun t entry => insert_or_ignore (Py.lower (fst entry))
                      (Py.join "," (snd entry)) t)
    defaults t
  = t ++ map (fun entry => (stored_name entry, Py.join "," (snd entry)))
             (first_wins (map fst t) defaults).
Proof.
  induction defaults as [|e rest IH]; intros t; cbn [fold_left first_wins].
  - cbn. now rewrite app_nil_r.
  - rewrite IH. unfold insert_or_ignore. rewrite existsb_names.
    fold (stored_name e).
    destruct (existsb (String.eqb (stored_name e)) (map fst t));
      [reflexivity|].
    rewrite map_app. cbn [map fst]. now rewrite <- app_assoc.
Qed.

(** X22. On an empty table [init_db] writes one row per default category
    in file order, the name in lower case and the keywords joined by
    commas; of two default categories with the same lower-case name the
    FIRST is kept (an import keeps the last). *)
Theorem init_db_seeds_first_wins
  (defaults : list (string * list string)) :
  init_db defaults []
  = map (fun entry => (stored_name entry, Py.join "," (snd entry)))
        (first_wins [] defaults).
Proof. unfold init_db. now rewrite seed_first_wins. Qed.

Example seed_keeps_first_import_keeps_last :
  init_db [("Food", ["cafe"]); ("food", ["rice"])] [] = [("food", "cafe")]
  /\ import_categories [("Food", ["cafe"]); ("food", ["rice"])] []
     = [("food", "rice")].
Proof. split; reflexivity. Qed.

(** X23. [init_db] is idempotent: every operation opens the database
    through it, and a second call never changes what the first left. *)
Theorem init_db_idempotent
  (defaults : list (string * list string)) (t : Store.table) :
  init_db defaults (init_db defaults t) = init_db defaults t.
Proof.
  destruct t as [|row t]; [|reflexivity].
  destruct (init_db defaults []) as [|row t] eqn:E; [exact E | reflexivity].
Qed.
